(** * DPL site script: a shallow embedding of [script.js] and its properties

    The script is a set of independent UI controllers over the browser's DOM,
    [localStorage] and timers.  The embedding has four layers:

    - [JsNum]: ECMAScript Numbers as IEEE binary64 values (Rocq's primitive
      floats), with [parseInt], [Math.floor], [Number.prototype.toFixed] and
      Number-to-String conversion written out;
    - [Dom]: the page as a heap of element objects with class lists,
      attributes and inline styles, the persisted key-value store, the
      registered listeners and the pending timers, threaded through a small
      state-and-exception monad;
    - one module per controller of the script, each function translated
      statement by statement;
    - events: a click or a key press travels from its target up to the
      window and runs the listeners registered along the way, a timer runs
      its callback. *)

From Stdlib Require Import ZArith QArith Qabs Qround Floats Ascii String DecimalString Sorted.
From stdpp Require Import gmap strings list.

Open Scope string_scope.
Open Scope list_scope.

(** ** ECMAScript Numbers *)

Module JsNum.

(** 𝔽(z): the Number nearest to the integer [z] (ties to even). *)
Definition ofZ (z : Z) : float := SF2Prim (binary_normalize prec emax z 0 false).

Definition cond_Qopp (neg : bool) (q : Q) : Q := if neg then Qopp q else q.

(** The exact rational value of a finite Number. *)
Definition toQ (x : float) : Q :=
  match Prim2SF x with
  | S754_finite s m e => cond_Qopp s (inject_Z (Z.pos m) * Qpower 2 e)%Q
  | _ => 0%Q
  end.

(** Decimal digits of a non-negative integer, ["0"] for zero. *)
Definition digits (z : Z) : string := NilZero.string_of_uint (N.to_uint (Z.to_N z)).

Fixpoint zeros (n : nat) : string :=
  match n with
  | O => ""
  | S k => String "0"%char (zeros k)
  end.

Definition take (n : nat) (s : string) : string := String.substring 0 n s.
Definition drop (n : nat) (s : string) : string :=
  String.substring n (String.length s - n) s.

(** [Math.floor]: the result is integral, so it is computed exactly. *)
Definition Math_floor (x : float) : float :=
  match Prim2SF x with
  | S754_finite s m e =>
      if (0 <=? e)%Z then x
      else
        let z := ((if s then Z.neg m else Z.pos m) / 2 ^ (- e))%Z in
        if (z =? 0)%Z then PrimFloat.zero else ofZ z
  | _ => x
  end.

(** *** Number::toString (radix 10)

    For a finite positive [x] the standard asks for integers [n], [k], [s]
    with [10^(k-1) <= s < 10^k], 𝔽(s * 10^(n-k)) = [x] and [k] minimal, the
    candidate closest to [x] being taken when several fit.  𝔽(v) = [x] holds
    exactly when [v] lies between the midpoints to the two neighbours of
    [x], the midpoints included when the significand of [x] is even. *)

Definition two_pow_1024 : Q := Qpower 2 1024.

Definition upper_neighbour (x : float) : Q :=
  let u := next_up x in
  if is_infinity u then two_pow_1024 else toQ u.

Definition significand_even (x : float) : bool :=
  match Prim2SF x with
  | S754_finite _ m _ => Z.even (Z.pos m)
  | _ => true
  end.

Definition rounds_to (x : float) (v : Q) : bool :=
  let X := toQ x in
  let lo := ((X + toQ (next_down x)) / 2)%Q in
  let hi := ((X + upper_neighbour x) / 2)%Q in
  if significand_even x
  then Qle_bool lo v && Qle_bool v hi
  else negb (Qle_bool v lo) && negb (Qle_bool hi v).

Definition pow10 (n : Z) : Q := Qpower 10 n.

(** The [n] with [10^(n-1) <= X < 10^n], for [X > 0]. *)
Fixpoint scale_up (fuel : nat) (X : Q) (j : Z) : Z :=
  match fuel with
  | O => j
  | S f => if Qle_bool 1 (X * pow10 j)%Q then j else scale_up f X (j + 1)%Z
  end.

Definition decimal_exponent (X : Q) : Z :=
  if Qle_bool 1 X
  then Z.of_nat (String.length (digits (Qfloor X)))
  else (1 - scale_up 400 X 1)%Z.

Definition Qabs_diff (a b : Q) : Q := Qabs (a - b)%Q.

(** Of two candidates the one nearer to [X]; on a tie the even [s]. *)
Definition nearer (X : Q) (c1 c2 : Z * Z) : Z * Z :=
  let v (c : Z * Z) := (inject_Z (fst c) * pow10 (snd c))%Q in
  let d1 := Qabs_diff (v c1) X in
  let d2 := Qabs_diff (v c2) X in
  if Qeq_bool d1 d2 then (if Z.even (fst c1) then c1 else c2)
  else if Qle_bool d1 d2 then c1 else c2.

(** Candidates [(s, n - k)] with exactly [k] digits that round to [x]. *)
Definition candidates (x : float) (n0 k : Z) : list (Z * Z) :=
  let X := toQ x in
  let at_n (n : Z) :=
    let s0 := Qfloor (X / pow10 (n - k)%Z)%Q in
    List.filter
      (fun c : Z * Z =>
         (10 ^ (k - 1) <=? fst c)%Z && (fst c <? 10 ^ k)%Z
         && rounds_to x (inject_Z (fst c) * pow10 (snd c))%Q)
      [(s0, n - k)%Z; (s0 + 1, n - k)%Z] in
  at_n n0 ++ at_n (n0 + 1)%Z.

Fixpoint shortest (fuel : nat) (x : float) (n0 k : Z) : Z * Z * Z :=
  match fuel with
  | O => (0, 0, k)%Z
  | S f =>
      match candidates x n0 k with
      | [] => shortest f x n0 (k + 1)%Z
      | c :: cs =>
          let best := List.fold_left (nearer (toQ x)) cs c in
          (fst best, snd best + k, k)%Z
      end
  end.

(** The digit string for [s], [n], [k] as the standard lays it out. *)
Definition layout (s n k : Z) : string :=
  let ds := digits s in
  if (k <=? n)%Z && (n <=? 21)%Z then
    ds +:+ zeros (Z.to_nat (n - k))
  else if (0 <? n)%Z && (n <=? 21)%Z then
    take (Z.to_nat n) ds +:+ "." +:+ drop (Z.to_nat n) ds
  else if (-6 <? n)%Z && (n <=? 0)%Z then
    "0." +:+ zeros (Z.to_nat (- n)) +:+ ds
  else
    let e := (n - 1)%Z in
    let es := (if (e <? 0)%Z then "-" else "+") +:+ digits (Z.abs e) in
    if (k =? 1)%Z then ds +:+ "e" +:+ es
    else take 1 ds +:+ "." +:+ drop 1 ds +:+ "e" +:+ es.

Definition toString_pos (x : float) : string :=
  let '(s, n, k) := shortest 20 x (decimal_exponent (toQ x)) 1 in
  layout s n k.

Definition Number_toString (x : float) : string :=
  if is_nan x then "NaN"
  else if is_zero x then "0"
  else if is_infinity x then (if (x <? 0)%float then "-Infinity" else "Infinity")
  else if (x <? 0)%float then "-" +:+ toString_pos (- x)%float
  else toString_pos x.

(** *** Number.prototype.toFixed

    For [|x| < 10^21] the integer [n] with [n / 10^f - x] nearest to zero is
    taken, the larger one on a tie; [x] is made positive first. *)

Definition round_half_up_scaled (m : positive) (e : Z) (f : nat) : Z :=
  let q := (Z.pos m * 10 ^ Z.of_nat f)%Z in
  if (0 <=? e)%Z then (q * 2 ^ e)%Z
  else ((2 * q + 2 ^ (- e)) / 2 ^ (- e + 1))%Z.

Definition fixed_layout (n : Z) (f : nat) : string :=
  let m := digits n in
  match f with
  | O => m
  | S _ =>
      let k := String.length m in
      let m' := if (k <=? f)%nat then zeros (f + 1 - k) +:+ m else m in
      let k' := String.length m' in
      take (k' - f) m' +:+ "." +:+ drop (k' - f) m'
  end.

Definition toFixed (x : float) (f : nat) : string :=
  if is_nan x || is_infinity x then Number_toString x
  else if (1e21 <=? abs x)%float then Number_toString x
  else
    match Prim2SF x with
    | S754_finite s m e =>
        (if s then "-" else "") +:+ fixed_layout (round_half_up_scaled m e f) f
    | _ => fixed_layout 0 f
    end.

(** *** parseInt (no radix argument)

    Leading white space is skipped, a sign is read, a [0x]/[0X] prefix
    selects radix 16, and the longest prefix of digits is converted; with no
    digit at all the result is NaN.  Strings are byte strings here, so only
    the ASCII white-space characters are recognised. *)

Definition is_white (c : ascii) : bool :=
  let n := nat_of_ascii c in
  ((9 <=? n)%nat && (n <=? 13)%nat) || (n =? 32)%nat.

Fixpoint trim_start (s : string) : string :=
  match s with
  | String c r => if is_white c then trim_start r else s
  | EmptyString => s
  end.

Definition digit_value (c : ascii) : option Z :=
  let n := Z.of_nat (nat_of_ascii c) in
  if (48 <=? n)%Z && (n <=? 57)%Z then Some (n - 48)%Z
  else if (97 <=? n)%Z && (n <=? 122)%Z then Some (n - 87)%Z
  else if (65 <=? n)%Z && (n <=? 90)%Z then Some (n - 55)%Z
  else None.

Fixpoint parse_digits (radix : Z) (s : string) (acc : option Z) : option Z :=
  match s with
  | String c r =>
      match digit_value c with
      | Some d =>
          if (d <? radix)%Z
          then parse_digits radix r (Some (default 0%Z acc * radix + d)%Z)
          else acc
      | None => acc
      end
  | EmptyString => acc
  end.

Definition strip_sign (s : string) : bool * string :=
  match s with
  | String "-" r => (true, r)
  | String "+" r => (false, r)
  | _ => (false, s)
  end.

Definition strip_radix (s : string) : Z * string :=
  match s with
  | String "0" (String "x" r) => (16%Z, r)
  | String "0" (String "X" r) => (16%Z, r)
  | _ => (10%Z, s)
  end.

Definition parseInt (s : string) : float :=
  let '(neg, s1) := strip_sign (trim_start s) in
  let '(radix, s2) := strip_radix s1 in
  match parse_digits radix s2 None with
  | None => nan
  | Some z =>
      if neg then (if (z =? 0)%Z then neg_zero else ofZ (- z)) else ofZ z
  end.

End JsNum.

(** ** The page: elements, persisted store, listeners and timers *)

Module Dom.

(** Element objects are identified by a reference.  [document.documentElement],
    [document.head] and [document.body] always exist while the script runs
    and have references of their own; every other element object lives in
    the heap [nodes], listed in document order (objects made by
    [createElement] are added at the end, which is where [body.appendChild]
    puts them). *)
Inductive NodeId :=
  | Html
  | Head
  | Body
  | Node (n : nat).

#[global] Instance NodeId_eq_dec : EqDecision NodeId.
Proof. solve_decision. Defined.

(** A nullable reference, as [querySelector] returns it. *)
Definition Ref := option NodeId.

Record Element := mkElement {
  tagName : string;
  classList : list string;
  attributes : gmap string string;
  style : gmap string string;
  textContent : string;
  parentNode : Ref
}.

Definition blank (tag : string) : Element :=
  mkElement tag [] ∅ ∅ "" None.

(** The closures the script registers, each with the variables it captures. *)
Inductive Handler :=
  | OpenMobileMenu (mobileMenuBtn mobileMenu : Ref)
  | CloseMobileMenu (mobileMenuBtn mobileMenu : Ref)
  | EscapeMobileMenu (mobileMenuBtn mobileMenu : Ref)
  | BackdropMobileMenu (mobileMenuBtn mobileMenu : Ref)
  | DropdownKeydown (trigger : Ref)
  | OpenSearch (searchOverlay searchInput : Ref)
  | CloseSearch (searchToggle searchOverlay : Ref)
  | EscapeSearch (searchToggle searchOverlay : Ref)
  | BackdropSearch (searchToggle searchOverlay : Ref)
  | TabClick (tabs : list NodeId) (tab : NodeId)
  | TabKeydown (tabs : list NodeId) (index : nat)
  | HeaderScroll (header : Ref)
  | DotClick (index : nat).

Inductive EventTarget :=
  | OnWindow
  | OnDocument
  | OnElement (n : NodeId).

#[global] Instance EventTarget_eq_dec : EqDecision EventTarget.
Proof. solve_decision. Defined.

Record Listener := mkListener {
  listenerTarget : EventTarget;
  listenerType : string;
  listenerHandler : Handler
}.

Inductive TimerTask :=
  | RemoveAnnouncement (announcement : NodeId)
  | CounterTick (element : NodeId) (target step current : float)
  | SliderAdvance.

Record Timer := mkTimer {
  timerId : nat;
  timerDelay : Z;
  timerRepeats : bool;
  timerTask : TimerTask
}.

Inductive Observation :=
  | ObserveCounter (n : NodeId)
  | ObserveFade (n : NodeId).

#[global] Instance Observation_eq_dec : EqDecision Observation.
Proof. solve_decision. Defined.

(** The variables of one [initSlider] activation that its closures share. *)
Record SliderEnv := mkSliderEnv {
  slides : list NodeId;
  dots : list NodeId;
  currentSlide : nat
}.

Record Page := mkPage {
  rootElement : Element;
  headElement : Element;
  bodyElement : Element;
  nodes : list Element;
  localStorage : gmap string string;
  activeElement : Ref;
  listeners : list Listener;
  timers : list Timer;
  nextTimer : nat;
  observed : list Observation;
  hasIntersectionObserver : bool;
  slider : option SliderEnv
}.

Definition set_rootElement (f : Element → Element) (p : Page) : Page :=
  mkPage (f (rootElement p)) (headElement p) (bodyElement p) (nodes p) (localStorage p) (activeElement p)
    (listeners p) (timers p) (nextTimer p) (observed p)
    (hasIntersectionObserver p) (slider p).
Definition set_headElement (f : Element → Element) (p : Page) : Page :=
  mkPage (rootElement p) (f (headElement p)) (bodyElement p) (nodes p) (localStorage p) (activeElement p)
    (listeners p) (timers p) (nextTimer p) (observed p)
    (hasIntersectionObserver p) (slider p).
Definition set_bodyElement (f : Element → Element) (p : Page) : Page :=
  mkPage (rootElement p) (headElement p) (f (bodyElement p)) (nodes p) (localStorage p) (activeElement p)
    (listeners p) (timers p) (nextTimer p) (observed p)
    (hasIntersectionObserver p) (slider p).
Definition set_nodes (f : list Element → list Element) (p : Page) : Page :=
  mkPage (rootElement p) (headElement p) (bodyElement p) (f (nodes p)) (localStorage p) (activeElement p)
    (listeners p) (timers p) (nextTimer p) (observed p)
    (hasIntersectionObserver p) (slider p).
Definition set_localStorage (f : gmap string string → gmap string string)
    (p : Page) : Page :=
  mkPage (rootElement p) (headElement p) (bodyElement p) (nodes p) (f (localStorage p)) (activeElement p)
    (listeners p) (timers p) (nextTimer p) (observed p)
    (hasIntersectionObserver p) (slider p).
Definition set_activeElement (r : Ref) (p : Page) : Page :=
  mkPage (rootElement p) (headElement p) (bodyElement p) (nodes p) (localStorage p) r
    (listeners p) (timers p) (nextTimer p) (observed p)
    (hasIntersectionObserver p) (slider p).
Definition set_listeners (f : list Listener → list Listener) (p : Page) : Page :=
  mkPage (rootElement p) (headElement p) (bodyElement p) (nodes p) (localStorage p) (activeElement p)
    (f (listeners p)) (timers p) (nextTimer p) (observed p)
    (hasIntersectionObserver p) (slider p).
Definition set_timers (f : list Timer → list Timer) (p : Page) : Page :=
  mkPage (rootElement p) (headElement p) (bodyElement p) (nodes p) (localStorage p) (activeElement p)
    (listeners p) (f (timers p)) (nextTimer p) (observed p)
    (hasIntersectionObserver p) (slider p).
Definition set_nextTimer (n : nat) (p : Page) : Page :=
  mkPage (rootElement p) (headElement p) (bodyElement p) (nodes p) (localStorage p) (activeElement p)
    (listeners p) (timers p) n (observed p)
    (hasIntersectionObserver p) (slider p).
Definition set_observed (f : list Observation → list Observation) (p : Page) : Page :=
  mkPage (rootElement p) (headElement p) (bodyElement p) (nodes p) (localStorage p) (activeElement p)
    (listeners p) (timers p) (nextTimer p) (f (observed p))
    (hasIntersectionObserver p) (slider p).
Definition set_slider (e : option SliderEnv) (p : Page) : Page :=
  mkPage (rootElement p) (headElement p) (bodyElement p) (nodes p) (localStorage p) (activeElement p)
    (listeners p) (timers p) (nextTimer p) (observed p)
    (hasIntersectionObserver p) e.

(** *** Reading and updating element objects *)

Definition element (n : NodeId) (p : Page) : option Element :=
  match n with
  | Html => Some (rootElement p)
  | Head => Some (headElement p)
  | Body => Some (bodyElement p)
  | Node i => nodes p !! i
  end.

Definition update (n : NodeId) (f : Element → Element) (p : Page) : Page :=
  match n with
  | Html => set_rootElement f p
  | Head => set_headElement f p
  | Body => set_bodyElement f p
  | Node i => set_nodes (alter f i) p
  end.

Definition classes (n : NodeId) (p : Page) : list string :=
  from_option classList [] (element n p).

Definition attribute (n : NodeId) (a : string) (p : Page) : option string :=
  e ← element n p; attributes e !! a.

Definition has_class (c : string) (n : NodeId) (p : Page) : bool :=
  bool_decide (c ∈ classes n p).

(** [DOMTokenList]: an ordered set of tokens. *)
Definition tokens_add (c : string) (l : list string) : list string :=
  if bool_decide (c ∈ l) then l else l ++ [c].
Definition tokens_remove (c : string) (l : list string) : list string :=
  List.filter (λ t, negb (bool_decide (t = c))) l.

Definition with_className (l : list string) (e : Element) : Element :=
  mkElement (tagName e) l (attributes e) (style e) (textContent e) (parentNode e).
Definition with_classList (f : list string → list string) (e : Element) : Element :=
  mkElement (tagName e) (f (classList e)) (attributes e) (style e)
    (textContent e) (parentNode e).
Definition with_attribute (a v : string) (e : Element) : Element :=
  mkElement (tagName e) (classList e) (<[a := v]> (attributes e)) (style e)
    (textContent e) (parentNode e).
Definition with_style (k v : string) (e : Element) : Element :=
  mkElement (tagName e) (classList e) (attributes e) (<[k := v]> (style e))
    (textContent e) (parentNode e).
Definition with_textContent (t : string) (e : Element) : Element :=
  mkElement (tagName e) (classList e) (attributes e) (style e) t (parentNode e).
Definition with_parentNode (r : Ref) (e : Element) : Element :=
  mkElement (tagName e) (classList e) (attributes e) (style e) (textContent e) r.

(** *** Script computations: state passing with exceptions *)

Inductive Completion (A : Type) :=
  | Normal (a : A)
  | Throw (error : string).
Arguments Normal {A} a.
Arguments Throw {A} error.

Definition JS (A : Type) : Type := Page → Completion A * Page.

#[global] Instance JS_ret : MRet JS := λ A a p, (Normal a, p).
#[global] Instance JS_bind : MBind JS := λ A B f m p,
  match m p with
  | (Normal a, p') => f a p'
  | (Throw e, p') => (Throw e, p')
  end.

Definition throw {A} (e : string) : JS A := λ p, (Throw e, p).
Definition read {A} (f : Page → A) : JS A := λ p, (Normal (f p), p).
Definition modify (f : Page → Page) : JS unit := λ p, (Normal tt, f p).

(** The page a computation leaves, and whether it completed normally. *)
Definition exec {A} (m : JS A) (p : Page) : Page := snd (m p).
Definition completes {A} (m : JS A) (p : Page) : bool :=
  match fst (m p) with
  | Normal _ => true
  | Throw _ => false
  end.

(** Member access on a nullable reference: a [TypeError] on [null]. *)
Definition deref (r : Ref) : JS NodeId :=
  match r with
  | Some n => mret n
  | None => throw "TypeError"
  end.

Definition truthy (r : Ref) : bool := bool_decide (is_Some r).

Fixpoint forEach {A} (l : list A) (f : A → JS unit) : JS unit :=
  match l with
  | [] => mret tt
  | x :: l' => f x ;; forEach l' f
  end.

(** [forEach((x, i) => ...)] *)
Fixpoint forEach_indexed {A} (i : nat) (l : list A) (f : A → nat → JS unit) : JS unit :=
  match l with
  | [] => mret tt
  | x :: l' => f x i ;; forEach_indexed (S i) l' f
  end.

Definition classList_add (r : Ref) (c : string) : JS unit :=
  n ← deref r; modify (update n (with_classList (tokens_add c))).
Definition classList_remove (r : Ref) (cs : list string) : JS unit :=
  n ← deref r;
  modify (update n (with_classList (λ l, foldl (λ acc c, tokens_remove c acc) l cs))).
Definition classList_contains (r : Ref) (c : string) : JS bool :=
  n ← deref r; read (has_class c n).
(** [toggle(c)] returns whether the token is present afterwards. *)
Definition classList_toggle (r : Ref) (c : string) : JS bool :=
  n ← deref r;
  present ← read (has_class c n);
  (if present : bool
   then modify (update n (with_classList (tokens_remove c)))
   else modify (update n (with_classList (tokens_add c))));;
  mret (negb present).
(** [toggle(c, force)] *)
Definition classList_toggle_force (r : Ref) (c : string) (force : bool) : JS unit :=
  n ← deref r;
  modify (update n (with_classList (if force then tokens_add c else tokens_remove c))).

(** [el.className = "..."], the string given as its list of tokens. *)
Definition set_className (r : Ref) (l : list string) : JS unit :=
  n ← deref r; modify (update n (with_className l)).

Definition setAttribute (r : Ref) (a v : string) : JS unit :=
  n ← deref r; modify (update n (with_attribute a v)).
Definition getAttribute (r : Ref) (a : string) : JS (option string) :=
  n ← deref r; read (attribute n a).
Definition set_style (r : Ref) (k v : string) : JS unit :=
  n ← deref r; modify (update n (with_style k v)).
Definition set_textContent (r : Ref) (t : string) : JS unit :=
  n ← deref r; modify (update n (with_textContent t)).
Definition get_textContent (r : Ref) : JS string :=
  n ← deref r; read (λ p, from_option textContent "" (element n p)).
Definition focus (r : Ref) : JS unit :=
  n ← deref r; modify (set_activeElement (Some n)).

Definition localStorage_getItem (k : string) : JS (option string) :=
  read (λ p, localStorage p !! k).
Definition localStorage_setItem (k v : string) : JS unit :=
  modify (set_localStorage (<[k := v]>)).

(** *** Selectors and queries *)

Inductive Simple :=
  | ByClass (c : string)
  | ByTag (t : string)
  | ByAttribute (a : string).

(** A selector list: an element matches when one of the alternatives does. *)
Definition Selector := list Simple.

Definition matches_simple (e : Element) (s : Simple) : bool :=
  match s with
  | ByClass c => bool_decide (c ∈ classList e)
  | ByTag t => bool_decide (tagName e = t)
  | ByAttribute a => bool_decide (is_Some (attributes e !! a))
  end.

Definition matches (sel : Selector) (e : Element) : bool :=
  existsb (matches_simple e) sel.

Definition all_nodes (p : Page) : list NodeId :=
  Html :: Head :: Body :: map Node (seq 0 (length (nodes p))).

Definition parent_of (n : NodeId) (p : Page) : Ref :=
  match n with
  | Html => None
  | Head => Some Html
  | Body => Some Html
  | Node _ => e ← element n p; parentNode e
  end.

(** [n] is a proper descendant of [root]. *)
Fixpoint descends (fuel : nat) (p : Page) (root n : NodeId) : bool :=
  match fuel with
  | O => false
  | S f =>
      match parent_of n p with
      | Some q => bool_decide (q = root) || descends f p root q
      | None => false
      end
  end.

Definition inside (p : Page) (root n : NodeId) : bool :=
  descends (3 + length (nodes p)) p root n.

Definition selects (sel : Selector) (n : NodeId) (p : Page) : bool :=
  from_option (matches sel) false (element n p).

Definition querySelectorAll_in (root : NodeId) (sel : Selector) (p : Page) : list NodeId :=
  List.filter (λ n, inside p root n && selects sel n p) (all_nodes p).

Definition document_querySelectorAll (sel : Selector) (p : Page) : list NodeId :=
  List.filter
    (λ n, (bool_decide (n = Html) || inside p Html n) && selects sel n p)
    (all_nodes p).

Definition document_querySelector (sel : Selector) : JS Ref :=
  read (λ p, head (document_querySelectorAll sel p)).
Definition querySelector (r : Ref) (sel : Selector) : JS Ref :=
  n ← deref r; read (λ p, head (querySelectorAll_in n sel p)).
Definition querySelectorAll (r : Ref) (sel : Selector) : JS (list NodeId) :=
  n ← deref r; read (querySelectorAll_in n sel).

(** *** Creating and removing elements, listeners, timers *)

Definition createElement (tag : string) : JS NodeId := λ p,
  (Normal (Node (length (nodes p))), set_nodes (λ l, l ++ [blank tag]) p).

Definition appendChild (parent : Ref) (child : NodeId) : JS unit :=
  q ← deref parent; modify (update child (with_parentNode (Some q))).

Definition remove (n : NodeId) : JS unit :=
  modify (update n (with_parentNode None)).

Definition addEventListener (target : Ref) (type : string) (h : Handler) : JS unit :=
  n ← deref target;
  modify (set_listeners (λ l, l ++ [mkListener (OnElement n) type h])).
Definition document_addEventListener (type : string) (h : Handler) : JS unit :=
  modify (set_listeners (λ l, l ++ [mkListener OnDocument type h])).
Definition window_addEventListener (type : string) (h : Handler) : JS unit :=
  modify (set_listeners (λ l, l ++ [mkListener OnWindow type h])).

Definition schedule (repeats : bool) (task : TimerTask) (delay : Z) : JS nat := λ p,
  let id := nextTimer p in
  (Normal id,
   set_nextTimer (S id) (set_timers (λ l, l ++ [mkTimer id delay repeats task]) p)).
Definition setTimeout := schedule false.
Definition setInterval := schedule true.

Definition clearInterval (id : nat) : JS unit :=
  modify (set_timers (List.filter (λ t, negb (timerId t =? id)%nat))).

End Dom.

Import JsNum Dom.

(** ** Values passed to the global entry points *)

Inductive JsValue :=
  | JUndefined
  | JNull
  | JBoolean (b : bool)
  | JNumber (x : float)
  | JString (s : string).

(** [===]: equal types and equal values; Numbers compare as IEEE values. *)
Definition strict_equals (a b : JsValue) : bool :=
  match a, b with
  | JUndefined, JUndefined => true
  | JNull, JNull => true
  | JBoolean x, JBoolean y => bool_decide (x = y)
  | JNumber x, JNumber y => (x =? y)%float
  | JString x, JString y => bool_decide (x = y)
  | _, _ => false
  end.

Definition Boolean_toString (b : bool) : string :=
  if b then "true" else "false".

(** A string is truthy unless it is empty; [null] is falsy. *)
Definition truthy_string (v : option string) : bool :=
  match v with
  | Some s => negb (bool_decide (s = ""))
  | None => false
  end.

(** ** Announcer *)

Definition announceToScreenReader (message : string) : JS unit :=
  announcement ← createElement "div";
  setAttribute (Some announcement) "role" "status";;
  setAttribute (Some announcement) "aria-live" "polite";;
  setAttribute (Some announcement) "aria-atomic" "true";;
  set_className (Some announcement) ["sr-only"];;
  set_textContent (Some announcement) message;;
  appendChild (Some Body) announcement;;
  _ ← setTimeout (RemoveAnnouncement announcement) 1000;
  mret tt.

(** ** Accessibility controller *)

Definition applyFontSize (level : float) : JS unit :=
  let html := Some Html in
  classList_remove html ["font-size-small"; "font-size-large"];;
  if (level =? 1)%float then classList_add html "font-size-large"
  else if (level =? -1)%float then classList_add html "font-size-small"
  else mret tt.

(** The computation returns the final value of the local [fontSizeLevel],
    so that the level the function loads can be spoken about. *)
Definition initAccessibility : JS float :=
  let fontSizeLevel := 0%float in
  savedFontSize ← localStorage_getItem "dpl-font-size";
  savedContrast ← localStorage_getItem "dpl-high-contrast";
  fontSizeLevel ←
    (if truthy_string savedFontSize then
       let fontSizeLevel := parseInt (default "" savedFontSize) in
       applyFontSize fontSizeLevel;;
       mret fontSizeLevel
     else mret fontSizeLevel);
  (if bool_decide (savedContrast = Some "true")
   then classList_add (Some Body) "high-contrast"
   else mret tt);;
  mret fontSizeLevel.

Definition changeFontSize (direction : JsValue) : JS unit :=
  let html := Some Html in
  classList_remove html ["font-size-small"; "font-size-large"];;
  (if strict_equals direction (JNumber 1) then
     classList_add html "font-size-large";;
     localStorage_setItem "dpl-font-size" "1"
   else if strict_equals direction (JNumber (-1)) then
     classList_add html "font-size-small";;
     localStorage_setItem "dpl-font-size" "-1"
   else
     localStorage_setItem "dpl-font-size" "0");;
  announceToScreenReader "Font size changed".

Definition toggleContrast : JS unit :=
  isHighContrast ← classList_toggle (Some Body) "high-contrast";
  localStorage_setItem "dpl-high-contrast" (Boolean_toString isHighContrast);;
  announceToScreenReader
    (if isHighContrast : bool
     then "High contrast mode enabled"
     else "High contrast mode disabled").

(** ** Navigation controller *)

Definition closeMobileMenu (mobileMenuBtn mobileMenu : Ref) : JS unit :=
  classList_remove mobileMenu ["active"];;
  setAttribute mobileMenu "aria-hidden" "true";;
  setAttribute mobileMenuBtn "aria-expanded" "false";;
  set_style (Some Body) "overflow" "";;
  focus mobileMenuBtn.

(** Click on the menu button. *)
Definition openMobileMenu (mobileMenuBtn mobileMenu : Ref) : JS unit :=
  classList_add mobileMenu "active";;
  setAttribute mobileMenu "aria-hidden" "false";;
  setAttribute mobileMenuBtn "aria-expanded" "true";;
  set_style (Some Body) "overflow" "hidden";;
  firstLink ← querySelector mobileMenu [ByTag "a"];
  if truthy firstLink then focus firstLink else mret tt.

(** [keydown] on the document. *)
Definition escapeMobileMenu (mobileMenuBtn mobileMenu : Ref) (key : string) : JS unit :=
  if bool_decide (key = "Escape") then
    active ← classList_contains mobileMenu "active";
    if active : bool then closeMobileMenu mobileMenuBtn mobileMenu else mret tt
  else mret tt.

(** Click that reaches the menu container, with the element first hit. *)
Definition backdropMobileMenu (mobileMenuBtn mobileMenu : Ref) (target : NodeId) : JS unit :=
  if bool_decide (Some target = mobileMenu)
  then closeMobileMenu mobileMenuBtn mobileMenu
  else mret tt.

Definition dropdownKeydown (trigger : Ref) (key : string) : JS unit :=
  if bool_decide (key = "Enter") || bool_decide (key = " ") then
    expanded ← getAttribute trigger "aria-expanded";
    let isExpanded := bool_decide (expanded = Some "true") in
    setAttribute trigger "aria-expanded" (Boolean_toString (negb isExpanded))
  else mret tt.

Definition initNavigation : JS unit :=
  mobileMenuBtn ← document_querySelector [ByClass "mobile-menu-btn"];
  mobileMenu ← document_querySelector [ByClass "mobile-menu"];
  mobileClose ← document_querySelector [ByClass "mobile-close"];
  (if truthy mobileMenuBtn && truthy mobileMenu then
     addEventListener mobileMenuBtn "click" (OpenMobileMenu mobileMenuBtn mobileMenu);;
     (if truthy mobileClose
      then addEventListener mobileClose "click" (CloseMobileMenu mobileMenuBtn mobileMenu)
      else mret tt);;
     document_addEventListener "keydown" (EscapeMobileMenu mobileMenuBtn mobileMenu);;
     addEventListener mobileMenu "click" (BackdropMobileMenu mobileMenuBtn mobileMenu)
   else mret tt);;
  dropdowns ← read (document_querySelectorAll [ByClass "has-dropdown"]);
  forEach dropdowns (λ dropdown,
    trigger ← querySelector (Some dropdown) [ByTag "a"];
    menu ← querySelector (Some dropdown) [ByClass "dropdown"];
    if truthy trigger && truthy menu
    then addEventListener trigger "keydown" (DropdownKeydown trigger)
    else mret tt).

(** ** Search overlay controller *)

Definition closeSearch (searchToggle searchOverlay : Ref) : JS unit :=
  classList_remove searchOverlay ["active"];;
  setAttribute searchOverlay "aria-hidden" "true";;
  set_style (Some Body) "overflow" "";;
  focus searchToggle.

(** Click on the search toggle. *)
Definition openSearch (searchOverlay searchInput : Ref) : JS unit :=
  classList_add searchOverlay "active";;
  setAttribute searchOverlay "aria-hidden" "false";;
  (if truthy searchInput then focus searchInput else mret tt);;
  set_style (Some Body) "overflow" "hidden".

Definition escapeSearch (searchToggle searchOverlay : Ref) (key : string) : JS unit :=
  if bool_decide (key = "Escape") then
    active ← classList_contains searchOverlay "active";
    if active : bool then closeSearch searchToggle searchOverlay else mret tt
  else mret tt.

Definition backdropSearch (searchToggle searchOverlay : Ref) (target : NodeId) : JS unit :=
  if bool_decide (Some target = searchOverlay)
  then closeSearch searchToggle searchOverlay
  else mret tt.

Definition initSearch : JS unit :=
  searchToggle ← document_querySelector [ByClass "search-toggle"];
  searchOverlay ← document_querySelector [ByClass "search-overlay"];
  searchClose ← document_querySelector [ByClass "search-close"];
  (* searchOverlay?.querySelector('input') *)
  searchInput ←
    (if truthy searchOverlay then querySelector searchOverlay [ByTag "input"]
     else mret None);
  if truthy searchToggle && truthy searchOverlay then
    addEventListener searchToggle "click" (OpenSearch searchOverlay searchInput);;
    (if truthy searchClose
     then addEventListener searchClose "click" (CloseSearch searchToggle searchOverlay)
     else mret tt);;
    document_addEventListener "keydown" (EscapeSearch searchToggle searchOverlay);;
    addEventListener searchOverlay "click" (BackdropSearch searchToggle searchOverlay)
  else mret tt.

(** ** Tabs controller *)

Definition tabClick (tabs : list NodeId) (tab : NodeId) : JS unit :=
  forEach tabs (λ t,
    classList_remove (Some t) ["active"];;
    setAttribute (Some t) "aria-selected" "false");;
  classList_add (Some tab) "active";;
  setAttribute (Some tab) "aria-selected" "true";;
  label ← get_textContent (Some tab);
  announceToScreenReader (label +:+ " tab selected").

Definition targetIndex (tabs : list NodeId) (index : nat) (key : string) : option nat :=
  if bool_decide (key = "ArrowRight") then
    Some (if (length tabs <=? index + 1)%nat then 0%nat else (index + 1)%nat)
  else if bool_decide (key = "ArrowLeft") then
    Some (if (index =? 0)%nat then (length tabs - 1)%nat else (index - 1)%nat)
  else None.

(** [tabs[targetIndex].click()] dispatches a click event on that tab;
    [click] is what [el.click()] does, given below with the events. *)
Definition tabKeydown (click : NodeId → JS unit)
    (tabs : list NodeId) (index : nat) (key : string) : JS unit :=
  match targetIndex tabs index key with
  | Some i =>
      focus (tabs !! i);;
      tab ← deref (tabs !! i);
      click tab
  | None => mret tt
  end.

Definition initTabs : JS unit :=
  tabContainers ← read (document_querySelectorAll [ByClass "tabs"]);
  forEach tabContainers (λ container,
    tabs ← querySelectorAll (Some container) [ByClass "tab"];
    forEach_indexed 0 tabs (λ tab index,
      addEventListener (Some tab) "click" (TabClick tabs tab);;
      addEventListener (Some tab) "keydown" (TabKeydown tabs index))).

(** ** Animation controller *)

Definition observe (o : Observation) : JS unit :=
  modify (set_observed (λ l, l ++ [o])).
Definition unobserve (o : Observation) : JS unit :=
  modify (set_observed (List.filter (λ o', negb (bool_decide (o' = o))))).

(** [String(null)] is ["null"]. *)
Definition attribute_toString (v : option string) : string := default "null" v.

Definition animateCounter (element : NodeId) : JS unit :=
  count ← getAttribute (Some element) "data-count";
  let target := parseInt (attribute_toString count) in
  let duration := 2000%float in
  let step := (target / (duration / 16))%float in
  let current := 0%float in
  _ ← setInterval (CounterTick element target step current) 16;
  mret tt.

Definition counterText (target current : float) : string :=
  if (1000000 <=? target)%float then toFixed (current / 1000000)%float 1 +:+ "M+"
  else if (1000 <=? target)%float then toFixed (current / 1000)%float 0 +:+ "K+"
  else Number_toString (Math_floor current).

(** The closure variable [current] of the interval callback [timer]. *)
Definition retarget (timer : nat) (current : float) (t : Timer) : Timer :=
  match timerTask t with
  | CounterTick element target step _ =>
      if (timerId t =? timer)%nat
      then mkTimer (timerId t) (timerDelay t) (timerRepeats t)
             (CounterTick element target step current)
      else t
  | _ => t
  end.

Definition set_current (timer : nat) (current : float) : JS unit :=
  modify (set_timers (map (retarget timer current))).

(** One run of the interval callback of [animateCounter]. *)
Definition counterTick (timer : nat) (element : NodeId) (target step current : float)
    : JS unit :=
  let current := (current + step)%float in
  set_current timer current;;
  current ←
    (if (target <=? current)%float then
       set_current timer target;;
       clearInterval timer;;
       mret target
     else mret current);
  set_textContent (Some element) (counterText target current).

Definition counterIntersect (element : NodeId) (isIntersecting : bool) : JS unit :=
  if isIntersecting then
    animateCounter element;;
    unobserve (ObserveCounter element)
  else mret tt.

Definition fadeIntersect (element : NodeId) (isIntersecting : bool) : JS unit :=
  if isIntersecting then
    set_style (Some element) "opacity" "1";;
    set_style (Some element) "transform" "translateY(0)";;
    unobserve (ObserveFade element)
  else mret tt.

Definition initAnimations : JS unit :=
  counters ← read (document_querySelectorAll [ByAttribute "data-count"]);
  supported ← read hasIntersectionObserver;
  (if negb (length counters =? 0)%nat && supported
   then forEach counters (λ counter, observe (ObserveCounter counter))
   else mret tt);;
  fadeElements ← read (document_querySelectorAll
    [ByClass "action-card"; ByClass "service-card";
     ByClass "news-featured"; ByClass "sidebar-card"]);
  if negb (length fadeElements =? 0)%nat && supported then
    forEach fadeElements (λ el,
      set_style (Some el) "opacity" "0";;
      set_style (Some el) "transform" "translateY(20px)";;
      set_style (Some el) "transition" "opacity 0.6s ease, transform 0.6s ease";;
      observe (ObserveFade el))
  else mret tt.

(** ** Header scroll controller *)

Definition headerScroll (header : Ref) (pageYOffset : float) : JS unit :=
  let currentScroll := pageYOffset in
  if (10 <? currentScroll)%float
  then classList_add header "scrolled"
  else classList_remove header ["scrolled"].

Definition initHeaderScroll : JS unit :=
  header ← document_querySelector [ByClass "main-header"];
  if truthy header
  then window_addEventListener "scroll" (HeaderScroll header)
  else mret tt.

(** ** Slider controller *)

Definition showSlide (slides dots : list NodeId) (index : nat) : JS unit :=
  forEach_indexed 0 slides (λ slide i,
    classList_toggle_force (Some slide) "active" (i =? index)%nat);;
  forEach_indexed 0 dots (λ dot i,
    classList_toggle_force (Some dot) "active" (i =? index)%nat).

Definition set_currentSlide (e : SliderEnv) (i : nat) : JS unit :=
  modify (set_slider (Some (mkSliderEnv (slides e) (dots e) i))).

(** The interval callback of [initSlider]. *)
Definition sliderAdvance : JS unit :=
  env ← read slider;
  match env with
  | Some e =>
      let currentSlide := ((currentSlide e + 1) `mod` length (slides e))%nat in
      set_currentSlide e currentSlide;;
      showSlide (slides e) (dots e) currentSlide
  | None => mret tt
  end.

Definition dotClick (index : nat) : JS unit :=
  env ← read slider;
  match env with
  | Some e =>
      let currentSlide := index in
      set_currentSlide e currentSlide;;
      showSlide (slides e) (dots e) currentSlide
  | None => mret tt
  end.

Definition initSlider : JS unit :=
  slides ← read (document_querySelectorAll [ByClass "slide"]);
  dots ← read (document_querySelectorAll [ByClass "dot"]);
  let currentSlide := 0%nat in
  if (length slides <=? 1)%nat then mret tt
  else
    modify (set_slider (Some (mkSliderEnv slides dots currentSlide)));;
    _ ← setInterval SliderAdvance 5000;
    forEach_indexed 0 dots (λ dot index,
      addEventListener (Some dot) "click" (DotClick index)).

(** ** Entry points *)

(** The [DOMContentLoaded] listener. *)
Definition domContentLoaded : JS unit :=
  _ ← initAccessibility;
  initNavigation;;
  initSearch;;
  initTabs;;
  initAnimations;;
  initHeaderScroll.

Definition srOnlyRule : string :=
  ".sr-only { position: absolute; width: 1px; height: 1px; padding: 0; margin: -1px; overflow: hidden; clip: rect(0, 0, 0, 0); white-space: nowrap; border: 0; }".

(** The statements the script runs when it is loaded. *)
Definition sliderBootstrap : JS unit :=
  heroSlider ← document_querySelector [ByClass "hero-slider"];
  if truthy heroSlider then initSlider else mret tt.

Definition injectStyle : JS unit :=
  style ← createElement "style";
  set_textContent (Some style) srOnlyRule;;
  appendChild (Some Head) style.

(** ** Timers firing *)

Definition runTask (timer : nat) (task : TimerTask) : JS unit :=
  match task with
  | RemoveAnnouncement announcement => remove announcement
  | CounterTick element target step current =>
      counterTick timer element target step current
  | SliderAdvance => sliderAdvance
  end.

(** The timer [id] fires: a timeout is spent, an interval stays. *)
Definition fireTimer (id : nat) : JS unit :=
  pending ← read timers;
  match List.find (λ t, (timerId t =? id)%nat) pending with
  | Some t =>
      (if timerRepeats t then mret tt else clearInterval id);;
      runTask id (timerTask t)
  | None => mret tt
  end.

(** [n] firings of the timer [id], one after the other. *)
Fixpoint fireTimes (n : nat) (id : nat) : JS unit :=
  match n with
  | O => mret tt
  | S k => fireTimer id ;; fireTimes k id
  end.

Definition timerPending (id : nat) (p : Page) : bool :=
  existsb (λ t, (timerId t =? id)%nat) (timers p).

(** ** Events

    An event travels from its target up to the window; at each stop the
    listeners registered there for the event's type run, in the order of
    their registration.  The path and the listeners are those of the page
    when the event is dispatched.  An exception thrown by a listener is
    reported, and the next listener runs. *)

Record Event := mkEvent {
  eventType : string;
  (** [e.target] *)
  eventTarget : EventTarget;
  (** [e.key], undefined unless the event is a keyboard event *)
  eventKey : option string;
  (** [window.pageYOffset] when the event is dispatched *)
  pageYOffset : float
}.

Definition clickOn (n : NodeId) : Event :=
  mkEvent "click" (OnElement n) None 0.
Definition keydownOn (n : NodeId) (key : string) : Event :=
  mkEvent "keydown" (OnElement n) (Some key) 0.

(** The proper ancestors of an element, the parent first. *)
Fixpoint ancestors (fuel : nat) (p : Page) (n : NodeId) : list NodeId :=
  match fuel with
  | O => []
  | S f =>
      match parent_of n p with
      | Some q => q :: ancestors f p q
      | None => []
      end
  end.

Definition eventPath (t : EventTarget) (p : Page) : list EventTarget :=
  match t with
  | OnWindow => [OnWindow]
  | OnDocument => [OnDocument; OnWindow]
  | OnElement n =>
      let chain := n :: ancestors (3 + length (nodes p)) p n in
      (OnElement <$> chain)
      ++ (if bool_decide (Html ∈ chain) then [OnDocument; OnWindow] else [])
  end.

Definition listensTo (t : EventTarget) (type : string) (l : Listener) : bool :=
  bool_decide (listenerTarget l = t) && bool_decide (listenerType l = type).

Definition listenersOn (t : EventTarget) (type : string) (p : Page) : list Handler :=
  listenerHandler <$> List.filter (listensTo t type) (listeners p).

Definition listenersFor (e : Event) (p : Page) : list Handler :=
  concat ((λ t, listenersOn t (eventType e) p) <$> eventPath (eventTarget e) p).

(** [e.key === '...'] holds for no key name when [e.key] is undefined. *)
Definition withKey (e : Event) (f : string → JS unit) : JS unit :=
  match eventKey e with
  | Some key => f key
  | None => mret tt
  end.

(** [e.target === el] holds for no element when the target is the document
    or the window. *)
Definition withTarget (e : Event) (f : NodeId → JS unit) : JS unit :=
  match eventTarget e with
  | OnElement n => f n
  | _ => mret tt
  end.

(** The body of each closure, run for the event [e]. *)
Definition runHandler (click : NodeId → JS unit) (h : Handler) (e : Event) : JS unit :=
  match h with
  | OpenMobileMenu mobileMenuBtn mobileMenu => openMobileMenu mobileMenuBtn mobileMenu
  | CloseMobileMenu mobileMenuBtn mobileMenu => closeMobileMenu mobileMenuBtn mobileMenu
  | EscapeMobileMenu mobileMenuBtn mobileMenu =>
      withKey e (escapeMobileMenu mobileMenuBtn mobileMenu)
  | BackdropMobileMenu mobileMenuBtn mobileMenu =>
      withTarget e (backdropMobileMenu mobileMenuBtn mobileMenu)
  | DropdownKeydown trigger => withKey e (dropdownKeydown trigger)
  | OpenSearch searchOverlay searchInput => openSearch searchOverlay searchInput
  | CloseSearch searchToggle searchOverlay => closeSearch searchToggle searchOverlay
  | EscapeSearch searchToggle searchOverlay =>
      withKey e (escapeSearch searchToggle searchOverlay)
  | BackdropSearch searchToggle searchOverlay =>
      withTarget e (backdropSearch searchToggle searchOverlay)
  | TabClick tabs tab => tabClick tabs tab
  | TabKeydown tabs index => withKey e (tabKeydown click tabs index)
  | HeaderScroll header => headerScroll header (pageYOffset e)
  | DotClick index => dotClick index
  end.

(** An uncaught exception ends the listener that threw it and no more. *)
Definition reported (m : JS unit) : JS unit := λ p,
  match m p with
  | (Throw _, p') => (Normal tt, p')
  | done => done
  end.

Definition dispatchWith (click : NodeId → JS unit) (e : Event) : JS unit :=
  handlers ← read (listenersFor e);
  forEach handlers (λ h, reported (runHandler click h e)).

(** [el.click()]: a click event dispatched on [el], its listeners run before
    the call returns.  A click event has no key, so no listener of the script
    comes to call [click()] while it runs (see [keyless_never_clicks]). *)
Definition click (n : NodeId) : JS unit :=
  dispatchWith (λ _, mret tt) (clickOn n).

Definition dispatch : Event → JS unit := dispatchWith click.

(** ** Event sequences

    The browser runs one listener or timer callback at a time, each to
    completion; what can be observed is the page between two of them. *)


Definition runAll (ms : list (JS unit)) : JS unit := forEach ms id.

(** *** Tabs: clicks and key presses on tabs *)

Inductive TabEvent :=
  | TabClicked (tab : NodeId)
  | TabKeyPressed (tab : NodeId) (key : string).

Definition tabEvent (e : TabEvent) : JS unit :=
  match e with
  | TabClicked tab => dispatch (clickOn tab)
  | TabKeyPressed tab key => dispatch (keydownOn tab key)
  end.



Definition ariaSelected (p : Page) (n : NodeId) : bool :=
  bool_decide (attribute n "aria-selected" p = Some "true").
Definition markedActive (p : Page) (n : NodeId) : bool :=
  has_class "active" n p.

Definition selectedTabs (tabs : list NodeId) (p : Page) : list NodeId :=
  List.filter (ariaSelected p) tabs.
Definition activeTabs (tabs : list NodeId) (p : Page) : list NodeId :=
  List.filter (markedActive p) tabs.

(** Of the tabs of the group, [tab] and no other is selected and active. *)
Definition selectedIs (tabs : list NodeId) (tab : NodeId) (p : Page) : Prop :=
  ∀ n, n ∈ tabs →
    ariaSelected p n = bool_decide (n = tab)
    ∧ markedActive p n = bool_decide (n = tab).

Definition exactlyOneOf (tabs : list NodeId) (p : Page) : Prop :=
  ∃ tab, tab ∈ tabs ∧ selectedIs tabs tab p.

(** *** Overlays: the mobile menu and the search overlay *)

Record Overlays := mkOverlays {
  mobileMenuBtn : Ref;
  mobileMenu : Ref;
  searchToggle : Ref;
  searchOverlay : Ref;
  searchInput : Ref
}.

(** The references [initNavigation] and [initSearch] capture. *)
Definition overlaysOf (p : Page) : Overlays :=
  let overlay := head (document_querySelectorAll [ByClass "search-overlay"] p) in
  mkOverlays
    (head (document_querySelectorAll [ByClass "mobile-menu-btn"] p))
    (head (document_querySelectorAll [ByClass "mobile-menu"] p))
    (head (document_querySelectorAll [ByClass "search-toggle"] p))
    overlay
    (n ← overlay; head (querySelectorAll_in n [ByTag "input"] p)).

Inductive OverlayEvent :=
  | MenuButtonClick
  | MobileCloseClick
  | MenuClick (target : NodeId)
  | SearchToggleClick
  | SearchCloseClick
  | OverlayClick (target : NodeId)
  | Keydown (key : string).

(** The guards under which [initNavigation] and [initSearch] register
    their listeners. *)
Definition menuListens (o : Overlays) : bool :=
  truthy (mobileMenuBtn o) && truthy (mobileMenu o).
Definition searchListens (o : Overlays) : bool :=
  truthy (searchToggle o) && truthy (searchOverlay o).

(** Without a listener an event runs nothing. *)
Definition whenListening (listens : bool) (m : JS unit) : JS unit :=
  if listens then m else mret tt.

Definition menuKeydown (o : Overlays) (key : string) : JS unit :=
  whenListening (menuListens o)
    (escapeMobileMenu (mobileMenuBtn o) (mobileMenu o) key).
Definition searchKeydown (o : Overlays) (key : string) : JS unit :=
  whenListening (searchListens o)
    (escapeSearch (searchToggle o) (searchOverlay o) key).

(** A [keydown] reaches both document listeners, in registration order. *)
Definition overlayEvent (o : Overlays) (e : OverlayEvent) : JS unit :=
  match e with
  | MenuButtonClick =>
      whenListening (menuListens o)
        (openMobileMenu (mobileMenuBtn o) (mobileMenu o))
  | MobileCloseClick =>
      whenListening (menuListens o)
        (closeMobileMenu (mobileMenuBtn o) (mobileMenu o))
  | MenuClick target =>
      whenListening (menuListens o)
        (backdropMobileMenu (mobileMenuBtn o) (mobileMenu o) target)
  | SearchToggleClick =>
      whenListening (searchListens o)
        (openSearch (searchOverlay o) (searchInput o))
  | SearchCloseClick =>
      whenListening (searchListens o)
        (closeSearch (searchToggle o) (searchOverlay o))
  | OverlayClick target =>
      whenListening (searchListens o)
        (backdropSearch (searchToggle o) (searchOverlay o) target)
  | Keydown key => menuKeydown o key;; searchKeydown o key
  end.

Definition isActive (r : Ref) (p : Page) : bool :=
  match r with
  | Some n => has_class "active" n p
  | None => false
  end.

(** The event opens or closes the mobile menu when it happens at [p]. *)
Definition menuTransition (o : Overlays) (e : OverlayEvent) (p : Page) : bool :=
  menuListens o &&
  match e with
  | MenuButtonClick | MobileCloseClick => true
  | MenuClick target => bool_decide (Some target = mobileMenu o)
  | Keydown key => bool_decide (key = "Escape") && isActive (mobileMenu o) p
  | _ => false
  end.

(** The event opens or closes the search overlay when it happens at [p]. *)
Definition searchTransition (o : Overlays) (e : OverlayEvent) (p : Page) : bool :=
  searchListens o &&
  match e with
  | SearchToggleClick | SearchCloseClick => true
  | OverlayClick target => bool_decide (Some target = searchOverlay o)
  | Keydown key =>
      bool_decide (key = "Escape")
      && isActive (searchOverlay o) (exec (menuKeydown o key) p)
  | _ => false
  end.


(** What a page says about the overlay [n]: the marker and the attribute. *)
Definition overlayView (n : NodeId) (p : Page) : bool * option string :=
  (has_class "active" n p, attribute n "aria-hidden" p).

Definition consistent (v : bool * option string) : Prop :=
  v = (true, Some "false") ∨ v = (false, Some "true").

(** Element objects are never destroyed. *)
Definition keepsElements (p p' : Page) : Prop :=
  ∀ n, is_Some (element n p) → is_Some (element n p').

(** What a handler does to the overlays: it completes, destroys nothing,
    keeps every consistent overlay consistent, and makes [target]
    consistent when [fires] holds. *)
Definition switches (m : JS unit) (target : NodeId) (fires : bool) (p : Page) : Prop :=
  ∃ p', m p = (Normal tt, p')
    ∧ keepsElements p p'
    ∧ (∀ n, consistent (overlayView n p) → consistent (overlayView n p'))
    ∧ (fires = true → consistent (overlayView target p')).


(** *** Slider: timer ticks and clicks *)

Inductive SliderEvent :=
  | TimerTick
  | Clicked (target : NodeId).

(** [timer] is the interval [initSlider] started. *)
Definition sliderEvent (timer : nat) (e : SliderEvent) : JS unit :=
  match e with
  | TimerTick => fireTimer timer
  | Clicked target => dispatch (clickOn target)
  end.

Definition activeIndex (p : Page) : option nat := currentSlide <$> slider p.

(** Exactly the [index]-th element of [l] carries the active marker. *)
Definition activeOnlyAt (l : list NodeId) (index : nat) (p : Page) : Prop :=
  ∀ i n, l !! i = Some n → has_class "active" n p = bool_decide (i = index).

(** No element of [l1] is in [l2]. *)
Definition apartFrom (l1 l2 : list NodeId) : bool :=
  forallb (λ n, negb (bool_decide (n ∈ l2))) l1.

(** The interval of the slider. *)
Definition sliderTimer (id : nat) : Timer := mkTimer id 5000 true SliderAdvance.

(** The slider runs over [slides] and [dots] with [current] as its index,
    among the timers [pending]; its elements exist. *)
Definition sliding (slides dots : list NodeId) (pending : list Timer)
    (current : nat) (q : Page) : Prop :=
  slider q = Some (mkSliderEnv slides dots current)
  ∧ timers q = pending
  ∧ ∀ n, n ∈ slides ++ dots → is_Some (element n q).

(** The dot at [index] and no other carries the marker, and so does the
    slide at [index] unless some element is a slide and a dot at once. *)
Definition shown (slides dots : list NodeId) (index : nat) (q : Page) : Prop :=
  activeOnlyAt dots index q
  ∧ (apartFrom slides dots = true → activeOnlyAt slides index q).

(** *** Counter animation: the ramp as a function of the Numbers alone *)

(** The tick, counted from the current one, at which the ramp reaches the
    target and the interval is cleared; [None] when [fuel] ticks do not
    suffice. *)
Fixpoint ticksToSettle (fuel : nat) (target step current : float) : option nat :=
  match fuel with
  | O => None
  | S f =>
      let current := (current + step)%float in
      if (target <=? current)%float then Some 1%nat
      else S <$> ticksToSettle f target step current
  end.


Definition stepOf (target : float) : float := (target / (2000 / 16))%float.

(** Timer identifiers handed out so far are below [nextTimer]. *)
Definition timersFresh (p : Page) : bool :=
  forallb (λ t, (timerId t <? nextTimer p)%nat) (timers p).

(** The text an element shows. *)
Definition textOf (n : NodeId) (p : Page) : string :=
  from_option textContent "" (element n p).

(** The interval of one counter animation, with its closure variable. *)
Definition counterTimer (id : nat) (element : NodeId) (target step current : float)
    : Timer :=
  mkTimer id 16 true (CounterTick element target step current).

(** The animation [id] is under way among the other timers [pre] and
    [post], with [current] as its progress value. *)
Definition animatingAmong (pre post : list Timer) (id : nat) (element : NodeId)
    (target step current : float) (q : Page) : Prop :=
  timers q = pre ++ counterTimer id element target step current :: post
  ∧ is_Some (Dom.element element q).

(** The animation has settled: its interval is gone and the final text is
    rendered. *)
Definition settledAmong (pre post : list Timer) (element : NodeId)
    (target : float) (q : Page) : Prop :=
  timers q = pre ++ post
  ∧ textOf element q = counterText target target.

(** The page after [animateCounter(element)] and [n] ticks of its interval. *)
Definition animation (element : NodeId) (n : nat) (p : Page) : Page :=
  exec (animateCounter element ;; fireTimes n (nextTimer p)) p.

(** ** What each controller needs on the page *)

Definition menuPresent (p : Page) : bool :=
  truthy (head (document_querySelectorAll [ByClass "mobile-menu-btn"] p))
  && truthy (head (document_querySelectorAll [ByClass "mobile-menu"] p)).

Definition dropdownComplete (p : Page) (dropdown : NodeId) : bool :=
  truthy (head (querySelectorAll_in dropdown [ByTag "a"] p))
  && truthy (head (querySelectorAll_in dropdown [ByClass "dropdown"] p)).

Definition dropdownPresent (p : Page) : bool :=
  existsb (dropdownComplete p) (document_querySelectorAll [ByClass "has-dropdown"] p).

Definition searchPresent (p : Page) : bool :=
  truthy (head (document_querySelectorAll [ByClass "search-toggle"] p))
  && truthy (head (document_querySelectorAll [ByClass "search-overlay"] p)).

Definition tabsPresent (p : Page) : bool :=
  existsb (λ container,
             negb (length (querySelectorAll_in container [ByClass "tab"] p) =? 0)%nat)
    (document_querySelectorAll [ByClass "tabs"] p).

Definition fadeSelector : Selector :=
  [ByClass "action-card"; ByClass "service-card";
   ByClass "news-featured"; ByClass "sidebar-card"].

Definition countersPresent (p : Page) : bool :=
  negb (length (document_querySelectorAll [ByAttribute "data-count"] p) =? 0)%nat
  && hasIntersectionObserver p.

Definition fadePresent (p : Page) : bool :=
  negb (length (document_querySelectorAll fadeSelector p) =? 0)%nat
  && hasIntersectionObserver p.

Definition headerPresent (p : Page) : bool :=
  truthy (head (document_querySelectorAll [ByClass "main-header"] p)).

Definition sliderPresent (p : Page) : bool :=
  truthy (head (document_querySelectorAll [ByClass "hero-slider"] p))
  && negb (length (document_querySelectorAll [ByClass "slide"] p) <=? 1)%nat.

(** ** Outcomes *)

(** A computation that completes normally, with its value and final page. *)
Definition returns {A} (m : JS A) (p : Page) (a : A) (p' : Page) : Prop :=
  m p = (Normal a, p').

(** The status node the announcer appends to the body. *)
Definition announcement (msg : string) : Element :=
  mkElement "div" ["sr-only"]
    (<["aria-atomic" := "true"]> (<["aria-live" := "polite"]> (<["role" := "status"]> ∅)))
    ∅ msg (Some Body).

(** ** Sample pages *)

Definition emptyPage : Page :=
  mkPage (blank "html") (blank "head") (blank "body") [] ∅ None [] [] 0 [] true None.

Definition withNodes (l : list Element) : Page :=
  set_nodes (λ _, l) emptyPage.

Definition child (tag : string) (cls : list string) (parent : NodeId) : Element :=
  mkElement tag cls ∅ ∅ "" (Some parent).

(** [<div class="tabs"><button class="tab">A</button><button class="tab">B</button></div>] *)
Definition tabsPage : Page :=
  withNodes [child "div" ["tabs"] Body;
             with_textContent "A" (child "button" ["tab"] (Node 0));
             with_textContent "B" (child "button" ["tab"] (Node 0))].

(** [<span data-count="..."></span>] *)
Definition counterPage (count : string) : Page :=
  withNodes [with_attribute "data-count" count (child "span" [] Body)].

(** A menu button, a menu with a close button and a link, a search toggle
    and a search overlay with a close button and an input. *)
Definition overlayPage : Page :=
  withNodes [child "button" ["mobile-menu-btn"] Body;
             child "div" ["mobile-menu"] Body;
             child "button" ["mobile-close"] (Node 1);
             child "a" [] (Node 1);
             child "button" ["search-toggle"] Body;
             child "div" ["search-overlay"] Body;
             child "button" ["search-close"] (Node 5);
             child "input" [] (Node 5)].

(** A page whose store holds [value] under ['dpl-font-size']. *)
Definition storedFontSize (value : string) : Page :=
  set_localStorage (<["dpl-font-size" := value]>) emptyPage.

(** A tab group inside a tab of another tab group:
    [<div class="tabs"><button class="tab"></button>
       <div class="tabs"><button class="tab"></button><button class="tab"></button></div>
     </div>] *)
Definition nestedTabsPage : Page :=
  withNodes [child "div" ["tabs"] Body;
             child "button" ["tab"] (Node 0);
             child "div" ["tabs"] (Node 0);
             child "button" ["tab"] (Node 2);
             child "button" ["tab"] (Node 2)].

(** A hero slider with three slides and three dots. *)
Definition sliderPage : Page :=
  withNodes [child "div" ["hero-slider"] Body;
             child "div" ["slide"; "active"] (Node 0);
             child "div" ["slide"] (Node 0);
             child "div" ["slide"] (Node 0);
             child "span" ["dot"; "active"] (Node 0);
             child "span" ["dot"] (Node 0);
             child "span" ["dot"] (Node 0)].

(** ** Further events *)


(** The callback of the observer that watches [o]. *)
Definition intersectionCallback (o : Observation) (isIntersecting : bool) : JS unit :=
  match o with
  | ObserveCounter element => counterIntersect element isIntersecting
  | ObserveFade element => fadeIntersect element isIntersecting
  end.

(** An observer reports on the targets it still observes, and on no other. *)
Definition deliver (o : Observation) (isIntersecting : bool) : JS unit :=
  watched ← read observed;
  if bool_decide (o ∈ watched) then intersectionCallback o isIntersecting
  else mret tt.

Definition isObserved (o : Observation) (p : Page) : bool :=
  bool_decide (o ∈ observed p).

(** An inline style property of an element. *)
Definition styleOf (n : NodeId) (k : string) (p : Page) : option string :=
  e ← element n p; style e !! k.


(** A computation leaves the view [f] of the page as it is. *)
Definition keeps {X A} (f : Page → X) (m : JS A) : Prop :=
  ∀ p, f (snd (m p)) = f p.

(** An update of element objects that leaves tag and parent alone. *)
Definition keepsShape (g : Element → Element) : Prop :=
  ∀ e, tagName (g e) = tagName e ∧ parentNode (g e) = parentNode e.



(** A counter and a card that fades in. *)
Definition animatedPage : Page :=
  withNodes [with_attribute "data-count" "42" (child "span" [] Body);
             child "div" ["service-card"] Body].

(** Two slides and a dot for each, and a third dot without a slide. *)
Definition extraDotPage : Page :=
  withNodes [child "div" ["hero-slider"] Body;
             child "div" ["slide"; "active"] (Node 0);
             child "div" ["slide"] (Node 0);
             child "span" ["dot"; "active"] (Node 0);
             child "span" ["dot"] (Node 0);
             child "span" ["dot"] (Node 0)].

(** ** Values of Numbers *)


(** ** The document tree *)

(** The place of an element in document order. *)
Definition rank (n : NodeId) : nat :=
  match n with
  | Html => 0
  | Head => 1
  | Body => 2
  | Node i => 3 + i
  end.

(** The heap lists the elements in document order: each after its parent. *)
Definition ordered (p : Page) : bool :=
  forallb (λ n, match parent_of n p with
                | Some q => (rank q <? rank n)%nat
                | None => true
                end) (all_nodes p).

(** No element of [l] lies inside another element of [l]. *)
Definition flat (l : list NodeId) (p : Page) : bool :=
  forallb (λ n, forallb (λ a, negb (bool_decide (a ∈ l)))
                  (ancestors (3 + length (nodes p)) p n)) l.

(** [q] has the tree of [p], and maybe more elements. *)
Definition sameTree (p q : Page) : Prop :=
  (length (nodes p) <= length (nodes q))%nat
  ∧ ∀ n, is_Some (element n p) → parent_of n q = parent_of n p.

(** *** Tab groups *)

(** The tab groups of the page, one for each [.tabs] container. *)
Definition tabGroups (p : Page) : list (list NodeId) :=
  (λ container, querySelectorAll_in container [ByClass "tab"] p)
    <$> document_querySelectorAll [ByClass "tabs"] p.


(** The listeners [initTabs] registers for the tabs [l] of the group
    [tabs], the first of them at position [index]. *)
Fixpoint tabListeners (tabs : list NodeId) (index : nat) (l : list NodeId)
    : list Listener :=
  match l with
  | [] => []
  | tab :: l' =>
      mkListener (OnElement tab) "click" (TabClick tabs tab)
      :: mkListener (OnElement tab) "keydown" (TabKeydown tabs index)
      :: tabListeners tabs (S index) l'
  end.

Definition groupListeners (groups : list (list NodeId)) : list Listener :=
  concat ((λ tabs, tabListeners tabs 0 tabs) <$> groups).

(** The listeners of the page are those [initTabs] registered on [p], whose
    tree the page still has. *)
Definition listening (p q : Page) : Prop :=
  listeners q = groupListeners (tabGroups p) ∧ sameTree p q.

(** The handlers of the listeners a group has on [t] for events of [type]. *)
Definition groupHandlers (t : NodeId) (type : string) (tabs : list NodeId)
    : list Handler :=
  listenerHandler
    <$> List.filter (listensTo (OnElement t) type) (tabListeners tabs 0 tabs).


(** The timeouts of [k] announcements made one after the other, the first
    with the timer [id] for the status node at [node]. *)
Definition announcementTimers (id node k : nat) : list Timer :=
  (λ i, mkTimer (id + i) 1000 false (RemoveAnnouncement (Node (node + i))))
    <$> seq 0 k.

(** *** The slider's listeners *)

(** The listeners [initSlider] registers for the dots [l], the first of
    them at position [index]. *)
Fixpoint dotListeners (index : nat) (l : list NodeId) : list Listener :=
  match l with
  | [] => []
  | dot :: l' =>
      mkListener (OnElement dot) "click" (DotClick index)
      :: dotListeners (S index) l'
  end.

(** The listeners of the page are those [initSlider] registered for [dots],
    and the page still has the tree of [p]. *)
Definition sliderListening (dots : list NodeId) (p q : Page) : Prop :=
  listeners q = dotListeners 0 dots
  ∧ length (nodes q) = length (nodes p)
  ∧ ∀ n, parent_of n q = parent_of n p.

(** *** The listeners of the page *)

(** The listeners the [DOMContentLoaded] listener registers come in these
    shapes. *)
Definition scriptListener (l : Listener) : bool :=
  match listenerTarget l, listenerHandler l with
  | OnElement _, (OpenMobileMenu _ _ | CloseMobileMenu _ _ | BackdropMobileMenu _ _
                 | OpenSearch _ _ | CloseSearch _ _ | BackdropSearch _ _
                 | TabClick _ _) =>
      bool_decide (listenerType l = "click")
  | OnElement _, (DropdownKeydown _ | TabKeydown _ _) =>
      bool_decide (listenerType l = "keydown")
  | OnDocument, (EscapeMobileMenu _ _ | EscapeSearch _ _) =>
      bool_decide (listenerType l = "keydown")
  | OnWindow, HeaderScroll _ => bool_decide (listenerType l = "scroll")
  | _, _ => false
  end.

(** The class names the accessibility controller puts on the root and on
    the body, and the changes of a class list that touch no other name. *)
Definition preferenceClasses : list string :=
  ["font-size-small"; "font-size-large"; "high-contrast"].

Definition keepsOtherClasses (g : list string → list string) : Prop :=
  ∀ c l, c ∉ preferenceClasses → c ∈ g l ↔ c ∈ l.

(** The element is in the document. *)
Definition attached (n : NodeId) (p : Page) : bool :=
  bool_decide (Html ∈ n :: ancestors (3 + length (nodes p)) p n).

(** Both overlays open: the overlay page after a click on the menu button
    and one on the search toggle. *)
Definition bothOpenPage : Page :=
  exec (openMobileMenu (Some (Node 0)) (Some (Node 1));;
        openSearch (Some (Node 5)) (Some (Node 7))) overlayPage.

(** * Properties *)

(** ** Class lists *)

Lemma elem_of_tokens_add (c c' : string) (l : list string) :
  c' ∈ tokens_add c l ↔ c' = c ∨ c' ∈ l.
Proof.
  unfold tokens_add. case_bool_decide as Hc.
  - split; [auto | intros [-> | ?]; auto].
  - rewrite elem_of_app, list_elem_of_singleton. tauto.
Qed.

Lemma elem_of_tokens_remove (c c' : string) (l : list string) :
  c' ∈ tokens_remove c l ↔ c' ≠ c ∧ c' ∈ l.
Proof.
  unfold tokens_remove. rewrite !list_elem_of_In, List.filter_In.
  rewrite negb_true_iff, bool_decide_eq_false. tauto.
Qed.

Lemma tokens_add_in (c : string) (l : list string) :
  bool_decide (c ∈ tokens_add c l) = true.
Proof. apply bool_decide_eq_true, elem_of_tokens_add. auto. Qed.

Lemma tokens_remove_out (c : string) (l : list string) :
  bool_decide (c ∈ tokens_remove c l) = false.
Proof. apply bool_decide_eq_false. rewrite elem_of_tokens_remove. tauto. Qed.

Lemma tokens_add_other (c c' : string) (l : list string) :
  c' ≠ c → bool_decide (c' ∈ tokens_add c l) = bool_decide (c' ∈ l).
Proof.
  intros Hne. apply bool_decide_ext. rewrite elem_of_tokens_add. tauto.
Qed.


(** ** Running script computations *)

(** Unfolds the monad and the DOM primitives, leaving pages built from the
    setters. *)
Ltac js_run :=
  cbv beta iota zeta delta
    [exec completes mbind mret JS_bind JS_ret modify read throw deref
     classList_add classList_remove classList_contains classList_toggle
     classList_toggle_force set_className setAttribute getAttribute set_style
     set_textContent get_textContent focus localStorage_getItem
     localStorage_setItem createElement appendChild remove addEventListener
     document_addEventListener window_addEventListener schedule setTimeout
     setInterval clearInterval document_querySelector querySelector
     querySelectorAll fst snd].

Lemma run_bind {A B} (m : JS A) (f : A → JS B) (p p' : Page) (a : A) :
  m p = (Normal a, p') → (m ≫= f) p = f a p'.
Proof. intros H. unfold mbind, JS_bind. by rewrite H. Qed.

Lemma runAll_cons (m : JS unit) (ms : list (JS unit)) (p p' : Page) :
  m p = (Normal tt, p') → runAll (m :: ms) p = runAll ms p'.
Proof.
  intros H. unfold runAll. cbn [forEach]. unfold id at 1.
  by rewrite (run_bind _ _ _ _ _ H).
Qed.

Lemma exec_bind {A B} (m : JS A) (f : A → JS B) (p p' : Page) (a : A) :
  m p = (Normal a, p') → exec (m ≫= f) p = exec (f a) p'.
Proof. intros H. unfold exec. by rewrite (run_bind _ _ _ _ _ H). Qed.

Lemma returns_exec {A} (m : JS A) (p p' : Page) (a : A) :
  returns m p a p' → exec m p = p' ∧ completes m p = true.
Proof. unfold returns, exec, completes. by intros ->. Qed.

(** ** The announcer only adds: one element object and one timeout *)

Lemma announce_returns (msg : string) (p : Page) :
  announceToScreenReader msg p = (Normal tt, exec (announceToScreenReader msg) p).
Proof. reflexivity. Qed.

Lemma announce_rootElement msg p :
  rootElement (exec (announceToScreenReader msg) p) = rootElement p.
Proof. reflexivity. Qed.

Lemma announce_bodyElement msg p :
  bodyElement (exec (announceToScreenReader msg) p) = bodyElement p.
Proof. reflexivity. Qed.

Lemma announce_localStorage msg p :
  localStorage (exec (announceToScreenReader msg) p) = localStorage p.
Proof. reflexivity. Qed.

Lemma announce_activeElement msg p :
  activeElement (exec (announceToScreenReader msg) p) = activeElement p.
Proof. reflexivity. Qed.

Lemma announce_slider msg p :
  slider (exec (announceToScreenReader msg) p) = slider p.
Proof. reflexivity. Qed.

Lemma announce_timers msg p :
  timers (exec (announceToScreenReader msg) p)
  = timers p ++ [mkTimer (nextTimer p) 1000 false
                   (RemoveAnnouncement (Node (length (nodes p))))].
Proof. reflexivity. Qed.

Lemma announce_length msg p :
  length (nodes (exec (announceToScreenReader msg) p)) = S (length (nodes p)).
Proof.
  unfold announceToScreenReader. js_run. cbn.
  rewrite !length_alter, length_app. cbn. lia.
Qed.

(** Element objects that exist keep their reference and their state. *)
Lemma announce_element msg p n :
  is_Some (element n p) →
  element n (exec (announceToScreenReader msg) p) = element n p.
Proof.
  destruct n as [| | |i]; try reflexivity.
  intros Hn. apply lookup_lt_is_Some in Hn.
  unfold announceToScreenReader. js_run. cbn.
  rewrite !list_lookup_alter_ne by lia.
  by apply lookup_app_l.
Qed.

Lemma announce_has_class msg p c n :
  is_Some (element n p) →
  has_class c n (exec (announceToScreenReader msg) p) = has_class c n p.
Proof. intros Hn. unfold has_class, classes. by rewrite announce_element. Qed.

Lemma announce_attribute msg p a n :
  is_Some (element n p) →
  attribute n a (exec (announceToScreenReader msg) p) = attribute n a p.
Proof. intros Hn. unfold attribute. by rewrite announce_element. Qed.

Lemma alter_last {A} (f : A → A) (l : list A) (x : A) :
  alter f (length l) (l ++ [x]) = l ++ [f x].
Proof.
  replace (length l) with (length l + 0)%nat by lia.
  by rewrite alter_app_r.
Qed.

Lemma announce_nodes msg p :
  nodes (exec (announceToScreenReader msg) p) = nodes p ++ [announcement msg].
Proof.
  unfold announceToScreenReader. js_run. cbn.
  by rewrite !alter_last.
Qed.

(** ** Accessibility controller *)

Lemma font_markers_removed (l : list string) (c : string) :
  c = "font-size-small" ∨ c = "font-size-large" →
  bool_decide
    (c ∈ foldl (λ acc c, tokens_remove c acc) l ["font-size-small"; "font-size-large"])
  = false.
Proof.
  intros Hc. apply bool_decide_eq_false. cbn [foldl].
  rewrite !elem_of_tokens_remove. destruct Hc as [-> | ->]; tauto.
Qed.

(** C1. For [d] among -1, 0 and 1, [changeFontSize(d)] completes and leaves
    on the document root exactly the font-size marker that matches [d]
    (['font-size-small'] for -1, ['font-size-large'] for 1, none for 0), and
    the value stored under ['dpl-font-size'] is the string form of [d]. *)
Theorem changeFontSize_applies_and_persists (p : Page) (d : Z) :
  (d = -1 ∨ d = 0 ∨ d = 1)%Z →
  ∃ p', returns (changeFontSize (JNumber (ofZ d))) p tt p'
    ∧ has_class "font-size-small" Html p' = bool_decide (d = -1)%Z
    ∧ has_class "font-size-large" Html p' = bool_decide (d = 1)%Z
    ∧ localStorage p' !! "dpl-font-size" = Some (Number_toString (ofZ d)).
Proof.
  intros Hd.
  assert (Hrun : returns (changeFontSize (JNumber (ofZ d))) p tt
                   (exec (changeFontSize (JNumber (ofZ d))) p)).
  { unfold returns, changeFontSize.
    destruct Hd as [-> | [-> | ->]]; js_run; cbn [strict_equals];
      repeat match goal with
      | |- context [(ofZ ?z =? ?x)%float] =>
          let b := eval vm_compute in (ofZ z =? x)%float in
          change (ofZ z =? x)%float with b; cbv iota beta
      end;
      rewrite announce_returns; reflexivity. }
  eexists. split; [exact Hrun|]. clear Hrun.
  unfold changeFontSize.
  destruct Hd as [-> | [-> | ->]]; js_run; cbn [strict_equals];
    repeat match goal with
    | |- context [(ofZ ?z =? ?x)%float] =>
        let b := eval vm_compute in (ofZ z =? x)%float in
        change (ofZ z =? x)%float with b; cbv iota beta
    end;
    rewrite announce_returns; cbv iota beta;
    unfold has_class, classes, element;
    rewrite !announce_rootElement, announce_localStorage;
    cbn -[insert foldl tokens_add];
    rewrite lookup_insert_eq;
    repeat split;
    rewrite ?tokens_add_in, ?tokens_add_other, ?font_markers_removed by (done || auto);
    done.
Qed.

Lemma changeFontSize_applies_and_persists_witness :
  ∃ p', returns (changeFontSize (JNumber (ofZ 1))) emptyPage tt p'
    ∧ has_class "font-size-small" Html p' = bool_decide (1 = -1)%Z
    ∧ has_class "font-size-large" Html p' = bool_decide (1 = 1)%Z
    ∧ localStorage p' !! "dpl-font-size" = Some (Number_toString (ofZ 1)).
Proof.
  apply (changeFontSize_applies_and_persists emptyPage 1).
  right; right; reflexivity.
Defined.

(** C9. Any argument that is neither the Number 1 nor the Number -1 (another
    Number, a string, [undefined], ...) is handled exactly as 0 is: both
    font-size markers are removed from the document root and none is added,
    ["0"] is stored under ['dpl-font-size'], and the change is announced. *)
Theorem changeFontSize_other_argument (p : Page) (d : JsValue) :
  strict_equals d (JNumber 1) = false →
  strict_equals d (JNumber (-1)) = false →
  changeFontSize d p = changeFontSize (JNumber 0) p
  ∧ ∃ p', returns (changeFontSize d) p tt p'
      ∧ has_class "font-size-small" Html p' = false
      ∧ has_class "font-size-large" Html p' = false
      ∧ localStorage p' !! "dpl-font-size" = Some "0"
      ∧ nodes p' = nodes p ++ [announcement "Font size changed"].
Proof.
  intros H1 H2.
  assert (Hrun : changeFontSize d p
    = (Normal tt,
       exec (announceToScreenReader "Font size changed")
         (set_localStorage (<["dpl-font-size" := "0"]>)
            (update Html
               (with_classList (λ l, foldl (λ acc c, tokens_remove c acc) l
                                       ["font-size-small"; "font-size-large"]))
               p)))).
  { unfold changeFontSize. js_run. rewrite H1, H2. cbv iota beta.
    by rewrite announce_returns. }
  split; [by rewrite Hrun|].
  eexists. split; [exact Hrun|].
  unfold has_class, classes, element.
  rewrite !announce_rootElement, announce_localStorage, announce_nodes.
  cbn -[insert foldl].
  rewrite lookup_insert_eq, !font_markers_removed by auto. done.
Qed.

Lemma changeFontSize_other_argument_witness :
  changeFontSize (JString "1") emptyPage = changeFontSize (JNumber 0) emptyPage
  ∧ ∃ p', returns (changeFontSize (JString "1")) emptyPage tt p'
      ∧ has_class "font-size-small" Html p' = false
      ∧ has_class "font-size-large" Html p' = false
      ∧ localStorage p' !! "dpl-font-size" = Some "0"
      ∧ nodes p' = nodes emptyPage ++ [announcement "Font size changed"].
Proof.
  apply (changeFontSize_other_argument emptyPage (JString "1")); reflexivity.
Defined.

Lemma tokens_remove_absent (c : string) (l : list string) :
  c ∉ l → tokens_remove c l = l.
Proof.
  intros Hc. unfold tokens_remove. induction l as [|x l IH]; [done|].
  cbn. rewrite not_elem_of_cons in Hc. destruct Hc as [Hx Hl].
  rewrite bool_decide_eq_false_2 by congruence. cbn. by rewrite IH.
Qed.

Lemma tokens_add_remove (c : string) (l : list string) :
  c ∉ l → tokens_remove c (tokens_add c l) = l.
Proof.
  intros Hc. unfold tokens_add. rewrite bool_decide_eq_false_2 by done.
  unfold tokens_remove. rewrite List.filter_app. cbn.
  rewrite bool_decide_eq_true_2 by done. cbn.
  rewrite app_nil_r. by apply tokens_remove_absent.
Qed.

(** C6. Starting with no high-contrast marker on the body, two calls of
    [toggleContrast()] complete, leave the body's class list as it was (the
    marker absent) and leave ["false"] stored under ['dpl-high-contrast']. *)
Theorem toggleContrast_twice (p : Page) :
  has_class "high-contrast" Body p = false →
  ∃ p', returns (toggleContrast ;; toggleContrast) p tt p'
    ∧ has_class "high-contrast" Body p' = false
    ∧ classes Body p' = classes Body p
    ∧ localStorage p' !! "dpl-high-contrast" = Some "false".
Proof.
  intros Hoff.
  assert (Hc : "high-contrast" ∉ classList (bodyElement p)).
  { by apply bool_decide_eq_false in Hoff. }
  set (p1 := exec toggleContrast p).
  assert (H1 : toggleContrast p = (Normal tt, p1)).
  { subst p1. unfold toggleContrast. js_run. rewrite Hoff. cbv iota beta.
    by rewrite announce_returns. }
  assert (Hon : has_class "high-contrast" Body p1 = true).
  { subst p1. unfold toggleContrast. js_run. rewrite Hoff. cbv iota beta.
    rewrite announce_returns. cbv iota beta.
    unfold has_class, classes, element. rewrite announce_bodyElement. cbn.
    apply tokens_add_in. }
  assert (Hbody : classList (bodyElement p1)
                  = tokens_add "high-contrast" (classList (bodyElement p))).
  { subst p1. unfold toggleContrast. js_run. rewrite Hoff. cbv iota beta.
    rewrite announce_returns. cbv iota beta.
    by rewrite announce_bodyElement. }
  assert (H2 : toggleContrast p1 = (Normal tt, exec toggleContrast p1)).
  { unfold toggleContrast. js_run. rewrite Hon. cbv iota beta.
    by rewrite announce_returns. }
  exists (exec toggleContrast p1). split.
  { unfold returns. by rewrite (run_bind _ _ _ _ _ H1). }
  assert (Hfinal : classList (bodyElement (exec toggleContrast p1))
                   = classList (bodyElement p)).
  { unfold toggleContrast. js_run. rewrite Hon. cbv iota beta.
    rewrite announce_returns. cbv iota beta.
    rewrite announce_bodyElement. cbn.
    rewrite Hbody. by apply tokens_add_remove. }
  unfold has_class, classes, element. cbn [from_option].
  rewrite Hfinal. repeat split; [exact Hoff|].
  unfold toggleContrast. js_run. rewrite Hon. cbv iota beta.
  rewrite announce_returns. cbv iota beta.
  rewrite announce_localStorage. cbn -[insert]. apply lookup_insert_eq.
Qed.

Lemma toggleContrast_twice_witness :
  ∃ p', returns (toggleContrast ;; toggleContrast) emptyPage tt p'
    ∧ has_class "high-contrast" Body p' = false
    ∧ classes Body p' = classes Body emptyPage
    ∧ localStorage p' !! "dpl-high-contrast" = Some "false".
Proof. apply (toggleContrast_twice emptyPage). reflexivity. Defined.

Lemma applyFontSize_returns (level : float) (p : Page) :
  applyFontSize level p = (Normal tt, exec (applyFontSize level) p).
Proof.
  unfold applyFontSize. js_run.
  destruct (level =? 1)%float; [reflexivity|].
  destruct (level =? -1)%float; reflexivity.
Qed.

Lemma applyFontSize_localStorage (level : float) (p : Page) :
  localStorage (exec (applyFontSize level) p) = localStorage p.
Proof.
  unfold applyFontSize. js_run.
  destruct (level =? 1)%float; [reflexivity|].
  destruct (level =? -1)%float; reflexivity.
Qed.

Lemma nan_matches_no_level (level : float) :
  is_nan level = true → (level =? 1)%float = false ∧ (level =? -1)%float = false.
Proof.
  unfold is_nan. rewrite negb_true_iff. intros Hnan.
  pose proof (FloatAxioms.eqb_spec level level) as Hs. rewrite Hnan in Hs.
  pose proof (FloatAxioms.eqb_spec level 1%float) as H1.
  pose proof (FloatAxioms.eqb_spec level (-1)%float) as H2.
  unfold SFeqb in *.
  destruct (Prim2SF level) as [s| s| |s m e] eqn:Hl; cbn in Hs.
  - discriminate.
  - destruct s; discriminate.
  - rewrite H1, H2. done.
  - rewrite Z.compare_refl in Hs.
    change (PosDef.Pos.compare_cont Eq m m) with (Pos.compare m m) in Hs.
    rewrite Pos.compare_refl in Hs. destruct s; discriminate.
Qed.

Lemma applyFontSize_nan (level : float) (p : Page) :
  is_nan level = true → applyFontSize level p = applyFontSize 0 p.
Proof.
  intros Hnan. apply nan_matches_no_level in Hnan as [H1 H2].
  unfold applyFontSize. js_run. by rewrite H1, H2.
Qed.

(** C3. When nothing is stored under ['dpl-font-size'], or what is stored
    does not parse as an integer, [initAccessibility] completes without an
    error, leaves the store as it is and puts no font-size marker on the
    document root.  With nothing (or the empty string) stored the level stays
    0 and the root is left untouched; with an unparsable string the root is
    left exactly as the level 0 leaves it, with neither marker. *)
Theorem initAccessibility_loads (p : Page) :
  let saved := localStorage p !! "dpl-font-size" in
  saved = None ∨ is_nan (parseInt (default "" saved)) = true →
  ∃ level p', returns initAccessibility p level p'
    ∧ localStorage p' = localStorage p
    ∧ (∀ c, c = "font-size-small" ∨ c = "font-size-large" →
            has_class c Html p' = true → has_class c Html p = true)
    ∧ (if truthy_string saved
       then rootElement p' = rootElement (exec (applyFontSize 0) p)
            ∧ has_class "font-size-small" Html p' = false
            ∧ has_class "font-size-large" Html p' = false
       else level = 0%float ∧ rootElement p' = rootElement p).
Proof.
  intros saved Hsaved.
  unfold returns, initAccessibility. js_run. fold saved.
  destruct (truthy_string saved) eqn:Htruthy.
  - assert (Hnan : is_nan (parseInt (default "" saved)) = true).
    { destruct Hsaved as [Hnone | Hnan]; [|done]. by rewrite Hnone in Htruthy. }
    rewrite (applyFontSize_nan _ p Hnan), applyFontSize_returns. cbv iota beta.
    assert (Hroot : bool_decide ("font-size-small"
                      ∈ classList (rootElement (exec (applyFontSize 0) p))) = false
                    ∧ bool_decide ("font-size-large"
                      ∈ classList (rootElement (exec (applyFontSize 0) p))) = false).
    { unfold applyFontSize. js_run. cbn -[foldl].
      rewrite !font_markers_removed by auto. done. }
    pose proof (applyFontSize_localStorage 0 p) as Hstore.
    destruct (bool_decide (localStorage p !! "dpl-high-contrast" = Some "true"));
      (eexists _, _; split; [reflexivity|]);
      (split; [exact Hstore|]);
      (split; [|split; [reflexivity | exact Hroot]]);
      intros c [-> | ->]; unfold has_class, classes, element; cbn [from_option];
      cbn [rootElement update set_bodyElement];
      destruct Hroot as [Hs Hl]; rewrite ?Hs, ?Hl; done.
  - destruct (bool_decide (localStorage p !! "dpl-high-contrast" = Some "true"));
      (eexists _, _; split; [reflexivity|]; done).
Qed.

Lemma initAccessibility_loads_witness :
  ∃ level p', returns initAccessibility (storedFontSize "large") level p'
    ∧ has_class "font-size-small" Html p' = false
    ∧ has_class "font-size-large" Html p' = false.
Proof.
  destruct (initAccessibility_loads (storedFontSize "large"))
    as (level & p' & Hrun & _ & _ & Hroot).
  - right. vm_compute. reflexivity.
  - assert (Hstored : truthy_string
                        (localStorage (storedFontSize "large") !! "dpl-font-size") = true)
      by reflexivity.
    rewrite Hstored in Hroot. destruct Hroot as (_ & Hs & Hl).
    exists level, p'. done.
Defined.

(** ** Counter animation *)

Section CounterRun.

Variables (id : nat) (element : NodeId) (target step : float).
Variables (pre post : list Timer).
Hypothesis pre_other : Forall (λ t, timerId t ≠ id) pre.
Hypothesis post_other : Forall (λ t, timerId t ≠ id) post.

Local Abbreviation animating := (animatingAmong pre post id element target step).
Local Abbreviation settled := (settledAmong pre post element target).

Lemma find_other (l : list Timer) :
  Forall (λ t, timerId t ≠ id) l →
  List.find (λ t, (timerId t =? id)%nat) l = None.
Proof.
  induction 1 as [|t l Ht _ IH]; [done|].
  cbn [List.find]. rewrite (proj2 (Nat.eqb_neq _ _) Ht). exact IH.
Qed.

Lemma find_after_others (l : list Timer) (t : Timer) :
  Forall (λ t, timerId t ≠ id) l → timerId t = id →
  List.find (λ t, (timerId t =? id)%nat) (l ++ t :: post) = Some t.
Proof.
  intros Hl Ht. induction Hl as [|t' l Ht' _ IH]; cbn [app List.find].
  - by rewrite Ht, Nat.eqb_refl.
  - rewrite (proj2 (Nat.eqb_neq _ _) Ht'). exact IH.
Qed.

Lemma find_counterTimer (current : float) :
  List.find (λ t, (timerId t =? id)%nat)
    (pre ++ counterTimer id element target step current :: post)
  = Some (counterTimer id element target step current).
Proof. by apply find_after_others. Qed.

Lemma filter_other (l : list Timer) :
  Forall (λ t, timerId t ≠ id) l →
  List.filter (λ t, negb (timerId t =? id)%nat) l = l.
Proof.
  induction 1 as [|t l Ht _ IH]; [done|].
  cbn [List.filter]. rewrite (proj2 (Nat.eqb_neq _ _) Ht). cbn [negb].
  by rewrite IH.
Qed.

Lemma retarget_other (c : float) (l : list Timer) :
  Forall (λ t, timerId t ≠ id) l → map (retarget id c) l = l.
Proof.
  induction 1 as [|t l Ht _ IH]; [done|].
  cbn [map]. rewrite IH. f_equal. unfold retarget.
  destruct (timerTask t); try done.
  by rewrite (proj2 (Nat.eqb_neq _ _) Ht).
Qed.

Lemma retarget_counterTimer (c c' : float) :
  map (retarget id c') (pre ++ counterTimer id element target step c :: post)
  = pre ++ counterTimer id element target step c' :: post.
Proof.
  rewrite map_app. cbn [map]. rewrite !retarget_other by done.
  unfold retarget, counterTimer. cbn. by rewrite Nat.eqb_refl.
Qed.

Lemma clear_counterTimer (c : float) :
  List.filter (λ t, negb (timerId t =? id)%nat)
    (pre ++ counterTimer id element target step c :: post)
  = pre ++ post.
Proof.
  rewrite List.filter_app. cbn [List.filter counterTimer timerId].
  rewrite Nat.eqb_refl. cbn [negb]. by rewrite !filter_other.
Qed.

Lemma timers_update (n : NodeId) (f : Element → Element) (q : Page) :
  timers (update n f q) = timers q.
Proof. by destruct n. Qed.

Lemma textOf_update_text (n : NodeId) (t : string) (q : Page) :
  is_Some (Dom.element n q) →
  textOf n (update n (with_textContent t) q) = t.
Proof.
  unfold textOf. destruct n as [| | |i]; try done.
  intros [e He]. cbn in *. by rewrite list_lookup_alter_eq, He.
Qed.

Lemma element_update_is_Some (n m : NodeId) (f : Element → Element) (q : Page) :
  is_Some (Dom.element n q) → is_Some (Dom.element n (update m f q)).
Proof.
  destruct n as [| | |i], m as [| | |j]; cbn; try done.
  rewrite !lookup_lt_is_Some, length_alter. done.
Qed.

Lemma element_set_timers (n : NodeId) (f : list Timer → list Timer) (q : Page) :
  Dom.element n (set_timers f q) = Dom.element n q.
Proof. by destruct n. Qed.

(** A tick that does not reach the target. *)
Lemma tick_continues (current : float) (q : Page) :
  animating current q →
  (target <=? current + step)%float = false →
  ∃ q', fireTimer id q = (Normal tt, q')
    ∧ animating (current + step) q'
    ∧ textOf element q' = counterText target (current + step)%float.
Proof.
  intros [Htimers Hel] Hlt.
  unfold fireTimer. js_run. rewrite Htimers, find_counterTimer.
  cbn [timerRepeats counterTimer timerTask runTask].
  unfold counterTick, set_current. js_run. rewrite Hlt.
  eexists. split; [reflexivity|]. split; [split|].
  - rewrite timers_update. cbn [timers set_timers].
    rewrite Htimers. apply retarget_counterTimer.
  - apply element_update_is_Some. by rewrite element_set_timers.
  - apply textOf_update_text. by rewrite element_set_timers.
Qed.

(** The tick that reaches the target clamps, clears and renders. *)
Lemma tick_settles (current : float) (q : Page) :
  animating current q →
  (target <=? current + step)%float = true →
  ∃ q', fireTimer id q = (Normal tt, q') ∧ settled q'.
Proof.
  intros [Htimers Hel] Hge.
  unfold fireTimer. js_run. rewrite Htimers, find_counterTimer.
  cbn [timerRepeats counterTimer timerTask runTask].
  unfold counterTick, set_current. js_run. rewrite Hge.
  eexists. split; [reflexivity|]. split.
  - rewrite timers_update. cbn [timers set_timers].
    rewrite Htimers, !retarget_counterTimer. apply clear_counterTimer.
  - apply textOf_update_text. by rewrite !element_set_timers.
Qed.

(** Once settled, a tick of the same timer is no event any more. *)
Lemma tick_after_settled (q : Page) :
  settled q → fireTimer id q = (Normal tt, q).
Proof.
  intros [Htimers _]. unfold fireTimer. js_run.
  rewrite Htimers, find_other; [done|].
  apply Forall_app. done.
Qed.

Lemma fireTimes_settled (n : nat) (q : Page) :
  settled q → fireTimes n id q = (Normal tt, q).
Proof.
  intros Hq. induction n as [|n IH]; [done|].
  cbn [fireTimes]. by rewrite (run_bind _ _ _ _ _ (tick_after_settled q Hq)).
Qed.

Lemma pending_animating (current : float) (q : Page) :
  animating current q → timerPending id q = true.
Proof.
  intros [Htimers _]. unfold timerPending. rewrite Htimers.
  rewrite existsb_app. cbn. rewrite Nat.eqb_refl. cbn.
  by rewrite orb_true_r.
Qed.

Lemma pending_settled (q : Page) :
  settled q → timerPending id q = false.
Proof.
  intros [Htimers _]. unfold timerPending. rewrite Htimers.
  apply not_true_is_false. rewrite existsb_exists.
  intros (t & Hin & Ht). apply Nat.eqb_eq in Ht.
  apply in_app_or in Hin as [Hin | Hin];
    [ pose proof pre_other as Ho | pose proof post_other as Ho ];
    rewrite Forall_forall in Ho; apply (Ho t); [|done| |done];
    by apply list_elem_of_In.
Qed.

(** The page follows [ticksToSettle]: when it predicts that tick [k]
    settles, the timer is pending before tick [k], and tick [k] as well as
    every later one leaves the page settled. *)
Lemma run_settles (fuel k : nat) (current : float) (q : Page) :
  animating current q →
  ticksToSettle fuel target step current = Some k →
  (∀ j, (j < k)%nat → ∃ q', fireTimes j id q = (Normal tt, q')
                            ∧ timerPending id q' = true)
  ∧ (∀ n, (k <= n)%nat → ∃ q', fireTimes n id q = (Normal tt, q') ∧ settled q').
Proof.
  revert k current q. induction fuel as [|fuel IH]; intros k current q Hq Hk.
  { discriminate. }
  cbn [ticksToSettle] in Hk.
  destruct (target <=? current + step)%float eqn:Hcmp.
  - injection Hk as <-.
    destruct (tick_settles current q Hq Hcmp) as (q' & Hrun & Hq').
    split.
    + intros j Hj. assert (j = 0)%nat as -> by lia.
      exists q. split; [done|]. by eapply pending_animating.
    + intros [|n] Hn; [lia|]. exists q'. split; [|done].
      cbn [fireTimes]. rewrite (run_bind _ _ _ _ _ Hrun).
      by apply fireTimes_settled.
  - destruct (ticksToSettle fuel target step (current + step)) as [k'|] eqn:Hrec;
      [|discriminate].
    cbn in Hk. injection Hk as <-.
    destruct (tick_continues current q Hq Hcmp) as (q' & Hrun & Hq' & _).
    destruct (IH k' _ q' Hq' Hrec) as [Hbefore Hafter].
    split.
    + intros [|j] Hj.
      * exists q. split; [done|]. by eapply pending_animating.
      * destruct (Hbefore j) as (q'' & Hj' & Hp); [lia|].
        exists q''. split; [|done].
        cbn [fireTimes]. by rewrite (run_bind _ _ _ _ _ Hrun).
    + intros [|n] Hn; [lia|].
      destruct (Hafter n) as (q'' & Hn' & Hs); [lia|].
      exists q''. split; [|done].
      cbn [fireTimes]. by rewrite (run_bind _ _ _ _ _ Hrun).
Qed.

(** When [ticksToSettle] finds no settling tick within [fuel] ticks, the
    timer is still pending after them. *)
Lemma run_unsettled (fuel : nat) (current : float) (q : Page) :
  animating current q →
  ticksToSettle fuel target step current = None →
  ∃ q', fireTimes fuel id q = (Normal tt, q') ∧ timerPending id q' = true.
Proof.
  revert current q. induction fuel as [|fuel IH]; intros current q Hq Hk.
  { exists q. split; [done|]. by eapply pending_animating. }
  cbn [ticksToSettle] in Hk.
  destruct (target <=? current + step)%float eqn:Hcmp; [discriminate|].
  destruct (ticksToSettle fuel target step (current + step)) eqn:Hrec;
    [discriminate|].
  destruct (tick_continues current q Hq Hcmp) as (q' & Hrun & Hq' & _).
  destruct (IH _ q' Hq' Hrec) as (q'' & Hrun' & Hp).
  exists q''. split; [|done].
  cbn [fireTimes]. by rewrite (run_bind _ _ _ _ _ Hrun).
Qed.

End CounterRun.

Lemma fresh_other (p : Page) :
  timersFresh p = true → Forall (λ t, timerId t ≠ nextTimer p) (timers p).
Proof.
  unfold timersFresh. rewrite forallb_forall, Forall_forall.
  intros H t Ht%list_elem_of_In. apply H, Nat.ltb_lt in Ht. lia.
Qed.

Lemma attribute_is_Some (n : NodeId) (a v : string) (p : Page) :
  attribute n a p = Some v → is_Some (element n p).
Proof. unfold attribute. destruct (element n p); [eauto | done]. Qed.

(** [animateCounter] parses the declared count and starts the interval. *)
Lemma animateCounter_starts (p : Page) (element : NodeId) (count : string) :
  attribute element "data-count" p = Some count →
  ∃ q, animateCounter element p = (Normal tt, q)
    ∧ animatingAmong (timers p) [] (nextTimer p) element
        (parseInt count) (stepOf (parseInt count)) 0 q.
Proof.
  intros Hcount. unfold animateCounter. js_run. rewrite Hcount.
  eexists. split; [reflexivity|]. split; [reflexivity|].
  apply attribute_is_Some in Hcount. by destruct element.
Qed.

Lemma ticksToSettle_bound (fuel k : nat) (target step current : float) :
  ticksToSettle fuel target step current = Some k → (1 <= k <= fuel)%nat.
Proof.
  revert k current. induction fuel as [|fuel IH]; intros k current Hk; [done|].
  cbn [ticksToSettle] in Hk.
  destruct (target <=? current + step)%float.
  - injection Hk as <-. lia.
  - destruct (ticksToSettle fuel target step (current + step)) eqn:Hrec; [|done].
    cbn in Hk. injection Hk as <-. apply IH in Hrec. lia.
Qed.

(** From the settling tick on, the page is settled, whatever else the page
    holds. *)
Lemma animation_settles (p : Page) (element : NodeId) (count : string) (fuel k n : nat) :
  timersFresh p = true →
  attribute element "data-count" p = Some count →
  ticksToSettle fuel (parseInt count) (stepOf (parseInt count)) 0 = Some k →
  (k <= n)%nat →
  timerPending (nextTimer p) (animation element n p) = false
  ∧ textOf element (animation element n p)
    = counterText (parseInt count) (parseInt count).
Proof.
  intros Hfresh Hcount Hk Hn.
  destruct (animateCounter_starts p element count Hcount) as (q & Hstart & Hq).
  pose proof (fresh_other p Hfresh) as Hpre.
  destruct (run_settles (nextTimer p) element _ _ (timers p) [] Hpre (Forall_nil_2 _)
              fuel k 0 q Hq Hk)
    as [_ Hafter].
  destruct (Hafter n Hn) as (q' & Hrun & Hq').
  unfold animation. rewrite (exec_bind _ _ _ _ _ Hstart).
  unfold exec. rewrite Hrun. cbn [snd]. split.
  - eapply pending_settled; [exact Hpre | apply Forall_nil_2 | exact Hq'].
  - apply Hq'.
Qed.

Lemma animation_pending (p : Page) (element : NodeId) (count : string) (n : nat) :
  timersFresh p = true →
  attribute element "data-count" p = Some count →
  ticksToSettle n (parseInt count) (stepOf (parseInt count)) 0 = None →
  timerPending (nextTimer p) (animation element n p) = true.
Proof.
  intros Hfresh Hcount Hk.
  destruct (animateCounter_starts p element count Hcount) as (q & Hstart & Hq).
  pose proof (fresh_other p Hfresh) as Hpre.
  destruct (run_unsettled (nextTimer p) element _ _ (timers p) [] Hpre (Forall_nil_2 _)
              n 0 q Hq Hk)
    as (q' & Hrun & Hp).
  unfold animation. rewrite (exec_bind _ _ _ _ _ Hstart).
  unfold exec. by rewrite Hrun.
Qed.

(** C5. Whenever the interval of a counter has been cleared, the element
    shows the target formatted by the policy: divided by 1,000,000 with one
    decimal and ["M+"] from 1,000,000 on, divided by 1,000 with no decimal
    and ["K+"] from 1,000 on, the integer floor otherwise.  A counter
    declared as 2500000 has settled after 125 ticks and shows ["2.5M+"]; one
    declared as 3400 or 42 has settled after 126 ticks and shows ["3K+"] or
    ["42"]. *)
Theorem counter_final_text (p : Page) (element : NodeId) (count : string) :
  timersFresh p = true →
  attribute element "data-count" p = Some count →
  let target := parseInt count in
  (∀ n, timerPending (nextTimer p) (animation element n p) = false →
        textOf element (animation element n p) = counterText target target)
  ∧ counterText target target
    = (if (1000000 <=? target)%float then toFixed (target / 1000000)%float 1 +:+ "M+"
       else if (1000 <=? target)%float then toFixed (target / 1000)%float 0 +:+ "K+"
       else Number_toString (Math_floor target))
  ∧ (count = "2500000" →
     timerPending (nextTimer p) (animation element 125 p) = false
     ∧ textOf element (animation element 125 p) = "2.5M+")
  ∧ (count = "3400" →
     timerPending (nextTimer p) (animation element 126 p) = false
     ∧ textOf element (animation element 126 p) = "3K+")
  ∧ (count = "42" →
     timerPending (nextTimer p) (animation element 126 p) = false
     ∧ textOf element (animation element 126 p) = "42").
Proof.
  intros Hfresh Hcount target. split; [|split; [reflexivity|]].
  - intros n Hclear.
    destruct (ticksToSettle n target (stepOf target) 0) as [k|] eqn:Hk.
    + pose proof (ticksToSettle_bound _ _ _ _ _ Hk) as Hb.
      eapply animation_settles; [done.. | lia].
    + rewrite (animation_pending p element count n) in Hclear; done.
  - split; [|split]; intros ->.
    + destruct (animation_settles p element "2500000" 125 125 125) as [Hc Ht];
        [done | done | vm_compute; reflexivity | lia |].
      split; [exact Hc|]. rewrite Ht. vm_compute. reflexivity.
    + destruct (animation_settles p element "3400" 126 126 126) as [Hc Ht];
        [done | done | vm_compute; reflexivity | lia |].
      split; [exact Hc|]. rewrite Ht. vm_compute. reflexivity.
    + destruct (animation_settles p element "42" 126 126 126) as [Hc Ht];
        [done | done | vm_compute; reflexivity | lia |].
      split; [exact Hc|]. rewrite Ht. vm_compute. reflexivity.
Qed.

Lemma counter_final_text_witness :
  let p := counterPage "3400" in
  let target := parseInt "3400" in
  (∀ n, timerPending (nextTimer p) (animation (Node 0) n p) = false →
        textOf (Node 0) (animation (Node 0) n p) = counterText target target)
  ∧ counterText target target
    = (if (1000000 <=? target)%float then toFixed (target / 1000000)%float 1 +:+ "M+"
       else if (1000 <=? target)%float then toFixed (target / 1000)%float 0 +:+ "K+"
       else Number_toString (Math_floor target))
  ∧ ("3400" = "2500000" →
     timerPending (nextTimer p) (animation (Node 0) 125 p) = false
     ∧ textOf (Node 0) (animation (Node 0) 125 p) = "2.5M+")
  ∧ ("3400" = "3400" →
     timerPending (nextTimer p) (animation (Node 0) 126 p) = false
     ∧ textOf (Node 0) (animation (Node 0) 126 p) = "3K+")
  ∧ ("3400" = "42" →
     timerPending (nextTimer p) (animation (Node 0) 126 p) = false
     ∧ textOf (Node 0) (animation (Node 0) 126 p) = "42").
Proof.
  apply (counter_final_text (counterPage "3400") (Node 0) "3400").
  - reflexivity.
  - reflexivity.
Defined.

(** ** Binary64 arithmetic

    Rounding to nearest, written out on the integers: lower and upper bounds
    for the results of [binary_round_aux], and with them for sums and
    quotients of Numbers. *)

Section Rounding.

Local Open Scope Z_scope.


























End Rounding.

(** *** The ramp of a counter in binary64 *)












(** ** Element objects under updates *)

Lemma element_update (n m : NodeId) (f : Element → Element) (p : Page) :
  element n (update m f p)
  = if decide (n = m) then f <$> element m p else element n p.
Proof.
  destruct n as [| | |i], m as [| | |j]; try reflexivity.
  cbn. rewrite list_lookup_alter.
  destruct (decide (j = i)) as [-> | Hne].
  - by rewrite decide_True.
  - rewrite decide_False; congruence.
Qed.

Lemma element_set_activeElement (n : NodeId) (r : Ref) (p : Page) :
  element n (set_activeElement r p) = element n p.
Proof. by destruct n. Qed.

Lemma update_keepsElements (m : NodeId) (f : Element → Element) (p : Page) :
  keepsElements p (update m f p).
Proof.
  intros n Hn. rewrite element_update. case_decide; [subst|done].
  by apply fmap_is_Some.
Qed.

Lemma keepsElements_refl (p : Page) : keepsElements p p.
Proof. by intros n. Qed.

Lemma keepsElements_trans (p q r : Page) :
  keepsElements p q → keepsElements q r → keepsElements p r.
Proof. intros H1 H2 n Hn. auto. Qed.

(** ** Overlays *)













Lemma switches_weaken (m : JS unit) (target : NodeId) (fires : bool) (p : Page) :
  switches m target true p → switches m target fires p.
Proof.
  intros (p' & Hrun & Hkeep & Hcons & Hfire).
  exists p'. repeat split; auto.
Qed.





Lemma truthy_Some (r : Ref) : truthy r = true → ∃ n, r = Some n.
Proof. destruct r; [eauto | done]. Qed.


Section OverlayEvents.

Variable o : Overlays.

Lemma menuListens_refs :
  menuListens o = true →
  ∃ b m, mobileMenuBtn o = Some b ∧ mobileMenu o = Some m.
Proof.
  unfold menuListens. intros [Hb Hm]%andb_true_iff.
  apply truthy_Some in Hb as [b ->]. apply truthy_Some in Hm as [m ->].
  eauto.
Qed.

Lemma searchListens_refs :
  searchListens o = true →
  ∃ t ov, searchToggle o = Some t ∧ searchOverlay o = Some ov.
Proof.
  unfold searchListens. intros [Ht Hov]%andb_true_iff.
  apply truthy_Some in Ht as [t ->]. apply truthy_Some in Hov as [ov ->].
  eauto.
Qed.








End OverlayEvents.

(** ** Queries return element objects of the page *)


Lemma selects_is_Some (sel : Selector) (n : NodeId) (p : Page) :
  selects sel n p = true → is_Some (element n p).
Proof. unfold selects. destruct (element n p); [eauto | done]. Qed.

Lemma document_query_valid (sel : Selector) (n : NodeId) (p : Page) :
  n ∈ document_querySelectorAll sel p → is_Some (element n p).
Proof.
  unfold document_querySelectorAll. rewrite list_elem_of_In, List.filter_In.
  intros [_ [_ Hsel]%andb_true_iff]. by eapply selects_is_Some.
Qed.

Lemma query_in_valid (root : NodeId) (sel : Selector) (n : NodeId) (p : Page) :
  n ∈ querySelectorAll_in root sel p → is_Some (element n p).
Proof.
  unfold querySelectorAll_in. rewrite list_elem_of_In, List.filter_In.
  intros [_ [_ Hsel]%andb_true_iff]. by eapply selects_is_Some.
Qed.




(** ** Tabs controller *)

(** What the click handler does to every tab of the group before it
    selects one. *)
Lemma deselect_all (tabs : list NodeId) (p : Page) :
  ∃ q,
    forEach tabs (λ t,
      classList_remove (Some t) ["active"];;
      setAttribute (Some t) "aria-selected" "false") p = (Normal tt, q)
    ∧ keepsElements p q
    ∧ (∀ n, n ∉ tabs → element n q = element n p)
    ∧ (∀ n, n ∈ tabs → is_Some (element n p) →
            has_class "active" n q = false
            ∧ attribute n "aria-selected" q = Some "false").
Proof.
  revert p. induction tabs as [|t tabs IH]; intros p.
  { exists p. split; [done|]. split; [apply keepsElements_refl|].
    split; [done|]. intros n Hn. by apply elem_of_nil in Hn. }
  set (p1 := update t (with_attribute "aria-selected" "false")
               (update t (with_classList
                            (λ l, foldl (λ acc c, tokens_remove c acc) l ["active"])) p)).
  destruct (IH p1) as (q & Hrun & Hkeep & Hout & Hin).
  assert (Hkeep1 : keepsElements p p1).
  { subst p1. eapply keepsElements_trans; apply update_keepsElements. }
  exists q. split; [|split; [|split]].
  - cbn [forEach]. js_run. exact Hrun.
  - by eapply keepsElements_trans.
  - intros n Hn. apply not_elem_of_cons in Hn as [Hne Hn].
    rewrite (Hout n Hn). subst p1.
    rewrite !element_update. by rewrite !decide_False.
  - intros n Hn Hex.
    destruct (decide (n ∈ tabs)) as [Hl | Hl].
    + apply Hin; [done|]. by apply Hkeep1.
    + apply elem_of_cons in Hn as [-> | Hn]; [|done].
      unfold has_class, classes, attribute. rewrite (Hout t Hl). subst p1.
      destruct Hex as [e He].
      rewrite !element_update, !decide_True, He by done. cbn.
      by rewrite tokens_remove_out, lookup_insert_eq.
Qed.

Lemma tabClick_selects (tabs : list NodeId) (tab : NodeId) (p : Page) :
  (∀ n, n ∈ tabs → is_Some (element n p)) →
  tab ∈ tabs →
  ∃ p', tabClick tabs tab p = (Normal tt, p')
    ∧ keepsElements p p'
    ∧ (∀ n, n ∉ tabs → is_Some (element n p) → element n p' = element n p)
    ∧ selectedIs tabs tab p'.
Proof.
  intros Hvalid Htab. unfold tabClick.
  destruct (deselect_all tabs p) as (q & Hrun & Hkeep & Hout & Hin).
  rewrite (run_bind _ _ _ _ _ Hrun). js_run.
  set (q1 := update tab (with_attribute "aria-selected" "true")
               (update tab (with_classList (tokens_add "active")) q)).
  rewrite announce_returns.
  assert (Hkeep1 : keepsElements p q1).
  { subst q1. eapply keepsElements_trans; [exact Hkeep|].
    eapply keepsElements_trans; apply update_keepsElements. }
  eexists. split; [reflexivity|]. split; [|split].
  - intros n Hn. rewrite announce_element; by apply Hkeep1.
  - intros n Hn Hex. rewrite announce_element by by apply Hkeep1.
    subst q1. rewrite !element_update.
    rewrite !decide_False by (intros ->; done). by apply Hout.
  - intros n Hn.
    assert (Hex : is_Some (element n q1)) by by apply Hkeep1, Hvalid.
    unfold ariaSelected, markedActive.
    rewrite announce_attribute, announce_has_class by done.
    unfold has_class, classes, attribute. subst q1.
    rewrite !element_update.
    assert (n = tab ∨ n ≠ tab) as [-> | Hne]
      by (destruct (decide (n = tab)); auto).
    + rewrite !decide_True by done.
      destruct (Hkeep tab (Hvalid tab Htab)) as [e He]. rewrite He. cbn.
      rewrite tokens_add_in, lookup_insert_eq.
      by rewrite !bool_decide_eq_true_2.
    + rewrite !decide_False by done.
      destruct (Hin n Hn (Hvalid n Hn)) as [Hc Ha].
      unfold has_class, classes, attribute in Hc, Ha. rewrite Hc, Ha.
      by rewrite !bool_decide_eq_false_2.
Qed.

Lemma all_nodes_NoDup (p : Page) : NoDup (all_nodes p).
Proof.
  apply NoDup_ListNoDup. unfold all_nodes.
  repeat (constructor;
          [cbn; rewrite in_map_iff; intros H; decompose [or ex and] H; congruence|]).
  apply Stdlib.Lists.Finite.Injective_map_NoDup; [|apply List.seq_NoDup].
  intros i j. congruence.
Qed.

Lemma query_in_NoDup (root : NodeId) (sel : Selector) (p : Page) :
  NoDup (querySelectorAll_in root sel p).
Proof.
  apply NoDup_ListNoDup, List.NoDup_filter, NoDup_ListNoDup, all_nodes_NoDup.
Qed.

Lemma document_query_NoDup (sel : Selector) (p : Page) :
  NoDup (document_querySelectorAll sel p).
Proof.
  apply NoDup_ListNoDup, List.NoDup_filter, NoDup_ListNoDup, all_nodes_NoDup.
Qed.

Lemma filter_only {A} `{EqDecision A} (f : A → bool) (l : list A) (x : A) :
  NoDup l → x ∈ l → (∀ y, y ∈ l → f y = bool_decide (y = x)) →
  List.filter f l = [x].
Proof.
  induction 1 as [|y l Hy Hl IH]; intros Hx Hf.
  { by apply elem_of_nil in Hx. }
  cbn [List.filter]. rewrite (Hf y) by by left.
  destruct (decide (y = x)) as [-> | Hne].
  - rewrite bool_decide_eq_true_2 by done. f_equal.
    clear IH Hx. induction l as [|z l IH]; [done|].
    apply not_elem_of_cons in Hy as [Hz Hy]. apply NoDup_cons in Hl as [_ Hl].
    cbn [List.filter]. rewrite (Hf z) by (right; by left).
    rewrite bool_decide_eq_false_2 by congruence.
    apply IH; [done..|]. intros w Hw. apply Hf.
    apply elem_of_cons in Hw as [-> | Hw]; [by left | right; by right].
  - rewrite bool_decide_eq_false_2 by done.
    apply IH.
    + apply elem_of_cons in Hx as [-> | Hx]; done.
    + intros w Hw. apply Hf. by right.
Qed.

Lemma selectedIs_exactly_one (tabs : list NodeId) (tab : NodeId) (p : Page) :
  NoDup tabs → tab ∈ tabs → selectedIs tabs tab p →
  selectedTabs tabs p = [tab] ∧ activeTabs tabs p = [tab].
Proof.
  intros Hnd Htab Hsel. split; apply filter_only; try done; intros n Hn;
    by destruct (Hsel n Hn).
Qed.

Lemma targetIndex_in_range (tabs : list NodeId) (index : nat) (key : string) :
  (index < length tabs)%nat →
  bool_decide (key = "ArrowLeft") || bool_decide (key = "ArrowRight") = true →
  ∃ i tab, targetIndex tabs index key = Some i ∧ tabs !! i = Some tab.
Proof.
  intros Hindex Hkey. unfold targetIndex.
  assert (Hget : ∀ i, (i < length tabs)%nat → ∃ tab, tabs !! i = Some tab).
  { intros i Hi. by apply lookup_lt_is_Some. }
  destruct (bool_decide (key = "ArrowRight")).
  - destruct (length tabs <=? index + 1)%nat eqn:Hwrap.
    + destruct (Hget 0%nat) as [tab Ht]; [lia|]. eauto.
    + apply Nat.leb_gt in Hwrap. destruct (Hget (index + 1)%nat) as [tab Ht]; eauto.
  - rewrite orb_false_r in Hkey. rewrite Hkey.
    destruct (index =? 0)%nat eqn:Hzero.
    + destruct (Hget (length tabs - 1)%nat) as [tab Ht]; [lia|]. eauto.
    + apply Nat.eqb_neq in Hzero.
      destruct (Hget (index - 1)%nat) as [tab Ht]; [lia|]. eauto.
Qed.

(** ** Slider controller *)

Lemma slider_update (n : NodeId) (f : Element → Element) (q : Page) :
  slider (update n f q) = slider q.
Proof. by destruct n. Qed.

Lemma update_timers (n : NodeId) (f : Element → Element) (q : Page) :
  timers (update n f q) = timers q.
Proof. by destruct n. Qed.

Lemma has_class_forced (n : NodeId) (force : bool) (q : Page) :
  is_Some (element n q) →
  has_class "active" n
    (update n (with_classList
                 (if force then tokens_add "active" else tokens_remove "active")) q)
  = force.
Proof.
  intros [e He]. unfold has_class, classes.
  rewrite element_update, decide_True, He by done. cbn.
  destruct force; [apply tokens_add_in | apply tokens_remove_out].
Qed.

(** [forEach((el, i) => el.classList.toggle('active', i === index))] over a
    list without repetition marks position [index] and no other. *)
Lemma mark_list (l : list NodeId) (index start : nat) (q : Page) :
  NoDup l →
  (∀ n, n ∈ l → is_Some (element n q)) →
  ∃ q',
    forEach_indexed start l (λ n i,
      classList_toggle_force (Some n) "active" (i =? index)%nat) q
    = (Normal tt, q')
    ∧ keepsElements q q'
    ∧ (∀ n, n ∉ l → element n q' = element n q)
    ∧ (∀ i n, l !! i = Some n →
              has_class "active" n q' = bool_decide (start + i = index)%nat)
    ∧ slider q' = slider q
    ∧ timers q' = timers q.
Proof.
  intros Hnd. revert start q.
  induction Hnd as [|n l Hn Hnd IH]; intros start q Hvalid.
  { exists q. split; [done|]. split; [apply keepsElements_refl|].
    split; [done|]. split; [|done]. intros i n Hi. by rewrite lookup_nil in Hi. }
  set (q1 := update n (with_classList
                         (if (start =? index)%nat then tokens_add "active"
                          else tokens_remove "active")) q).
  assert (Hk1 : keepsElements q q1) by apply update_keepsElements.
  destruct (IH (S start) q1) as (q' & Hrun & Hk & Hout & Hin & Hs & Ht).
  { intros m Hm. apply Hk1, Hvalid. by right. }
  exists q'. split; [|split; [|split; [|split; [|split]]]].
  - cbn [forEach_indexed]. js_run. exact Hrun.
  - by eapply keepsElements_trans.
  - intros m Hm. apply not_elem_of_cons in Hm as [Hne Hm].
    rewrite (Hout m Hm). subst q1. by rewrite element_update, decide_False.
  - intros [|i] m Hi.
    + cbn in Hi. injection Hi as <-.
      unfold has_class, classes. rewrite (Hout n Hn).
      fold (classes n q1). fold (has_class "active" n q1).
      subst q1. rewrite has_class_forced by (apply Hvalid; by left).
      rewrite Nat.add_0_r.
      destruct (Nat.eqb_spec start index);
        [by rewrite bool_decide_eq_true_2 | by rewrite bool_decide_eq_false_2].
    + cbn in Hi. rewrite (Hin i m Hi). apply bool_decide_ext. lia.
  - rewrite Hs. subst q1. apply slider_update.
  - rewrite Ht. subst q1. apply update_timers.
Qed.

Lemma apartFrom_spec (l1 l2 : list NodeId) :
  apartFrom l1 l2 = true → ∀ n, n ∈ l1 → n ∉ l2.
Proof.
  unfold apartFrom. rewrite forallb_forall. intros H n Hn.
  apply list_elem_of_In, H, negb_true_iff, bool_decide_eq_false in Hn. done.
Qed.

Section SliderRun.

Variables (slides dots : list NodeId) (pending : list Timer) (id : nat).
Hypothesis slides_NoDup : NoDup slides.
Hypothesis dots_NoDup : NoDup dots.
Hypothesis scheduled :
  List.find (λ t, (timerId t =? id)%nat) pending = Some (sliderTimer id).

Local Abbreviation sliding := (sliding slides dots pending).
Local Abbreviation shown := (shown slides dots).

Lemma showSlide_marks (index : nat) (q : Page) :
  (∀ n, n ∈ slides ++ dots → is_Some (element n q)) →
  ∃ q', showSlide slides dots index q = (Normal tt, q')
    ∧ keepsElements q q'
    ∧ slider q' = slider q
    ∧ timers q' = timers q
    ∧ shown index q'.
Proof.
  intros Hvalid. unfold showSlide.
  destruct (mark_list slides index 0 q slides_NoDup)
    as (q1 & Hrun1 & Hk1 & Hout1 & Hin1 & Hs1 & Ht1).
  { intros n Hn. apply Hvalid, elem_of_app. by left. }
  destruct (mark_list dots index 0 q1 dots_NoDup)
    as (q2 & Hrun2 & Hk2 & Hout2 & Hin2 & Hs2 & Ht2).
  { intros n Hn. apply Hk1, Hvalid, elem_of_app. by right. }
  exists q2. split; [by rewrite (run_bind _ _ _ _ _ Hrun1)|].
  split; [by eapply keepsElements_trans|].
  split; [by rewrite Hs2|]. split; [by rewrite Ht2|]. split.
  - intros i n Hi. apply (Hin2 i n Hi).
  - intros Hapart i n Hi. unfold has_class, classes.
    rewrite Hout2
      by (eapply apartFrom_spec; [exact Hapart|]; apply list_elem_of_lookup; eauto).
    apply (Hin1 i n Hi).
Qed.

Lemma select_index (current index : nat) (q : Page) :
  sliding current q →
  ∃ q', (set_currentSlide (mkSliderEnv slides dots current) index;;
         showSlide slides dots index) q = (Normal tt, q')
    ∧ sliding index q' ∧ shown index q'.
Proof.
  intros (Hs & Ht & Hvalid).
  destruct (showSlide_marks index
              (set_slider (Some (mkSliderEnv slides dots index)) q))
    as (q' & Hrun & Hk & Hs' & Ht' & Hshown).
  { intros n Hn. specialize (Hvalid n Hn). by destruct n. }
  exists q'. split; [exact Hrun|]. split; [|done].
  split; [by rewrite Hs'|]. split; [by rewrite Ht'|].
  intros n Hn. apply Hk. specialize (Hvalid n Hn). by destruct n.
Qed.

(** A tick moves to the next index, modulo the number of slides. *)
Lemma tick_advances (current : nat) (q : Page) :
  sliding current q →
  ∃ q', fireTimer id q = (Normal tt, q')
    ∧ sliding ((current + 1) `mod` length slides)%nat q'
    ∧ shown ((current + 1) `mod` length slides)%nat q'.
Proof.
  intros Hq.
  destruct (select_index current ((current + 1) `mod` length slides)%nat q Hq)
    as (q' & Hrun & Hq').
  exists q'. split; [|done].
  destruct Hq as (Hs & Ht & _).
  unfold fireTimer. js_run. rewrite Ht, scheduled.
  cbn [sliderTimer timerRepeats timerTask runTask].
  unfold sliderAdvance. js_run. rewrite Hs. exact Hrun.
Qed.

End SliderRun.

(** Registering the dot listeners touches the listener table only. *)
Lemma register_dots (l : list NodeId) (start : nat) (q : Page) :
  ∃ q',
    forEach_indexed start l (λ dot index,
      addEventListener (Some dot) "click" (DotClick index)) q = (Normal tt, q')
    ∧ slider q' = slider q
    ∧ timers q' = timers q
    ∧ ∀ n, element n q' = element n q.
Proof.
  revert start q. induction l as [|d l IH]; intros start q.
  { by exists q. }
  destruct (IH (S start)
              (set_listeners
                 (λ ls, ls ++ [mkListener (OnElement d) "click" (DotClick start)]) q))
    as (q' & Hrun & Hs & Ht & He).
  exists q'. split; [|split; [|split]].
  - cbn [forEach_indexed]. js_run. exact Hrun.
  - by rewrite Hs.
  - by rewrite Ht.
  - intros n. rewrite He. by destruct n.
Qed.

Lemma initSlider_starts (p : Page) :
  let slides := document_querySelectorAll [ByClass "slide"] p in
  let dots := document_querySelectorAll [ByClass "dot"] p in
  (1 < length slides)%nat →
  ∃ q, initSlider p = (Normal tt, q)
    ∧ sliding slides dots (timers p ++ [sliderTimer (nextTimer p)]) 0 q.
Proof.
  intros slides dots Hlen. unfold initSlider. js_run.
  fold slides. fold dots.
  rewrite (proj2 (Nat.leb_gt _ _)) by done.
  match goal with
  | |- context [forEach_indexed 0 dots ?f ?q0] =>
      destruct (register_dots dots 0 q0) as (q & Hrun & Hs & Ht & He)
  end.
  exists q. split; [exact Hrun|]. split; [by rewrite Hs|]. split; [by rewrite Ht|].
  intros n Hn. rewrite He.
  assert (Hex : is_Some (element n p)).
  { apply elem_of_app in Hn as [Hn | Hn]; by eapply document_query_valid. }
  by destruct n.
Qed.

Lemma find_scheduled (p : Page) :
  timersFresh p = true →
  List.find (λ t, (timerId t =? nextTimer p)%nat)
    (timers p ++ [sliderTimer (nextTimer p)])
  = Some (sliderTimer (nextTimer p)).
Proof.
  intros Hfresh. apply find_after_others; [by apply fresh_other | done].
Qed.

Lemma sliding_activeIndex (slides dots : list NodeId) (pending : list Timer)
    (current : nat) (q : Page) :
  sliding slides dots pending current q → activeIndex q = Some current.
Proof. intros (Hs & _). unfold activeIndex. by rewrite Hs. Qed.

(** ** Initialization without the elements a controller needs *)

Lemma forEach_normal {A} (l : list A) (f : A → JS unit) :
  (∀ x q, ∃ q', f x q = (Normal tt, q')) →
  ∀ q, ∃ q', forEach l f q = (Normal tt, q').
Proof.
  intros Hf. induction l as [|x l IH]; intros q; [by exists q|].
  destruct (Hf x q) as (q1 & H1). destruct (IH q1) as (q' & H').
  exists q'. cbn [forEach]. by rewrite (run_bind _ _ _ _ _ H1).
Qed.

Lemma forEach_indexed_normal {A} (l : list A) (f : A → nat → JS unit) :
  (∀ x i q, ∃ q', f x i q = (Normal tt, q')) →
  ∀ i q, ∃ q', forEach_indexed i l f q = (Normal tt, q').
Proof.
  intros Hf. induction l as [|x l IH]; intros i q; [by exists q|].
  destruct (Hf x i q) as (q1 & H1). destruct (IH (S i) q1) as (q' & H').
  exists q'. cbn [forEach_indexed]. by rewrite (run_bind _ _ _ _ _ H1).
Qed.

Lemma forEach_idle {A} (l : list A) (f : A → JS unit) (p : Page) :
  (∀ x, In x l → f x p = (Normal tt, p)) → forEach l f p = (Normal tt, p).
Proof.
  induction l as [|x l IH]; intros Hf; [done|].
  cbn [forEach]. rewrite (run_bind _ _ _ _ _ (Hf x (or_introl eq_refl))).
  apply IH. intros y Hy. apply Hf. by right.
Qed.

Lemma existsb_false {A} (f : A → bool) (l : list A) (x : A) :
  existsb f l = false → In x l → f x = false.
Proof.
  intros Hl Hx. destruct (f x) eqn:Hfx; [|done].
  rewrite <- Hl. symmetry. apply existsb_exists. eauto.
Qed.

Lemma initAccessibility_normal (p : Page) :
  ∃ level p', initAccessibility p = (Normal level, p')
              ∧ localStorage p' = localStorage p.
Proof.
  unfold initAccessibility. js_run.
  destruct (truthy_string (localStorage p !! "dpl-font-size")).
  - rewrite applyFontSize_returns. cbv iota beta.
    pose proof (applyFontSize_localStorage
                  (parseInt (default "" (localStorage p !! "dpl-font-size"))) p).
    destruct (bool_decide (localStorage p !! "dpl-high-contrast" = Some "true"));
      by eexists _, _.
  - destruct (bool_decide (localStorage p !! "dpl-high-contrast" = Some "true"));
      by eexists _, _.
Qed.

(** The dropdown part of [initNavigation]. *)
Lemma dropdown_normal (dropdown : NodeId) (q : Page) :
  ∃ q',
    (trigger ← querySelector (Some dropdown) [ByTag "a"];
     menu ← querySelector (Some dropdown) [ByClass "dropdown"];
     if truthy trigger && truthy menu
     then addEventListener trigger "keydown" (DropdownKeydown trigger)
     else mret tt) q = (Normal tt, q').
Proof.
  js_run.
  destruct (head (querySelectorAll_in dropdown [ByTag "a"] q)) as [t|];
    destruct (head (querySelectorAll_in dropdown [ByClass "dropdown"] q)) as [m|];
    by eexists.
Qed.

Lemma initNavigation_normal (p : Page) :
  ∃ p', initNavigation p = (Normal tt, p').
Proof.
  unfold initNavigation.
  assert (Hloop : ∀ ds q, ∃ q',
            forEach ds (λ dropdown,
              trigger ← querySelector (Some dropdown) [ByTag "a"];
              menu ← querySelector (Some dropdown) [ByClass "dropdown"];
              if truthy trigger && truthy menu
              then addEventListener trigger "keydown" (DropdownKeydown trigger)
              else mret tt) q = (Normal tt, q')).
  { intros ds. apply forEach_normal. intros d q. apply dropdown_normal. }
  js_run.
  destruct (head (document_querySelectorAll [ByClass "mobile-menu-btn"] p)) as [b|];
    destruct (head (document_querySelectorAll [ByClass "mobile-menu"] p)) as [m|];
    destruct (head (document_querySelectorAll [ByClass "mobile-close"] p)) as [c|];
    cbn [truthy andb bool_decide decide_rel is_Some_dec]; cbv iota beta;
    apply Hloop.
Qed.

Lemma initSearch_normal (p : Page) : ∃ p', initSearch p = (Normal tt, p').
Proof.
  unfold initSearch. js_run.
  destruct (head (document_querySelectorAll [ByClass "search-toggle"] p)) as [t|];
    destruct (head (document_querySelectorAll [ByClass "search-overlay"] p)) as [ov|];
    destruct (head (document_querySelectorAll [ByClass "search-close"] p)) as [c|];
    cbn [truthy andb bool_decide decide_rel is_Some_dec]; cbv iota beta;
    by eexists.
Qed.

Lemma initTabs_normal (p : Page) : ∃ p', initTabs p = (Normal tt, p').
Proof.
  unfold initTabs. js_run. apply forEach_normal. intros container q.
  js_run. apply forEach_indexed_normal. intros tab index q'. by eexists.
Qed.

Lemma bind_normal {A} (m : JS A) (f : A → JS unit) (p : Page) :
  (∃ a p', m p = (Normal a, p')) →
  (∀ a p', ∃ p'', f a p' = (Normal tt, p'')) →
  ∃ p'', (m ≫= f) p = (Normal tt, p'').
Proof.
  intros (a & p' & Hm) Hf. destruct (Hf a p') as (p'' & Hf').
  exists p''. by rewrite (run_bind _ _ _ _ _ Hm).
Qed.

Lemma initAnimations_normal (p : Page) : ∃ p', initAnimations p = (Normal tt, p').
Proof.
  unfold initAnimations.
  apply bind_normal; [by eexists _, _|]. intros counters p1.
  apply bind_normal; [by eexists _, _|]. intros supported p2.
  apply bind_normal.
  { destruct (negb _ && supported); [|by eexists _, _].
    destruct (forEach_normal counters
                (λ counter, observe (ObserveCounter counter))
                (λ x q, ex_intro _ _ eq_refl) p2) as (q & Hq).
    by exists tt, q. }
  intros [] p3.
  apply bind_normal; [by eexists _, _|]. intros fadeElements p4.
  destruct (negb _ && supported); [|by eexists].
  apply forEach_normal. intros el q. by eexists.
Qed.

Lemma initHeaderScroll_normal (p : Page) :
  ∃ p', initHeaderScroll p = (Normal tt, p').
Proof.
  unfold initHeaderScroll. js_run.
  destruct (head (document_querySelectorAll [ByClass "main-header"] p)); by eexists.
Qed.

Lemma sliderBootstrap_normal (p : Page) :
  ∃ p', sliderBootstrap p = (Normal tt, p').
Proof.
  unfold sliderBootstrap. js_run.
  destruct (truthy (head (document_querySelectorAll [ByClass "hero-slider"] p)));
    [|by eexists].
  unfold initSlider. js_run.
  destruct (length (document_querySelectorAll [ByClass "slide"] p) <=? 1)%nat;
    [by eexists|].
  match goal with
  | |- context [forEach_indexed 0 ?l ?f ?q0] =>
      destruct (register_dots l 0 q0) as (q & Hrun & _)
  end.
  by exists q.
Qed.

Lemma domContentLoaded_normal (p : Page) :
  ∃ p', domContentLoaded p = (Normal tt, p').
Proof.
  unfold domContentLoaded.
  destruct (initAccessibility_normal p) as (level & p1 & H1 & _).
  destruct (initNavigation_normal p1) as (p2 & H2).
  destruct (initSearch_normal p2) as (p3 & H3).
  destruct (initTabs_normal p3) as (p4 & H4).
  destruct (initAnimations_normal p4) as (p5 & H5).
  destruct (initHeaderScroll_normal p5) as (p6 & H6).
  exists p6.
  rewrite (run_bind _ _ _ _ _ H1), (run_bind _ _ _ _ _ H2),
    (run_bind _ _ _ _ _ H3), (run_bind _ _ _ _ _ H4), (run_bind _ _ _ _ _ H5).
  exact H6.
Qed.

Lemma initNavigation_idle (p : Page) :
  menuPresent p = false → dropdownPresent p = false →
  initNavigation p = (Normal tt, p).
Proof.
  unfold menuPresent, dropdownPresent. intros Hmenu Hdrop.
  unfold initNavigation. js_run. rewrite Hmenu.
  apply forEach_idle. intros d Hd.
  pose proof (existsb_false _ _ d Hdrop Hd) as Hd'. unfold dropdownComplete in Hd'.
  js_run.
  destruct (head (querySelectorAll_in d [ByTag "a"] p)) as [t|];
    destruct (head (querySelectorAll_in d [ByClass "dropdown"] p)) as [m|];
    done.
Qed.

Lemma initSearch_idle (p : Page) :
  searchPresent p = false → initSearch p = (Normal tt, p).
Proof.
  unfold searchPresent. intros Hsearch. unfold initSearch. js_run.
  destruct (head (document_querySelectorAll [ByClass "search-toggle"] p)) as [t|];
    destruct (head (document_querySelectorAll [ByClass "search-overlay"] p)) as [ov|];
    done.
Qed.

Lemma length_zero_nil {A} (l : list A) : negb (length l =? 0)%nat = false → l = [].
Proof. by destruct l. Qed.

Lemma initTabs_idle (p : Page) :
  tabsPresent p = false → initTabs p = (Normal tt, p).
Proof.
  unfold tabsPresent. intros Htabs. unfold initTabs. js_run.
  apply forEach_idle. intros c Hc.
  pose proof (existsb_false _ _ c Htabs Hc) as Hc'. cbn beta in Hc'.
  apply length_zero_nil in Hc'. js_run. by rewrite Hc'.
Qed.

Lemma initAnimations_idle (p : Page) :
  countersPresent p = false → fadePresent p = false →
  initAnimations p = (Normal tt, p).
Proof.
  unfold countersPresent, fadePresent, fadeSelector. intros Hc Hf.
  unfold initAnimations. js_run. by rewrite Hc, Hf.
Qed.

Lemma initHeaderScroll_idle (p : Page) :
  headerPresent p = false → initHeaderScroll p = (Normal tt, p).
Proof.
  unfold headerPresent. intros Hh. unfold initHeaderScroll. js_run.
  by rewrite Hh.
Qed.

Lemma sliderBootstrap_idle (p : Page) :
  sliderPresent p = false → sliderBootstrap p = (Normal tt, p).
Proof.
  unfold sliderPresent. intros Hs. unfold sliderBootstrap. js_run.
  destruct (truthy (head (document_querySelectorAll [ByClass "hero-slider"] p)));
    [|done].
  cbn [andb] in Hs. apply negb_false_iff in Hs.
  unfold initSlider. js_run. by rewrite Hs.
Qed.

(** C8. No initialization ever raises an error, on any page.  A controller
    whose guard finds its elements missing returns with the page exactly as
    it was: no listener, timer or observation registered, no element and no
    stored value changed. *)
Theorem inactive_controllers_do_nothing (p : Page) :
  (∃ p', domContentLoaded p = (Normal tt, p'))
  ∧ (∃ p', sliderBootstrap p = (Normal tt, p'))
  ∧ (menuPresent p = false → dropdownPresent p = false →
     initNavigation p = (Normal tt, p))
  ∧ (searchPresent p = false → initSearch p = (Normal tt, p))
  ∧ (tabsPresent p = false → initTabs p = (Normal tt, p))
  ∧ (countersPresent p = false → fadePresent p = false →
     initAnimations p = (Normal tt, p))
  ∧ (headerPresent p = false → initHeaderScroll p = (Normal tt, p))
  ∧ (sliderPresent p = false → sliderBootstrap p = (Normal tt, p)).
Proof.
  split; [apply domContentLoaded_normal|].
  split; [apply sliderBootstrap_normal|].
  split; [apply initNavigation_idle|].
  split; [apply initSearch_idle|].
  split; [apply initTabs_idle|].
  split; [apply initAnimations_idle|].
  split; [apply initHeaderScroll_idle|].
  apply sliderBootstrap_idle.
Qed.

Lemma inactive_controllers_do_nothing_witness :
  initNavigation tabsPage = (Normal tt, tabsPage)
  ∧ initSearch tabsPage = (Normal tt, tabsPage)
  ∧ initAnimations tabsPage = (Normal tt, tabsPage)
  ∧ initHeaderScroll tabsPage = (Normal tt, tabsPage)
  ∧ sliderBootstrap tabsPage = (Normal tt, tabsPage)
  ∧ initTabs emptyPage = (Normal tt, emptyPage).
Proof.
  destruct (inactive_controllers_do_nothing tabsPage)
    as (_ & _ & Hnav & Hsearch & _ & Hanim & Hheader & Hslider).
  destruct (inactive_controllers_do_nothing emptyPage)
    as (_ & _ & _ & _ & Htabs & _).
  split; [apply Hnav; reflexivity|].
  split; [apply Hsearch; reflexivity|].
  split; [apply Hanim; reflexivity|].
  split; [apply Hheader; reflexivity|].
  split; [apply Hslider; reflexivity|].
  apply Htabs; reflexivity.
Defined.

(** * Further properties of the script *)

(** ** Views of the page that a computation leaves alone *)

Lemma keeps_mret {X A} (f : Page → X) (a : A) : keeps f (mret a : JS A).
Proof. by intros p. Qed.

Lemma keeps_throw {X A} (f : Page → X) (e : string) : keeps f (throw e : JS A).
Proof. by intros p. Qed.

Lemma keeps_read {X A} (f : Page → X) (g : Page → A) : keeps f (read g).
Proof. by intros p. Qed.

Lemma keeps_modify {X} (f : Page → X) (g : Page → Page) :
  (∀ p, f (g p) = f p) → keeps f (modify g).
Proof. intros Hg p. apply Hg. Qed.

Lemma keeps_bind {X A B} (f : Page → X) (m : JS A) (k : A → JS B) :
  keeps f m → (∀ a, keeps f (k a)) → keeps f (m ≫= k).
Proof.
  intros Hm Hk p. unfold mbind, JS_bind. specialize (Hm p).
  destruct (m p) as [[a|e] p1]; cbn in *; [|done].
  by rewrite (Hk a p1).
Qed.

Lemma keeps_deref {X} (f : Page → X) (r : Ref) : keeps f (deref r).
Proof. destruct r; [apply keeps_mret | apply keeps_throw]. Qed.

Lemma keeps_if {X A} (f : Page → X) (b : bool) (m1 m2 : JS A) :
  keeps f m1 → keeps f m2 → keeps f (if b then m1 else m2).
Proof. by destruct b. Qed.

Lemma keeps_forEach {X A} (f : Page → X) (l : list A) (body : A → JS unit) :
  (∀ x, keeps f (body x)) → keeps f (forEach l body).
Proof.
  intros Hbody. induction l as [|x l IH]; [apply keeps_mret|].
  cbn [forEach]. apply keeps_bind; [apply Hbody | by intros _].
Qed.

Lemma keeps_forEach_indexed {X A} (f : Page → X) (l : list A)
    (body : A → nat → JS unit) (i : nat) :
  (∀ x j, keeps f (body x j)) → keeps f (forEach_indexed i l body).
Proof.
  intros Hbody. revert i. induction l as [|x l IH]; intros i; [apply keeps_mret|].
  cbn [forEach_indexed]. apply keeps_bind; [apply Hbody | by intros _].
Qed.

Lemma keeps_returns {X A} (f : Page → X) (m : JS A) (p p' : Page) (a : A) :
  keeps f m → m p = (Normal a, p') → f p' = f p.
Proof. intros Hm Hrun. specialize (Hm p). by rewrite Hrun in Hm. Qed.

(** The structure of a computation, down to its page updates. *)
Ltac keeps_structure :=
  repeat lazymatch goal with
    | |- keeps _ _ =>
        first
          [ apply keeps_mret | apply keeps_throw | apply keeps_read
          | apply keeps_deref | apply keeps_bind | apply keeps_if
          | apply keeps_forEach | apply keeps_forEach_indexed
          | apply keeps_modify ]
    | |- ∀ _, _ => intro
    end.

(** What an update of one element object leaves alone. *)
Lemma element_update_other (n m : NodeId) (g : Element → Element) (p : Page) :
  n ≠ m → element n (update m g p) = element n p.
Proof. intros Hne. by rewrite element_update, decide_False. Qed.

Lemma classes_update_other_field (n m : NodeId) (g : Element → Element) (p : Page) :
  (∀ e, classList (g e) = classList e) →
  classes n (update m g p) = classes n p.
Proof.
  intros Hg. unfold classes. rewrite element_update. case_decide; [subst|done].
  destruct (element m p); [cbn; apply Hg | done].
Qed.

Lemma has_class_updated (c : string) (n : NodeId) (g : list string → list string)
    (p : Page) :
  is_Some (element n p) →
  has_class c n (update n (with_classList g) p)
  = bool_decide (c ∈ g (classes n p)).
Proof.
  intros [e He]. unfold has_class, classes.
  by rewrite element_update, decide_True, He.
Qed.

(** ** Header scroll controller *)




(** ** Dropdown items *)

Lemma attribute_updated (n : NodeId) (a v : string) (p : Page) :
  is_Some (element n p) →
  attribute n a (update n (with_attribute a v) p) = Some v.
Proof.
  intros [e He]. unfold attribute.
  rewrite element_update, decide_True, He by done. cbn. apply lookup_insert_eq.
Qed.




(** ** Queries after updates that leave tags and parents alone *)

Lemma keepsShape_classList (g : list string → list string) :
  keepsShape (with_classList g).
Proof. by intros e. Qed.
Lemma keepsShape_attribute (a v : string) : keepsShape (with_attribute a v).
Proof. by intros e. Qed.
Lemma keepsShape_style (k v : string) : keepsShape (with_style k v).
Proof. by intros e. Qed.
Lemma keepsShape_textContent (t : string) : keepsShape (with_textContent t).
Proof. by intros e. Qed.

Lemma length_nodes_update (m : NodeId) (g : Element → Element) (p : Page) :
  length (nodes (update m g p)) = length (nodes p).
Proof. destruct m; try done. cbn. apply length_alter. Qed.

Lemma parent_of_update (n m : NodeId) (g : Element → Element) (p : Page) :
  keepsShape g → parent_of n (update m g p) = parent_of n p.
Proof.
  intros Hg. destruct n as [| | |i]; try done.
  unfold parent_of. rewrite element_update. case_decide; [subst|done].
  destruct (element (Node i) p) as [e|]; [cbn; apply Hg | done].
Qed.

Lemma descends_update (fuel : nat) (root n m : NodeId) (g : Element → Element)
    (p : Page) :
  keepsShape g → descends fuel (update m g p) root n = descends fuel p root n.
Proof.
  intros Hg. revert n. induction fuel as [|fuel IH]; intros n; [done|].
  cbn [descends]. rewrite parent_of_update by done.
  destruct (parent_of n p); [by rewrite IH | done].
Qed.

Lemma inside_update (root n m : NodeId) (g : Element → Element) (p : Page) :
  keepsShape g → inside (update m g p) root n = inside p root n.
Proof.
  intros Hg. unfold inside. by rewrite length_nodes_update, descends_update.
Qed.

Lemma selects_tag_update (t : string) (n m : NodeId) (g : Element → Element)
    (p : Page) :
  keepsShape g → selects [ByTag t] n (update m g p) = selects [ByTag t] n p.
Proof.
  intros Hg. unfold selects. rewrite element_update. case_decide; [subst|done].
  destruct (element m p) as [e|]; [|done]. cbn.
  by rewrite (proj1 (Hg e)).
Qed.

(** A query by tag name does not see changes of classes, attributes,
    styles or text. *)
Lemma query_tag_update (root m : NodeId) (t : string) (g : Element → Element)
    (p : Page) :
  keepsShape g →
  querySelectorAll_in root [ByTag t] (update m g p)
  = querySelectorAll_in root [ByTag t] p.
Proof.
  intros Hg. unfold querySelectorAll_in, all_nodes.
  rewrite length_nodes_update. apply List.filter_ext. intros n.
  by rewrite inside_update, selects_tag_update.
Qed.

(** ** Attributes, styles and focus under updates *)

Lemma attribute_update_attribute_ne (n m : NodeId) (a a' v : string) (p : Page) :
  a ≠ a' → attribute n a (update m (with_attribute a' v) p) = attribute n a p.
Proof.
  intros Hne. unfold attribute. rewrite element_update. case_decide; [subst|done].
  destruct (element m p); [|done]. cbn. by rewrite lookup_insert_ne.
Qed.

Lemma attribute_update_classList (n m : NodeId) (a : string)
    (g : list string → list string) (p : Page) :
  attribute n a (update m (with_classList g) p) = attribute n a p.
Proof.
  unfold attribute. rewrite element_update. case_decide; [subst|done].
  by destruct (element m p).
Qed.

Lemma attribute_update_style (n m : NodeId) (a k v : string) (p : Page) :
  attribute n a (update m (with_style k v) p) = attribute n a p.
Proof.
  unfold attribute. rewrite element_update. case_decide; [subst|done].
  by destruct (element m p).
Qed.

Lemma attribute_set_activeElement (n : NodeId) (a : string) (r : Ref) (p : Page) :
  attribute n a (set_activeElement r p) = attribute n a p.
Proof. unfold attribute. by rewrite element_set_activeElement. Qed.

Lemma styleOf_set_activeElement (n : NodeId) (k : string) (r : Ref) (p : Page) :
  styleOf n k (set_activeElement r p) = styleOf n k p.
Proof. unfold styleOf. by rewrite element_set_activeElement. Qed.

Lemma styleOf_updated (n : NodeId) (k v : string) (p : Page) :
  is_Some (element n p) → styleOf n k (update n (with_style k v) p) = Some v.
Proof.
  intros [e He]. unfold styleOf.
  rewrite element_update, decide_True, He by done. cbn. apply lookup_insert_eq.
Qed.

Lemma activeElement_update (m : NodeId) (g : Element → Element) (p : Page) :
  activeElement (update m g p) = activeElement p.
Proof. by destruct m. Qed.

(** ** Mobile menu: opening and closing *)

(** X3. Opening the mobile menu marks the trigger expanded, locks the page
    scroll and moves the focus to the first link inside the menu (the focus
    stays where it is when the menu has no link); closing it afterwards
    leaves the menu hidden and without the marker, the trigger collapsed,
    the scroll lock released and the focus on the trigger. *)
Theorem menu_opens_and_closes (p : Page) (b m : NodeId) :
  is_Some (element b p) →
  is_Some (element m p) →
  ∃ p1 p2,
    openMobileMenu (Some b) (Some m) p = (Normal tt, p1)
    ∧ attribute b "aria-expanded" p1 = Some "true"
    ∧ styleOf Body "overflow" p1 = Some "hidden"
    ∧ activeElement p1
      = match head (querySelectorAll_in m [ByTag "a"] p) with
        | Some link => Some link
        | None => activeElement p
        end
    ∧ closeMobileMenu (Some b) (Some m) p1 = (Normal tt, p2)
    ∧ attribute m "aria-hidden" p2 = Some "true"
    ∧ has_class "active" m p2 = false
    ∧ attribute b "aria-expanded" p2 = Some "false"
    ∧ styleOf Body "overflow" p2 = Some ""
    ∧ activeElement p2 = Some b.
Proof.
  intros Hb Hm.
  set (q := update Body (with_style "overflow" "hidden")
              (update b (with_attribute "aria-expanded" "true")
                 (update m (with_attribute "aria-hidden" "false")
                    (update m (with_classList (tokens_add "active")) p)))).
  assert (Hlink : querySelectorAll_in m [ByTag "a"] q
                  = querySelectorAll_in m [ByTag "a"] p).
  { subst q. rewrite !query_tag_update;
      auto using keepsShape_classList, keepsShape_attribute, keepsShape_style. }
  assert (Hkeep : keepsElements p q).
  { subst q. repeat (eapply keepsElements_trans; [|apply update_keepsElements]).
    apply keepsElements_refl. }
  assert (Hexp : attribute b "aria-expanded" q = Some "true").
  { subst q. rewrite attribute_update_style. apply attribute_updated.
    by do 2 apply update_keepsElements. }
  assert (Hflow : styleOf Body "overflow" q = Some "hidden").
  { subst q. by apply styleOf_updated. }
  assert (Hfocus : activeElement q = activeElement p).
  { subst q. by rewrite !activeElement_update. }
  set (p1 := match head (querySelectorAll_in m [ByTag "a"] p) with
             | Some link => set_activeElement (Some link) q
             | None => q
             end).
  assert (Hopen : openMobileMenu (Some b) (Some m) p = (Normal tt, p1)).
  { unfold openMobileMenu. js_run. fold q. rewrite Hlink. subst p1.
    by destruct (head (querySelectorAll_in m [ByTag "a"] p)). }
  assert (Hkeep1 : keepsElements p p1).
  { subst p1. destruct (head _) as [link|]; [|done].
    intros n Hn. rewrite element_set_activeElement. by apply Hkeep. }
  exists p1. eexists. split; [exact Hopen|].
  split; [|split; [|split; [|split; [unfold closeMobileMenu; js_run; reflexivity|]]]].
  - subst p1. destruct (head _); [|done]. by rewrite attribute_set_activeElement.
  - subst p1. destruct (head _); [|done]. by rewrite styleOf_set_activeElement.
  - subst p1. by destruct (head _).
  - assert (Hm1 : is_Some (element m p1)) by by apply Hkeep1.
    assert (Hb1 : is_Some (element b p1)) by by apply Hkeep1.
    split; [|split; [|split; [|split]]].
    + rewrite attribute_set_activeElement, attribute_update_style.
      rewrite attribute_update_attribute_ne by done.
      apply attribute_updated. by apply update_keepsElements.
    + unfold has_class, classes. rewrite element_set_activeElement.
      fold (classes m (update Body (with_style "overflow" "")
              (update b (with_attribute "aria-expanded" "false")
                 (update m (with_attribute "aria-hidden" "true")
                    (update m (with_classList
                       (λ l, foldl (λ acc c, tokens_remove c acc) l ["active"])) p1))))).
      rewrite !classes_update_other_field by done.
      fold (has_class "active" m
              (update m (with_classList
                 (λ l, foldl (λ acc c, tokens_remove c acc) l ["active"])) p1)).
      rewrite has_class_updated by done. cbn [foldl]. apply tokens_remove_out.
    + rewrite attribute_set_activeElement, attribute_update_style.
      apply attribute_updated. by do 2 apply update_keepsElements.
    + rewrite styleOf_set_activeElement. by apply styleOf_updated.
    + reflexivity.
Qed.

Lemma menu_opens_and_closes_witness :
  ∃ p1 p2,
    openMobileMenu (Some (Node 0)) (Some (Node 1)) overlayPage = (Normal tt, p1)
    ∧ attribute (Node 0) "aria-expanded" p1 = Some "true"
    ∧ styleOf Body "overflow" p1 = Some "hidden"
    ∧ activeElement p1
      = match head (querySelectorAll_in (Node 1) [ByTag "a"] overlayPage) with
        | Some link => Some link
        | None => activeElement overlayPage
        end
    ∧ closeMobileMenu (Some (Node 0)) (Some (Node 1)) p1 = (Normal tt, p2)
    ∧ attribute (Node 1) "aria-hidden" p2 = Some "true"
    ∧ has_class "active" (Node 1) p2 = false
    ∧ attribute (Node 0) "aria-expanded" p2 = Some "false"
    ∧ styleOf Body "overflow" p2 = Some ""
    ∧ activeElement p2 = Some (Node 0).
Proof.
  apply (menu_opens_and_closes overlayPage (Node 0) (Node 1));
    vm_compute; eauto.
Defined.

(** ** Search overlay: opening and closing *)

(** X4. Opening the search overlay locks the page scroll and moves the focus
    to the search input when the overlay has one (otherwise the focus stays
    where it is); closing it afterwards leaves the overlay hidden and without
    the marker, the scroll lock released and the focus on the toggle. *)
Theorem search_opens_and_closes (p : Page) (t ov : NodeId) (input : Ref) :
  is_Some (element ov p) →
  ∃ p1 p2,
    openSearch (Some ov) input p = (Normal tt, p1)
    ∧ styleOf Body "overflow" p1 = Some "hidden"
    ∧ activeElement p1 = match input with
                         | Some i => Some i
                         | None => activeElement p
                         end
    ∧ closeSearch (Some t) (Some ov) p1 = (Normal tt, p2)
    ∧ attribute ov "aria-hidden" p2 = Some "true"
    ∧ has_class "active" ov p2 = false
    ∧ styleOf Body "overflow" p2 = Some ""
    ∧ activeElement p2 = Some t.
Proof.
  intros Hov.
  assert (Hopen : ∃ p1, openSearch (Some ov) input p = (Normal tt, p1)
            ∧ keepsElements p p1
            ∧ styleOf Body "overflow" p1 = Some "hidden"
            ∧ activeElement p1 = match input with
                                 | Some i => Some i
                                 | None => activeElement p
                                 end).
  { unfold openSearch. js_run. destruct input as [i|];
      cbn [truthy bool_decide decide_rel is_Some_dec]; cbv iota beta;
      (eexists; split; [reflexivity|]; split; [|split]).
    - intros n Hn. apply update_keepsElements.
      rewrite element_set_activeElement. by do 2 apply update_keepsElements.
    - by apply styleOf_updated.
    - by rewrite activeElement_update.
    - intros n Hn. by do 3 apply update_keepsElements.
    - by apply styleOf_updated.
    - by rewrite !activeElement_update. }
  destruct Hopen as (p1 & Hopen & Hkeep & Hflow & Hfocus).
  assert (Hov1 : is_Some (element ov p1)) by by apply Hkeep.
  exists p1. eexists. split; [exact Hopen|]. split; [exact Hflow|].
  split; [exact Hfocus|].
  split; [unfold closeSearch; js_run; reflexivity|].
  split; [|split; [|split]].
  - rewrite attribute_set_activeElement, attribute_update_style.
    by apply attribute_updated, update_keepsElements.
  - unfold has_class, classes. rewrite element_set_activeElement.
    fold (classes ov (update Body (with_style "overflow" "")
            (update ov (with_attribute "aria-hidden" "true")
               (update ov (with_classList
                  (λ l, foldl (λ acc c, tokens_remove c acc) l ["active"])) p1)))).
    rewrite !classes_update_other_field by done.
    fold (has_class "active" ov
            (update ov (with_classList
               (λ l, foldl (λ acc c, tokens_remove c acc) l ["active"])) p1)).
    rewrite has_class_updated by done. cbn [foldl]. apply tokens_remove_out.
  - rewrite styleOf_set_activeElement. by apply styleOf_updated.
  - reflexivity.
Qed.

Lemma search_opens_and_closes_witness :
  ∃ p1 p2,
    openSearch (Some (Node 5)) (Some (Node 7)) overlayPage = (Normal tt, p1)
    ∧ styleOf Body "overflow" p1 = Some "hidden"
    ∧ activeElement p1 = Some (Node 7)
    ∧ closeSearch (Some (Node 4)) (Some (Node 5)) p1 = (Normal tt, p2)
    ∧ attribute (Node 5) "aria-hidden" p2 = Some "true"
    ∧ has_class "active" (Node 5) p2 = false
    ∧ styleOf Body "overflow" p2 = Some ""
    ∧ activeElement p2 = Some (Node 4).
Proof.
  apply (search_opens_and_closes overlayPage (Node 4) (Node 5) (Some (Node 7))).
  vm_compute. eauto.
Defined.

(** ** Overlay events that are no transition *)

(** X5. A key other than Escape, Escape while the overlay is not active, a
    click inside an overlay that does not hit the overlay itself, and any
    event for which no listener was registered, leave the page exactly as it
    is. *)
Theorem idle_overlay_event_changes_nothing
    (o : Overlays) (e : OverlayEvent) (p : Page) :
  menuTransition o e p = false →
  searchTransition o e p = false →
  overlayEvent o e p = (Normal tt, p).
Proof.
  assert (Hmenu : ∀ key,
            menuListens o && (bool_decide (key = "Escape")
                              && isActive (mobileMenu o) p) = false →
            menuKeydown o key p = (Normal tt, p)).
  { intros key Hidle. unfold menuKeydown, whenListening.
    destruct (menuListens o) eqn:Hl; [|done].
    destruct (menuListens_refs o Hl) as (b & m & -> & Hm).
    rewrite Hm in *. cbn [andb isActive] in Hidle.
    unfold escapeMobileMenu. destruct (bool_decide (key = "Escape")); [|done].
    cbn [andb] in Hidle. js_run. by rewrite Hidle. }
  unfold menuTransition, searchTransition.
  destruct e as [| |target| | |target|key]; cbn [overlayEvent];
    rewrite ?andb_true_r, ?andb_false_r; intros Hm Hs.
  - unfold whenListening. by rewrite Hm.
  - unfold whenListening. by rewrite Hm.
  - unfold whenListening. destruct (menuListens o); [|done].
    cbn [andb] in Hm. unfold backdropMobileMenu. by rewrite Hm.
  - unfold whenListening. by rewrite Hs.
  - unfold whenListening. by rewrite Hs.
  - unfold whenListening. destruct (searchListens o); [|done].
    cbn [andb] in Hs. unfold backdropSearch. by rewrite Hs.
  - specialize (Hmenu key Hm).
    rewrite (run_bind _ _ _ _ _ Hmenu).
    unfold exec in Hs. rewrite Hmenu in Hs. cbn [snd] in Hs.
    unfold searchKeydown, whenListening.
    destruct (searchListens o) eqn:Hl; [|done].
    destruct (searchListens_refs o Hl) as (t & ov & -> & Hov).
    rewrite Hov in *. cbn [andb isActive] in Hs.
    unfold escapeSearch. destruct (bool_decide (key = "Escape")); [|done].
    cbn [andb] in Hs. js_run. by rewrite Hs.
Qed.

Lemma idle_overlay_event_changes_nothing_witness :
  overlayEvent (overlaysOf overlayPage) (Keydown "Escape") overlayPage
  = (Normal tt, overlayPage)
  ∧ overlayEvent (overlaysOf overlayPage) (MenuClick (Node 3)) overlayPage
    = (Normal tt, overlayPage).
Proof.
  split.
  - apply (idle_overlay_event_changes_nothing (overlaysOf overlayPage)
             (Keydown "Escape") overlayPage); reflexivity.
  - apply (idle_overlay_event_changes_nothing (overlaysOf overlayPage)
             (MenuClick (Node 3)) overlayPage); reflexivity.
Defined.

(** ** Announcer: one status node per call, gone after its timeout *)

Lemma in_all_nodes (i : nat) (p : Page) :
  (i < length (nodes p))%nat → In (Node i) (all_nodes p).
Proof.
  intros Hi. unfold all_nodes. do 3 right.
  apply in_map, in_seq. lia.
Qed.

(** X6. A call of the announcer appends one status node to the body, which
    document queries find, and schedules one timeout of 1000 ms.  When that
    timeout fires the pending timers are those from before the call, the
    node is detached, so that no document query finds it any more, and
    every element that existed before the call is as it was. *)
Theorem announcement_comes_and_goes (p : Page) (msg : string) :
  timersFresh p = true →
  let node := Node (length (nodes p)) in
  let id := nextTimer p in
  ∃ p1 p2,
    announceToScreenReader msg p = (Normal tt, p1)
    ∧ element node p1 = Some (announcement msg)
    ∧ node ∈ document_querySelectorAll [ByClass "sr-only"] p1
    ∧ timers p1 = timers p ++ [mkTimer id 1000 false (RemoveAnnouncement node)]
    ∧ fireTimer id p1 = (Normal tt, p2)
    ∧ timers p2 = timers p
    ∧ (∀ sel, node ∉ document_querySelectorAll sel p2)
    ∧ (∀ n, is_Some (element n p) → element n p2 = element n p).
Proof.
  intros Hfresh node id.
  pose proof (fresh_other p Hfresh) as Hother. fold id in Hother.
  set (p1 := exec (announceToScreenReader msg) p).
  assert (Hnode : element node p1 = Some (announcement msg)).
  { subst p1 node. cbn [element]. rewrite announce_nodes.
    by rewrite lookup_app_r, Nat.sub_diag by lia. }
  assert (Htimers : timers p1
            = timers p ++ [mkTimer id 1000 false (RemoveAnnouncement node)]).
  { apply announce_timers. }
  set (p2 := update node (with_parentNode None)
               (set_timers (List.filter (λ t, negb (timerId t =? id)%nat)) p1)).
  assert (Hfire : fireTimer id p1 = (Normal tt, p2)).
  { unfold fireTimer. js_run. rewrite Htimers.
    rewrite (find_after_others id [] (timers p)) by done.
    reflexivity. }
  exists p1, p2. split; [apply announce_returns|]. split; [exact Hnode|].
  split; [|split; [exact Htimers|split; [exact Hfire|split; [|split]]]].
  - unfold document_querySelectorAll.
    rewrite list_elem_of_In, List.filter_In. split.
    + apply in_all_nodes. subst p1. rewrite announce_length. lia.
    + apply andb_true_iff. split.
      * apply orb_true_iff. right. unfold inside.
        change (3 + length (nodes p1))%nat with (S (S (S (length (nodes p1))))).
        cbn [descends]. unfold parent_of at 1. rewrite Hnode. cbn.
        reflexivity.
      * unfold selects. rewrite Hnode. reflexivity.
  - subst p2. rewrite update_timers. cbn [timers set_timers]. rewrite Htimers.
    rewrite List.filter_app. cbn [List.filter timerId].
    rewrite Nat.eqb_refl. cbn [negb]. rewrite (filter_other id) by done.
    apply app_nil_r.
  - intros sel. unfold document_querySelectorAll.
    rewrite list_elem_of_In, List.filter_In. intros [_ Hin].
    apply andb_true_iff in Hin as [Hin _].
    apply orb_true_iff in Hin as [Hin | Hin]; [done|].
    unfold inside in Hin.
    change (3 + length (nodes p2))%nat with (S (S (S (length (nodes p2))))) in Hin.
    cbn [descends] in Hin.
    assert (Hparent : parent_of node p2 = None).
    { unfold parent_of, node. fold node. subst p2.
      rewrite element_update, decide_True by done.
      rewrite element_set_timers. by rewrite Hnode. }
    by rewrite Hparent in Hin.
  - intros n Hn.
    assert (Hne : n ≠ node).
    { intros ->. subst node. cbn in Hn. apply lookup_lt_is_Some in Hn. lia. }
    subst p2. rewrite element_update_other by done.
    rewrite element_set_timers. by apply announce_element.
Qed.

Lemma announcement_comes_and_goes_witness :
  ∃ p1 p2,
    announceToScreenReader "Font size changed" tabsPage = (Normal tt, p1)
    ∧ element (Node 3) p1 = Some (announcement "Font size changed")
    ∧ Node 3 ∈ document_querySelectorAll [ByClass "sr-only"] p1
    ∧ timers p1 = timers tabsPage
                  ++ [mkTimer 0 1000 false (RemoveAnnouncement (Node 3))]
    ∧ fireTimer 0 p1 = (Normal tt, p2)
    ∧ timers p2 = timers tabsPage
    ∧ (∀ sel, Node 3 ∉ document_querySelectorAll sel p2)
    ∧ (∀ n, is_Some (element n tabsPage) → element n p2 = element n tabsPage).
Proof.
  apply (announcement_comes_and_goes tabsPage "Font size changed").
  reflexivity.
Defined.

(** ** Tabs: what a click leaves alone, and where an arrow key leads *)

Lemma textOf_update_field (n m : NodeId) (g : Element → Element) (p : Page) :
  (∀ e, textContent (g e) = textContent e) →
  textOf n (update m g p) = textOf n p.
Proof.
  intros Hg. unfold textOf. rewrite element_update. case_decide; [subst|done].
  destruct (element m p); [cbn; apply Hg | done].
Qed.

Lemma nextTimer_update (m : NodeId) (g : Element → Element) (p : Page) :
  nextTimer (update m g p) = nextTimer p.
Proof. by destruct m. Qed.

Lemma keeps_announce_activeElement (msg : string) :
  keeps activeElement (announceToScreenReader msg).
Proof. intros p. apply announce_activeElement. Qed.

(** Deselecting and selecting change classes and attributes only. *)
Lemma deselect_keeps {X} (f : Page → X) (tabs : list NodeId) :
  (∀ n g p, f (update n (with_classList g) p) = f p) →
  (∀ n a v p, f (update n (with_attribute a v) p) = f p) →
  keeps f (forEach tabs (λ t,
    classList_remove (Some t) ["active"];;
    setAttribute (Some t) "aria-selected" "false")).
Proof.
  intros Hc Ha. unfold classList_remove, setAttribute.
  keeps_structure; [apply Hc | apply Ha].
Qed.

Lemma tabClick_keeps_activeElement (tabs : list NodeId) (tab : NodeId) :
  keeps activeElement (tabClick tabs tab).
Proof.
  unfold tabClick. apply keeps_bind.
  { apply deselect_keeps; intros; apply activeElement_update. }
  intros _. unfold classList_add, setAttribute, get_textContent.
  apply keeps_bind; [keeps_structure; apply activeElement_update|]. intros _.
  apply keeps_bind; [keeps_structure; apply activeElement_update|]. intros _.
  apply keeps_bind; [keeps_structure|]. intros label.
  apply keeps_announce_activeElement.
Qed.

Lemma targetIndex_wraps (tabs : list NodeId) (index : nat) (key : string) :
  (index < length tabs)%nat →
  key = "ArrowRight" ∨ key = "ArrowLeft" →
  targetIndex tabs index key
  = Some (if bool_decide (key = "ArrowRight")
          then ((index + 1) `mod` length tabs)%nat
          else ((index + length tabs - 1) `mod` length tabs)%nat).
Proof.
  intros Hindex [-> | ->]; unfold targetIndex.
  - rewrite !bool_decide_eq_true_2 by done. f_equal.
    destruct (Nat.leb_spec (length tabs) (index + 1)) as [Hwrap | Hin].
    + assert (index + 1 = length tabs)%nat as -> by lia.
      by rewrite Nat.Div0.mod_same.
    + by rewrite Nat.mod_small.
  - rewrite !bool_decide_eq_false_2 by done.
    rewrite bool_decide_eq_true_2 by done. f_equal.
    destruct (Nat.eqb_spec index 0) as [-> | Hpos].
    + rewrite Nat.mod_small; lia.
    + replace (index + length tabs - 1)%nat
        with (index - 1 + 1 * length tabs)%nat by lia.
      rewrite Nat.Div0.mod_add. rewrite Nat.mod_small; lia.
Qed.

(** ** Intersection observers *)

Lemma isObserved_unobserve (o : Observation) (p : Page) :
  isObserved o (set_observed (List.filter (λ o', negb (bool_decide (o' = o)))) p) = false.
Proof.
  unfold isObserved. apply bool_decide_eq_false_2. cbn.
  intros Hin. apply list_elem_of_In, filter_In in Hin. destruct Hin as [_ Hne].
  by rewrite bool_decide_eq_true_2 in Hne.
Qed.

Lemma deliver_unobserved (o : Observation) (b : bool) (p : Page) :
  isObserved o p = false → deliver o b p = (Normal tt, p).
Proof.
  unfold isObserved, deliver. intros Ho. js_run. by rewrite Ho.
Qed.

Lemma deliver_observed (o : Observation) (b : bool) (p : Page) :
  isObserved o p = true → deliver o b p = intersectionCallback o b p.
Proof.
  unfold isObserved, deliver. intros Ho. js_run. by rewrite Ho.
Qed.

(** X9. A counter is animated at most once.  When the observer reports an
    observed counter as intersecting, one interval of 16 ms is started for it,
    from 0 towards the number its [data-count] parses to, and the counter is
    no longer observed: every later report, and any report that the counter
    does not intersect, leaves the page as it is. *)
Theorem counter_animates_once (p : Page) (el : NodeId) :
  isObserved (ObserveCounter el) p = true →
  let target := parseInt (attribute_toString (attribute el "data-count" p)) in
  ∃ p1,
    deliver (ObserveCounter el) true p = (Normal tt, p1)
    ∧ timers p1 = timers p ++ [counterTimer (nextTimer p) el target (stepOf target) 0]
    ∧ nodes p1 = nodes p
    ∧ isObserved (ObserveCounter el) p1 = false
    ∧ (∀ b, deliver (ObserveCounter el) b p1 = (Normal tt, p1))
    ∧ deliver (ObserveCounter el) false p = (Normal tt, p).
Proof.
  intros Ho target.
  eexists. split; [|split; [|split; [|split; [|split]]]].
  - rewrite deliver_observed by done.
    unfold intersectionCallback, counterIntersect, animateCounter, unobserve.
    js_run. reflexivity.
  - reflexivity.
  - reflexivity.
  - apply isObserved_unobserve.
  - intros b. apply deliver_unobserved, isObserved_unobserve.
  - by rewrite deliver_observed.
Qed.

Lemma counter_animates_once_witness :
  let p := exec initAnimations animatedPage in
  let target := parseInt (attribute_toString (attribute (Node 0) "data-count" p)) in
  ∃ p1,
    deliver (ObserveCounter (Node 0)) true p = (Normal tt, p1)
    ∧ timers p1
      = timers p ++ [counterTimer (nextTimer p) (Node 0) target (stepOf target) 0]
    ∧ nodes p1 = nodes p
    ∧ isObserved (ObserveCounter (Node 0)) p1 = false
    ∧ (∀ b, deliver (ObserveCounter (Node 0)) b p1 = (Normal tt, p1))
    ∧ deliver (ObserveCounter (Node 0)) false p = (Normal tt, p).
Proof.
  apply (counter_animates_once (exec initAnimations animatedPage) (Node 0)).
  vm_compute. reflexivity.
Defined.

Lemma element_set_observed (n : NodeId) (f : list Observation → list Observation)
    (p : Page) :
  element n (set_observed f p) = element n p.
Proof. by destruct n. Qed.

Lemma styleOf_set_observed (n : NodeId) (k : string)
    (f : list Observation → list Observation) (p : Page) :
  styleOf n k (set_observed f p) = styleOf n k p.
Proof. unfold styleOf. by rewrite element_set_observed. Qed.

Lemma styleOf_update_ne (n m : NodeId) (k k' v : string) (p : Page) :
  k ≠ k' → styleOf n k (update m (with_style k' v) p) = styleOf n k p.
Proof.
  intros Hne. unfold styleOf. rewrite element_update. case_decide; [subst|done].
  destruct (element m p); [|done]. cbn. by rewrite lookup_insert_ne.
Qed.

Lemma observed_update (m : NodeId) (g : Element → Element) (p : Page) :
  observed (update m g p) = observed p.
Proof. by destruct m. Qed.

Lemma query_set_observed (sel : Selector) (f : list Observation → list Observation)
    (p : Page) :
  document_querySelectorAll sel (set_observed f p) = document_querySelectorAll sel p.
Proof.
  assert (Hdesc : ∀ fuel root n,
            descends fuel (set_observed f p) root n = descends fuel p root n).
  { induction fuel as [|fuel IH]; intros root n; [done|].
    cbn [descends].
    replace (parent_of n (set_observed f p)) with (parent_of n p)
      by (unfold parent_of; by rewrite element_set_observed).
    destruct (parent_of n p); [by rewrite IH | done]. }
  unfold document_querySelectorAll, all_nodes, inside, selects.
  change (nodes (set_observed f p)) with (nodes p).
  apply List.filter_ext. intros n.
  by rewrite Hdesc, element_set_observed.
Qed.

Lemma forEach_guard {A} (l : list A) (b : bool) (f : A → JS unit) :
  (if negb (length l =? 0)%nat && b then forEach l f else mret tt)
  = if b then forEach l f else mret tt.
Proof. by destruct l, b. Qed.

Lemma observe_all {A} (f : A → Observation) (l : list A) (p : Page) :
  forEach l (λ x, observe (f x)) p
  = (Normal tt, set_observed (λ o, o ++ map f l) p).
Proof.
  revert p. induction l as [|x l IH]; intros p.
  - destruct p. cbn [forEach map]. js_run. unfold set_observed. cbn.
    by rewrite app_nil_r.
  - cbn [forEach]. erewrite run_bind by reflexivity. rewrite IH.
    destruct p. unfold set_observed. cbn. by rewrite <- app_assoc.
Qed.

(** The loop of [initAnimations] over the elements that fade in. *)
Lemma prepare_all (l : list NodeId) (p : Page) :
  ∃ q,
    forEach l (λ el,
      set_style (Some el) "opacity" "0";;
      set_style (Some el) "transform" "translateY(20px)";;
      set_style (Some el) "transition" "opacity 0.6s ease, transform 0.6s ease";;
      observe (ObserveFade el)) p = (Normal tt, q)
    ∧ observed q = observed p ++ map ObserveFade l
    ∧ timers q = timers p
    ∧ keepsElements p q
    ∧ (∀ n, n ∉ l → element n q = element n p)
    ∧ (∀ n, n ∈ l → is_Some (element n p) →
            styleOf n "opacity" q = Some "0"
            ∧ styleOf n "transform" q = Some "translateY(20px)"
            ∧ styleOf n "transition" q
              = Some "opacity 0.6s ease, transform 0.6s ease").
Proof.
  revert p. induction l as [|el l IH]; intros p.
  { exists p. split; [done|]. split; [by rewrite app_nil_r|]. split; [done|].
    split; [apply keepsElements_refl|]. split; [done|].
    intros n Hn. by apply elem_of_nil in Hn. }
  set (p1 := set_observed (λ o, o ++ [ObserveFade el])
               (update el (with_style "transition"
                             "opacity 0.6s ease, transform 0.6s ease")
                  (update el (with_style "transform" "translateY(20px)")
                     (update el (with_style "opacity" "0") p)))).
  destruct (IH p1) as (q & Hrun & Hobs & Htimers & Hkeep & Hout & Hin).
  assert (Hkeep1 : keepsElements p p1).
  { intros n Hn. subst p1. rewrite element_set_observed.
    by do 3 apply element_update_is_Some. }
  exists q. split; [|split; [|split; [|split; [|split]]]].
  - cbn [forEach]. erewrite run_bind; [exact Hrun|].
    unfold observe. js_run. reflexivity.
  - rewrite Hobs. subst p1. cbn [map]. rewrite cons_middle, app_assoc. f_equal.
    by destruct p, el.
  - rewrite Htimers. subst p1. by destruct p, el.
  - by eapply keepsElements_trans.
  - intros n Hn. apply not_elem_of_cons in Hn as [Hne Hn].
    rewrite (Hout n Hn). subst p1.
    rewrite element_set_observed, !element_update. by rewrite !decide_False.
  - intros n Hn Hex.
    destruct (decide (n ∈ l)) as [Hl | Hl].
    + apply Hin; [done|]. by apply Hkeep1.
    + apply elem_of_cons in Hn as [-> | Hn]; [|done].
      unfold styleOf. rewrite (Hout el Hl). fold (styleOf el "opacity" p1).
      fold (styleOf el "transform" p1). fold (styleOf el "transition" p1).
      subst p1. rewrite !styleOf_set_observed.
      split; [|split].
      * rewrite !styleOf_update_ne by done. by apply styleOf_updated.
      * rewrite styleOf_update_ne by done.
        by apply styleOf_updated, element_update_is_Some.
      * by apply styleOf_updated; do 2 apply element_update_is_Some.
Qed.

(** X10. Where the browser has [IntersectionObserver], [initAnimations] puts
    every element with a [data-count] attribute and every card of the four
    fading classes under observation, in document order, and hides each card:
    opacity 0, shifted down by 20px, with the transition declared.  No other
    element is touched and no timer is started. *)
Theorem initAnimations_prepares (p : Page) :
  hasIntersectionObserver p = true →
  let counters := document_querySelectorAll [ByAttribute "data-count"] p in
  let fades := document_querySelectorAll fadeSelector p in
  ∃ p',
    initAnimations p = (Normal tt, p')
    ∧ observed p'
      = observed p ++ map ObserveCounter counters ++ map ObserveFade fades
    ∧ (∀ el, el ∈ fades →
         styleOf el "opacity" p' = Some "0"
         ∧ styleOf el "transform" p' = Some "translateY(20px)"
         ∧ styleOf el "transition" p'
           = Some "opacity 0.6s ease, transform 0.6s ease")
    ∧ (∀ n, n ∉ fades → element n p' = element n p)
    ∧ timers p' = timers p.
Proof.
  intros Hsupported counters fades.
  set (q := set_observed (λ o, o ++ map ObserveCounter counters) p).
  destruct (prepare_all fades q) as (p' & Hrun & Hobs & Htimers & _ & Hout & Hin).
  exists p'. split; [|split; [|split; [|split]]].
  - unfold initAnimations.
    rewrite (run_bind _ _ p p counters) by done.
    rewrite (run_bind _ _ p p true) by (unfold read; by rewrite Hsupported).
    rewrite forEach_guard.
    rewrite (run_bind _ _ _ _ _ (observe_all ObserveCounter counters p)).
    fold q. fold fadeSelector.
    rewrite (run_bind _ _ q q (document_querySelectorAll fadeSelector q)) by done.
    rewrite forEach_guard. subst q. rewrite query_set_observed. exact Hrun.
  - rewrite Hobs. subst q. destruct p. cbn. by rewrite app_assoc.
  - intros el Hel. apply Hin; [done|]. subst q. rewrite element_set_observed.
    by eapply document_query_valid.
  - intros n Hn. rewrite (Hout n Hn). subst q. apply element_set_observed.
  - rewrite Htimers. subst q. by destruct p.
Qed.

Lemma initAnimations_prepares_witness :
  ∃ p',
    initAnimations animatedPage = (Normal tt, p')
    ∧ observed p'
      = observed animatedPage
        ++ map ObserveCounter
             (document_querySelectorAll [ByAttribute "data-count"] animatedPage)
        ++ map ObserveFade (document_querySelectorAll fadeSelector animatedPage)
    ∧ (∀ el, el ∈ document_querySelectorAll fadeSelector animatedPage →
         styleOf el "opacity" p' = Some "0"
         ∧ styleOf el "transform" p' = Some "translateY(20px)"
         ∧ styleOf el "transition" p'
           = Some "opacity 0.6s ease, transform 0.6s ease")
    ∧ (∀ n, n ∉ document_querySelectorAll fadeSelector animatedPage →
         element n p' = element n animatedPage)
    ∧ timers p' = timers animatedPage.
Proof.
  apply (initAnimations_prepares animatedPage). reflexivity.
Defined.

(** X11. A card fades in once.  When the observer reports an observed card as
    intersecting, its opacity becomes 1 and its shift 0, the declared
    transition stays, and the card is no longer observed: every later report,
    and any report that the card does not intersect, leaves the page as it
    is. *)
Theorem fade_reveals_once (p : Page) (el : NodeId) :
  isObserved (ObserveFade el) p = true →
  is_Some (element el p) →
  ∃ p1,
    deliver (ObserveFade el) true p = (Normal tt, p1)
    ∧ styleOf el "opacity" p1 = Some "1"
    ∧ styleOf el "transform" p1 = Some "translateY(0)"
    ∧ styleOf el "transition" p1 = styleOf el "transition" p
    ∧ isObserved (ObserveFade el) p1 = false
    ∧ (∀ b, deliver (ObserveFade el) b p1 = (Normal tt, p1))
    ∧ deliver (ObserveFade el) false p = (Normal tt, p).
Proof.
  intros Ho Hel.
  eexists. split; [|split; [|split; [|split; [|split; [|split]]]]].
  - rewrite deliver_observed by done.
    unfold intersectionCallback, fadeIntersect, unobserve.
    js_run. reflexivity.
  - rewrite styleOf_set_observed, styleOf_update_ne by done.
    by apply styleOf_updated.
  - rewrite styleOf_set_observed.
    by apply styleOf_updated, element_update_is_Some.
  - by rewrite styleOf_set_observed, !styleOf_update_ne.
  - apply isObserved_unobserve.
  - intros b. apply deliver_unobserved, isObserved_unobserve.
  - by rewrite deliver_observed.
Qed.

Lemma fade_reveals_once_witness :
  let p := exec initAnimations animatedPage in
  ∃ p1,
    deliver (ObserveFade (Node 1)) true p = (Normal tt, p1)
    ∧ styleOf (Node 1) "opacity" p1 = Some "1"
    ∧ styleOf (Node 1) "transform" p1 = Some "translateY(0)"
    ∧ styleOf (Node 1) "transition" p1 = styleOf (Node 1) "transition" p
    ∧ isObserved (ObserveFade (Node 1)) p1 = false
    ∧ (∀ b, deliver (ObserveFade (Node 1)) b p1 = (Normal tt, p1))
    ∧ deliver (ObserveFade (Node 1)) false p = (Normal tt, p).
Proof.
  apply (fade_reveals_once (exec initAnimations animatedPage) (Node 1)).
  - vm_compute. reflexivity.
  - vm_compute. eauto.
Defined.

(** ** A counter without a number *)

Lemma is_nan_eq (x : float) : is_nan x = true → x = nan.
Proof.
  unfold is_nan. rewrite negb_true_iff. intros Hnan.
  pose proof (FloatAxioms.eqb_spec x x) as Hs. rewrite Hnan in Hs.
  unfold SFeqb in Hs.
  apply FloatAxioms.Prim2SF_inj.
  destruct (Prim2SF x) as [s| s| |s m e] eqn:Hx; cbn in Hs.
  - discriminate.
  - destruct s; discriminate.
  - reflexivity.
  - rewrite Z.compare_refl in Hs.
    change (PosDef.Pos.compare_cont Eq m m) with (Pos.compare m m) in Hs.
    rewrite Pos.compare_refl in Hs. destruct s; discriminate.
Qed.

Lemma add_nan (x : float) : (x + nan)%float = nan.
Proof.
  apply FloatAxioms.Prim2SF_inj. rewrite FloatAxioms.add_spec.
  change (Prim2SF nan) with S754_nan.
  unfold SF64add, SFadd. by destruct (Prim2SF x) as [[]|[]| |].
Qed.

Lemma nan_leb (x : float) : (nan <=? x)%float = false.
Proof.
  rewrite FloatAxioms.leb_spec. change (Prim2SF nan) with S754_nan.
  unfold SFleb, SFcompare. by destruct (Prim2SF x) as [[]|[]| |].
Qed.

Lemma nan_counter_runs (id : nat) (el : NodeId) (pre : list Timer) (n : nat)
    (current : float) (q : Page) :
  Forall (λ t, timerId t ≠ id) pre →
  animatingAmong pre [] id el nan nan current q →
  ∃ current' q',
    fireTimes n id q = (Normal tt, q')
    ∧ animatingAmong pre [] id el nan nan current' q'
    ∧ textOf el q' = match n with O => textOf el q | S _ => "NaN" end.
Proof.
  intros Hpre. revert current q.
  induction n as [|n IH]; intros current q Hq; [by exists current, q|].
  destruct (tick_continues id el nan nan pre [] Hpre (Forall_nil_2 _) current q Hq
              (nan_leb _))
    as (q1 & Hrun & Hq1 & Htext).
  destruct (IH _ q1 Hq1) as (current' & q' & Hrun' & Hq' & Htext').
  exists current', q'. split; [|split; [done|]].
  - cbn [fireTimes]. by rewrite (run_bind _ _ _ _ _ Hrun).
  - rewrite Htext'. destruct n; [|done].
    rewrite Htext, add_nan. reflexivity.
Qed.

(** X12. A counter whose [data-count] is missing or does not start with an
    integer never settles: its target is NaN, which no comparison reaches, so
    after any number of ticks the interval is still pending, and from the
    first tick on the element shows ["NaN"]. *)
Theorem nan_counter_never_settles (p : Page) (el : NodeId) (n : nat) :
  timersFresh p = true →
  is_Some (element el p) →
  is_nan (parseInt (attribute_toString (attribute el "data-count" p))) = true →
  timerPending (nextTimer p) (animation el n p) = true
  ∧ ((1 <= n)%nat → textOf el (animation el n p) = "NaN").
Proof.
  intros Hfresh Hel Hnan. apply is_nan_eq in Hnan.
  pose proof (fresh_other p Hfresh) as Hpre.
  assert (Hstart : ∃ q, animateCounter el p = (Normal tt, q)
                        ∧ animatingAmong (timers p) [] (nextTimer p) el nan nan 0 q).
  { unfold animateCounter. js_run. rewrite Hnan.
    eexists. split; [reflexivity|]. split; [reflexivity|]. by destruct el. }
  destruct Hstart as (q & Hstart & Hq).
  destruct (nan_counter_runs (nextTimer p) el (timers p) n 0 q Hpre Hq)
    as (current' & q' & Hrun & Hq' & Htext).
  unfold animation. rewrite (exec_bind _ _ _ _ _ Hstart).
  unfold exec. rewrite Hrun. cbn [snd]. split.
  - by eapply pending_animating.
  - intros Hn. rewrite Htext. destruct n; [lia | done].
Qed.

Lemma nan_counter_never_settles_witness :
  timerPending (nextTimer (counterPage "many"))
    (animation (Node 0) 1000 (counterPage "many")) = true
  ∧ ((1 <= 1000)%nat
     → textOf (Node 0) (animation (Node 0) 1000 (counterPage "many")) = "NaN").
Proof.
  apply (nan_counter_never_settles (counterPage "many") (Node 0) 1000).
  - reflexivity.
  - vm_compute. eauto.
  - vm_compute. reflexivity.
Defined.

(** ** Preferences across page loads *)

Lemma applyFontSize_markers (level : float) (p : Page) :
  has_class "font-size-large" Html (exec (applyFontSize level) p) = (level =? 1)%float
  ∧ has_class "font-size-small" Html (exec (applyFontSize level) p)
    = negb (level =? 1)%float && (level =? -1)%float.
Proof.
  unfold applyFontSize. js_run.
  destruct (level =? 1)%float; [|destruct (level =? -1)%float];
    unfold has_class, classes, element; cbn -[foldl tokens_add];
    rewrite ?tokens_add_in, ?tokens_add_other, ?font_markers_removed
      by (done || auto);
    done.
Qed.

Lemma changeFontSize_run (direction : JsValue) (p : Page) :
  let stored := if strict_equals direction (JNumber 1) then "1"
                else if strict_equals direction (JNumber (-1)) then "-1"
                else "0" in
  let p1 := exec (changeFontSize direction) p in
  changeFontSize direction p = (Normal tt, p1)
  ∧ localStorage p1 = <["dpl-font-size" := stored]> (localStorage p)
  ∧ has_class "font-size-large" Html p1 = strict_equals direction (JNumber 1)
  ∧ has_class "font-size-small" Html p1
    = negb (strict_equals direction (JNumber 1))
      && strict_equals direction (JNumber (-1)).
Proof.
  unfold changeFontSize. js_run.
  destruct (strict_equals direction (JNumber 1));
    [|destruct (strict_equals direction (JNumber (-1)))];
    rewrite announce_returns; cbv iota beta;
    unfold has_class, classes, element;
    rewrite !announce_rootElement, announce_localStorage;
    cbn -[insert foldl tokens_add];
    rewrite ?tokens_add_in, ?tokens_add_other, ?font_markers_removed
      by (done || auto);
    done.
Qed.

(** X13. The font size survives a reload.  Whatever [changeFontSize] was
    called with, when a page is loaded with the store it left behind,
    [initAccessibility] reads back the level that call applied (1, -1, or 0
    for every other argument) and puts the same font-size markers on the
    document root, whatever markers the markup of the new page carries. *)
Theorem font_size_survives_reload (direction : JsValue) (p fresh : Page) :
  let p1 := exec (changeFontSize direction) p in
  localStorage fresh !! "dpl-font-size" = localStorage p1 !! "dpl-font-size" →
  ∃ level p2,
    initAccessibility fresh = (Normal level, p2)
    ∧ level = (if strict_equals direction (JNumber 1) then 1
               else if strict_equals direction (JNumber (-1)) then -1
               else 0)%float
    ∧ has_class "font-size-large" Html p2 = has_class "font-size-large" Html p1
    ∧ has_class "font-size-small" Html p2 = has_class "font-size-small" Html p1.
Proof.
  intros p1 Hstore.
  destruct (changeFontSize_run direction p) as (_ & Hp1 & Hlarge & Hsmall).
  fold p1 in Hp1, Hlarge, Hsmall.
  rewrite Hp1, lookup_insert_eq in Hstore. rewrite Hlarge, Hsmall.
  set (level := (if strict_equals direction (JNumber 1) then 1
                 else if strict_equals direction (JNumber (-1)) then -1
                 else 0)%float).
  assert (Hrun : ∃ p2, initAccessibility fresh = (Normal level, p2)
                       ∧ rootElement p2 = rootElement (exec (applyFontSize level) fresh)).
  { unfold initAccessibility. js_run. rewrite Hstore.
    assert (Hlevel : truthy_string
                       (Some (if strict_equals direction (JNumber 1) then "1"
                              else if strict_equals direction (JNumber (-1)) then "-1"
                              else "0")) = true
                     ∧ parseInt (if strict_equals direction (JNumber 1) then "1"
                                 else if strict_equals direction (JNumber (-1)) then "-1"
                                 else "0") = level).
    { subst level. destruct (strict_equals direction (JNumber 1));
        [|destruct (strict_equals direction (JNumber (-1)))];
        (split; [reflexivity | vm_compute; reflexivity]). }
    destruct Hlevel as [-> Hlevel]. cbn [default from_option id]. rewrite Hlevel.
    rewrite applyFontSize_returns. cbv iota beta.
    destruct (bool_decide (localStorage fresh !! "dpl-high-contrast" = Some "true"));
      (eexists; split; [reflexivity|]); reflexivity. }
  destruct Hrun as (p2 & Hrun & Hroot).
  exists level, p2. split; [done|]. split; [done|].
  destruct (applyFontSize_markers level fresh) as [Hl Hs].
  unfold has_class, classes, element in *. cbn [from_option] in *.
  rewrite Hroot, Hl, Hs. subst level.
  destruct (strict_equals direction (JNumber 1));
    [|destruct (strict_equals direction (JNumber (-1)))];
    split; vm_compute; reflexivity.
Qed.

Lemma font_size_survives_reload_witness :
  ∃ level p2,
    initAccessibility (storedFontSize "-1") = (Normal level, p2)
    ∧ level = (if strict_equals (JNumber (-1)) (JNumber 1) then 1
               else if strict_equals (JNumber (-1)) (JNumber (-1)) then -1
               else 0)%float
    ∧ has_class "font-size-large" Html p2
      = has_class "font-size-large" Html (exec (changeFontSize (JNumber (-1))) emptyPage)
    ∧ has_class "font-size-small" Html p2
      = has_class "font-size-small" Html (exec (changeFontSize (JNumber (-1))) emptyPage).
Proof.
  apply (font_size_survives_reload (JNumber (-1)) emptyPage (storedFontSize "-1")).
  vm_compute. reflexivity.
Defined.

Lemma toggleContrast_run (p : Page) :
  let on := negb (has_class "high-contrast" Body p) in
  let p1 := exec toggleContrast p in
  toggleContrast p = (Normal tt, p1)
  ∧ has_class "high-contrast" Body p1 = on
  ∧ localStorage p1 = <["dpl-high-contrast" := Boolean_toString on]> (localStorage p)
  ∧ nodes p1
    = nodes p ++ [announcement (if on then "High contrast mode enabled"
                                else "High contrast mode disabled")].
Proof.
  unfold toggleContrast. js_run.
  destruct (has_class "high-contrast" Body p) eqn:Hon;
    rewrite announce_returns; cbv iota beta;
    unfold has_class, classes, element;
    rewrite announce_bodyElement, announce_localStorage, announce_nodes;
    cbn -[insert tokens_add tokens_remove];
    (split; [done|]); (split; [|done]).
  - apply bool_decide_eq_false. rewrite elem_of_tokens_remove. tauto.
  - apply tokens_add_in.
Qed.

(** X14. From any state, [toggleContrast()] flips the high-contrast marker of
    the body, stores the new state as ["true"] or ["false"] and announces it
    as enabled or disabled; and the state survives a reload: on a page whose
    markup has no marker and whose store is the one the toggle left,
    [initAccessibility] puts the marker on the body exactly when the toggle
    had switched it on. *)
Theorem contrast_toggles_and_survives_reload (p fresh : Page) :
  let on := negb (has_class "high-contrast" Body p) in
  let p1 := exec toggleContrast p in
  has_class "high-contrast" Body fresh = false →
  localStorage fresh !! "dpl-high-contrast" = localStorage p1 !! "dpl-high-contrast" →
  toggleContrast p = (Normal tt, p1)
  ∧ has_class "high-contrast" Body p1 = on
  ∧ localStorage p1 !! "dpl-high-contrast" = Some (Boolean_toString on)
  ∧ nodes p1
    = nodes p ++ [announcement (if on then "High contrast mode enabled"
                                else "High contrast mode disabled")]
  ∧ ∃ level p2,
      initAccessibility fresh = (Normal level, p2)
      ∧ has_class "high-contrast" Body p2 = on.
Proof.
  intros on p1 Hfresh Hstore.
  destruct (toggleContrast_run p) as (Hrun & Hon & Hp1 & Hnodes).
  fold on p1 in Hrun, Hon, Hp1, Hnodes.
  rewrite Hp1, lookup_insert_eq in Hstore.
  split; [done|]. split; [done|].
  split; [by rewrite Hp1, lookup_insert_eq|]. split; [done|].
  unfold initAccessibility. js_run. rewrite Hstore.
  assert (Hbody : ∀ level, bodyElement (exec (applyFontSize level) fresh)
                           = bodyElement fresh).
  { intros level. unfold applyFontSize. js_run.
    destruct (level =? 1)%float; [|destruct (level =? -1)%float]; reflexivity. }
  destruct (truthy_string (localStorage fresh !! "dpl-font-size"));
    rewrite ?applyFontSize_returns; cbv iota beta;
    destruct on; cbn [Boolean_toString];
    [ rewrite bool_decide_eq_true_2 by done
    | rewrite bool_decide_eq_false_2 by done
    | rewrite bool_decide_eq_true_2 by done
    | rewrite bool_decide_eq_false_2 by done ];
    (eexists _, _; split; [reflexivity|]).
  - rewrite has_class_updated by (by eexists). apply tokens_add_in.
  - unfold has_class, classes, element in Hfresh |- *.
    cbn [from_option] in Hfresh |- *. by rewrite Hbody.
  - rewrite has_class_updated by (by eexists). apply tokens_add_in.
  - exact Hfresh.
Qed.

Lemma contrast_toggles_and_survives_reload_witness :
  let fresh := set_localStorage (<["dpl-high-contrast" := "true"]>) emptyPage in
  ∃ level p2,
    initAccessibility fresh = (Normal level, p2)
    ∧ has_class "high-contrast" Body p2
      = negb (has_class "high-contrast" Body emptyPage).
Proof.
  intros fresh.
  destruct (contrast_toggles_and_survives_reload emptyPage fresh)
    as (_ & _ & _ & _ & Hreload).
  - vm_compute. reflexivity.
  - vm_compute. reflexivity.
  - exact Hreload.
Defined.

(** ** Slider: any number of slides *)

Lemma pending_sliding (slides dots : list NodeId) (pre : list Timer) (id current : nat)
    (q : Page) :
  sliding slides dots (pre ++ [sliderTimer id]) current q →
  timerPending id q = true.
Proof.
  intros (_ & Ht & _). unfold timerPending. rewrite Ht, existsb_app. cbn.
  by rewrite Nat.eqb_refl, orb_true_r.
Qed.

Lemma ticks_advance (slides dots : list NodeId) (pending : list Timer) (id : nat) :
  NoDup slides → NoDup dots →
  List.find (λ t, (timerId t =? id)%nat) pending = Some (sliderTimer id) →
  ∀ (k current : nat) (q : Page),
    (current < length slides)%nat →
    sliding slides dots pending current q →
    ∃ q', fireTimes k id q = (Normal tt, q')
      ∧ sliding slides dots pending ((current + k) `mod` length slides)%nat q'
      ∧ ((1 <= k)%nat →
         shown slides dots ((current + k) `mod` length slides)%nat q').
Proof.
  intros Hnd1 Hnd2 Hfind. induction k as [|k IH]; intros current q Hc Hq.
  { exists q. split; [done|]. rewrite Nat.add_0_r, Nat.mod_small by done.
    split; [done | lia]. }
  destruct (tick_advances slides dots pending id Hnd1 Hnd2 Hfind current q Hq)
    as (q1 & Hrun1 & Hq1 & Hshown1).
  destruct (IH ((current + 1) `mod` length slides)%nat q1) as (q' & Hrun & Hq' & Hshown);
    [apply Nat.mod_upper_bound; lia | done |].
  rewrite Nat.Div0.add_mod_idemp_l in Hq', Hshown.
  replace (current + 1 + k)%nat with (current + S k)%nat in Hq', Hshown by lia.
  exists q'. split; [|split; [done|]].
  - cbn [fireTimes]. by rewrite (run_bind _ _ _ _ _ Hrun1).
  - intros _. destruct k as [|k]; [|apply Hshown; lia].
    cbn [fireTimes] in Hrun. injection Hrun as <-. exact Hshown1.
Qed.

(** X15. The slider cycles.  On a page with more than one slide, whatever
    their number, [initSlider] starts at index 0 and [k] ticks of its interval
    leave the index at [k] modulo the number of slides, with the marker on
    that slide and that dot only (in the sense of [shown]) once a tick has
    run; the interval is never cleared.  So as many ticks as there are slides
    lead back to the first slide. *)
Theorem slider_cycles (p : Page) (k : nat) :
  let slides := document_querySelectorAll [ByClass "slide"] p in
  let dots := document_querySelectorAll [ByClass "dot"] p in
  let timer := nextTimer p in
  timersFresh p = true →
  (1 < length slides)%nat →
  ∃ p0 pk,
    initSlider p = (Normal tt, p0)
    ∧ fireTimes k timer p0 = (Normal tt, pk)
    ∧ activeIndex pk = Some (k `mod` length slides)%nat
    ∧ ((1 <= k)%nat → shown slides dots (k `mod` length slides)%nat pk)
    ∧ timerPending timer pk = true
    ∧ (k = length slides → activeIndex pk = Some 0%nat).
Proof.
  intros slides dots timer Hfresh Hlen.
  pose proof (document_query_NoDup [ByClass "slide"] p) as Hnd1.
  pose proof (document_query_NoDup [ByClass "dot"] p) as Hnd2.
  pose proof (find_scheduled p Hfresh) as Hfind.
  destruct (initSlider_starts p Hlen) as (p0 & Hinit & Hp0).
  destruct (ticks_advance slides dots _ timer Hnd1 Hnd2 Hfind k 0 p0) as (pk & Hrun & Hpk & Hshown);
    [fold slides; lia | exact Hp0 |].
  cbn [Nat.add] in Hpk, Hshown.
  exists p0, pk. split; [done|]. split; [done|].
  pose proof (sliding_activeIndex _ _ _ _ _ Hpk) as Hindex.
  split; [done|]. split; [done|]. split; [by eapply pending_sliding|].
  intros ->. by rewrite Hindex, Nat.Div0.mod_same.
Qed.

Lemma slider_cycles_witness :
  let slides := document_querySelectorAll [ByClass "slide"] sliderPage in
  let dots := document_querySelectorAll [ByClass "dot"] sliderPage in
  ∃ p0 pk,
    initSlider sliderPage = (Normal tt, p0)
    ∧ fireTimes 7 (nextTimer sliderPage) p0 = (Normal tt, pk)
    ∧ activeIndex pk = Some (7 `mod` length slides)%nat
    ∧ ((1 <= 7)%nat → shown slides dots (7 `mod` length slides)%nat pk)
    ∧ timerPending (nextTimer sliderPage) pk = true
    ∧ (7%nat = length slides → activeIndex pk = Some 0%nat).
Proof.
  apply (slider_cycles sliderPage 7).
  - reflexivity.
  - vm_compute. lia.
Defined.

(** ** Two overlays, one scroll lock *)

Lemma has_class_set_activeElement (c : string) (n : NodeId) (r : Ref) (p : Page) :
  has_class c n (set_activeElement r p) = has_class c n p.
Proof. unfold has_class, classes. by rewrite element_set_activeElement. Qed.

Lemma has_class_update_field (c : string) (n m : NodeId) (g : Element → Element)
    (p : Page) :
  (∀ e, classList (g e) = classList e) →
  has_class c n (update m g p) = has_class c n p.
Proof. intros Hg. unfold has_class. by rewrite classes_update_other_field. Qed.

Lemma has_class_update_other (c : string) (n m : NodeId) (g : Element → Element)
    (p : Page) :
  n ≠ m → has_class c n (update m g p) = has_class c n p.
Proof. intros Hne. unfold has_class, classes. by rewrite element_update_other. Qed.

Lemma has_class_is_Some (c : string) (n : NodeId) (p : Page) :
  has_class c n p = true → is_Some (element n p).
Proof.
  unfold has_class, classes. intros Hc%bool_decide_eq_true.
  destruct (element n p); [by eexists|]. by apply elem_of_nil in Hc.
Qed.

(** What closing an overlay leaves behind, whatever else is on the page. *)
Lemma closeSearch_run (t s : NodeId) (p : Page) :
  is_Some (element s p) →
  ∃ p',
    closeSearch (Some t) (Some s) p = (Normal tt, p')
    ∧ has_class "active" s p' = false
    ∧ attribute s "aria-hidden" p' = Some "true"
    ∧ styleOf Body "overflow" p' = Some ""
    ∧ activeElement p' = Some t
    ∧ (∀ n, n ≠ s → has_class "active" n p' = has_class "active" n p)
    ∧ (∀ n, n ≠ s → attribute n "aria-hidden" p' = attribute n "aria-hidden" p).
Proof.
  intros Hs. eexists. split; [unfold closeSearch; js_run; reflexivity|].
  split; [|split; [|split; [|split; [|split]]]].
  - rewrite has_class_set_activeElement, !has_class_update_field by done.
    rewrite has_class_updated by done. cbn [foldl]. apply tokens_remove_out.
  - rewrite attribute_set_activeElement, attribute_update_style.
    apply attribute_updated. by apply update_keepsElements.
  - rewrite styleOf_set_activeElement. by apply styleOf_updated.
  - reflexivity.
  - intros n Hne.
    rewrite has_class_set_activeElement, !has_class_update_field by done.
    by apply has_class_update_other.
  - intros n Hne.
    rewrite attribute_set_activeElement, attribute_update_style.
    unfold attribute. by rewrite !element_update_other.
Qed.

Lemma closeMobileMenu_run (b m : NodeId) (p : Page) :
  is_Some (element m p) →
  ∃ p',
    closeMobileMenu (Some b) (Some m) p = (Normal tt, p')
    ∧ has_class "active" m p' = false
    ∧ attribute m "aria-hidden" p' = Some "true"
    ∧ styleOf Body "overflow" p' = Some ""
    ∧ activeElement p' = Some b
    ∧ (∀ n, n ≠ m → has_class "active" n p' = has_class "active" n p)
    ∧ (∀ n, n ≠ m → attribute n "aria-hidden" p' = attribute n "aria-hidden" p).
Proof.
  intros Hm. eexists. split; [unfold closeMobileMenu; js_run; reflexivity|].
  split; [|split; [|split; [|split; [|split]]]].
  - rewrite has_class_set_activeElement, !has_class_update_field by done.
    rewrite has_class_updated by done. cbn [foldl]. apply tokens_remove_out.
  - rewrite attribute_set_activeElement, attribute_update_style.
    rewrite attribute_update_attribute_ne by done.
    apply attribute_updated. by apply update_keepsElements.
  - rewrite styleOf_set_activeElement. by apply styleOf_updated.
  - reflexivity.
  - intros n Hne.
    rewrite has_class_set_activeElement, !has_class_update_field by done.
    by apply has_class_update_other.
  - intros n Hne.
    rewrite attribute_set_activeElement, attribute_update_style.
    rewrite attribute_update_attribute_ne by done.
    unfold attribute. by rewrite !element_update_other.
Qed.

(** X17. The two overlays share one scroll lock.  With the mobile menu and
    the search overlay both open, closing either of them releases the lock
    (the body's [overflow] becomes the empty string) although the other one
    is still open and still marked active. *)
Theorem scroll_lock_is_shared (p : Page) (b m t s : NodeId) :
  m ≠ s →
  has_class "active" m p = true →
  has_class "active" s p = true →
  (∃ p', closeSearch (Some t) (Some s) p = (Normal tt, p')
       ∧ has_class "active" s p' = false
       ∧ has_class "active" m p' = true
       ∧ styleOf Body "overflow" p' = Some "")
  ∧ (∃ p', closeMobileMenu (Some b) (Some m) p = (Normal tt, p')
         ∧ has_class "active" m p' = false
         ∧ has_class "active" s p' = true
         ∧ styleOf Body "overflow" p' = Some "").
Proof.
  intros Hne Hm Hs. split.
  - destruct (closeSearch_run t s p (has_class_is_Some _ _ _ Hs))
      as (p' & Hrun & Hoff & _ & Hflow & _ & Hother & _).
    exists p'. by rewrite (Hother m Hne).
  - destruct (closeMobileMenu_run b m p (has_class_is_Some _ _ _ Hm))
      as (p' & Hrun & Hoff & _ & Hflow & _ & Hother & _).
    exists p'. by rewrite (Hother s) by done.
Qed.

Lemma scroll_lock_is_shared_witness :
  let p := exec (overlayEvent (overlaysOf overlayPage) MenuButtonClick;;
                 overlayEvent (overlaysOf overlayPage) SearchToggleClick)
             overlayPage in
  (∃ p', closeSearch (Some (Node 4)) (Some (Node 5)) p = (Normal tt, p')
       ∧ has_class "active" (Node 5) p' = false
       ∧ has_class "active" (Node 1) p' = true
       ∧ styleOf Body "overflow" p' = Some "")
  ∧ (∃ p', closeMobileMenu (Some (Node 0)) (Some (Node 1)) p = (Normal tt, p')
         ∧ has_class "active" (Node 1) p' = false
         ∧ has_class "active" (Node 5) p' = true
         ∧ styleOf Body "overflow" p' = Some "").
Proof.
  apply (scroll_lock_is_shared _ (Node 0) (Node 1) (Node 4) (Node 5)).
  - discriminate.
  - vm_compute. reflexivity.
  - vm_compute. reflexivity.
Defined.

(** ** What loading the page leaves alone *)

Lemma domContentLoaded_keeps {X} (f : Page → X) :
  (∀ n g p, f (update n (with_classList g) p) = f p) →
  (∀ n k v p, f (update n (with_style k v) p) = f p) →
  (∀ g p, f (set_listeners g p) = f p) →
  (∀ g p, f (set_observed g p) = f p) →
  keeps f domContentLoaded.
Proof.
  intros Hclass Hstyle Hlisten Hobserve.
  unfold domContentLoaded, initAccessibility, applyFontSize, initNavigation,
    initSearch, initTabs, initAnimations, initHeaderScroll,
    localStorage_getItem, classList_add, classList_remove, set_style,
    addEventListener, document_addEventListener, window_addEventListener,
    document_querySelector, querySelector, querySelectorAll, observe.
  keeps_structure; intros;
    first [apply Hclass | apply Hstyle | apply Hlisten | apply Hobserve].
Qed.

(** X19. Loading the page is quiet.  The [DOMContentLoaded] listener
    completes on every page, and all it changes are class lists, inline
    styles, the registered listeners and the observed elements: it writes
    nothing to the store, starts no timer, moves no focus, creates no
    element, and leaves every attribute and every text as it is. *)
Theorem page_load_is_quiet (p : Page) :
  ∃ p',
    domContentLoaded p = (Normal tt, p')
    ∧ localStorage p' = localStorage p
    ∧ timers p' = timers p
    ∧ activeElement p' = activeElement p
    ∧ length (nodes p') = length (nodes p)
    ∧ (∀ n a, attribute n a p' = attribute n a p)
    ∧ (∀ n, textOf n p' = textOf n p).
Proof.
  destruct (domContentLoaded_normal p) as (p' & Hrun).
  exists p'. split; [done|].
  split; [|split; [|split; [|split; [|split]]]].
  - apply (keeps_returns localStorage domContentLoaded _ _ tt); [|done].
    apply domContentLoaded_keeps; intros; by try destruct n.
  - apply (keeps_returns timers domContentLoaded _ _ tt); [|done].
    apply domContentLoaded_keeps; intros; by try apply update_timers.
  - apply (keeps_returns activeElement domContentLoaded _ _ tt); [|done].
    apply domContentLoaded_keeps; intros; by try apply activeElement_update.
  - apply (keeps_returns (λ q, length (nodes q)) domContentLoaded _ _ tt); [|done].
    apply domContentLoaded_keeps; intros; by try apply length_nodes_update.
  - intros n a.
    apply (keeps_returns (attribute n a) domContentLoaded _ _ tt); [|done].
    apply domContentLoaded_keeps; intros.
    + apply attribute_update_classList.
    + apply attribute_update_style.
    + unfold attribute. by destruct n.
    + unfold attribute. by rewrite element_set_observed.
  - intros n.
    apply (keeps_returns (textOf n) domContentLoaded _ _ tt); [|done].
    apply domContentLoaded_keeps; intros.
    + by apply textOf_update_field.
    + by apply textOf_update_field.
    + unfold textOf. by destruct n.
    + unfold textOf. by rewrite element_set_observed.
Qed.

(** * Events through the listener table *)

(** ** The document tree *)

Lemma parent_of_missing (i : nat) (p : Page) :
  (length (nodes p) <= i)%nat → parent_of (Node i) p = None.
Proof.
  intros Hi. unfold parent_of. cbn [element].
  by rewrite (lookup_ge_None_2 _ _ Hi).
Qed.

Lemma ordered_parent (p : Page) (n q : NodeId) :
  ordered p = true → parent_of n p = Some q → (rank q < rank n)%nat.
Proof.
  unfold ordered. rewrite forallb_forall. intros Hord Hq.
  destruct n as [| | |i]; try (cbn in Hq; injection Hq as <-; cbn; lia); [done|].
  destruct (decide (i < length (nodes p))%nat) as [Hi | Hi].
  - specialize (Hord (Node i) (in_all_nodes i p Hi)). rewrite Hq in Hord.
    by apply Nat.ltb_lt.
  - rewrite parent_of_missing in Hq by lia. done.
Qed.


(** Beyond the rank of the element more fuel changes nothing. *)
Lemma ancestors_enough (p : Page) (f f' : nat) (n : NodeId) :
  ordered p = true → (rank n <= f)%nat → (rank n <= f')%nat →
  ancestors f p n = ancestors f' p n.
Proof.
  intros Hord. revert f' n. induction f as [|f IH]; intros f' n Hf Hf'.
  - assert (n = Html) as -> by (destruct n; cbn in Hf; done || lia).
    by destruct f'.
  - destruct f' as [|f'].
    + assert (n = Html) as -> by (destruct n; cbn in Hf'; done || lia). done.
    + cbn [ancestors]. destruct (parent_of n p) as [q|] eqn:Hq; [|done].
      pose proof (ordered_parent p n q Hord Hq).
      f_equal. apply IH; lia.
Qed.

Lemma rank_existing (p : Page) (n : NodeId) :
  is_Some (element n p) → (rank n < 3 + length (nodes p))%nat.
Proof.
  destruct n as [| | |i]; cbn; try lia.
  intros Hi%lookup_lt_is_Some. lia.
Qed.

Lemma ancestors_missing (p : Page) (fuel : nat) (n : NodeId) :
  ¬ is_Some (element n p) → ancestors fuel p n = [].
Proof.
  intros Hn. destruct fuel; [done|]. cbn [ancestors].
  destruct n as [| | |i]; try (exfalso; apply Hn; by eexists).
  unfold parent_of. by destruct (element (Node i) p); [exfalso; apply Hn; eauto|].
Qed.

(** The ancestors of an element, whatever the fuel from the size of the
    heap on. *)
Lemma ancestors_full (p : Page) (fuel : nat) (n : NodeId) :
  ordered p = true → (3 + length (nodes p) <= fuel)%nat →
  ancestors fuel p n = ancestors (3 + length (nodes p)) p n.
Proof.
  intros Hord Hfuel.
  destruct (decide (is_Some (element n p))) as [Hn | Hn].
  - apply rank_existing in Hn. apply ancestors_enough; [done | lia..].
  - by rewrite !ancestors_missing.
Qed.

Lemma parent_existing (p : Page) (n q : NodeId) :
  ordered p = true → parent_of n p = Some q → is_Some (element q p).
Proof.
  intros Hord Hq. pose proof (ordered_parent p n q Hord Hq) as Hrank.
  assert (Hn : is_Some (element n p)).
  { destruct n as [| | |i]; try by eexists.
    unfold parent_of in Hq. by destruct (element (Node i) p); [eexists|]. }
  apply rank_existing in Hn.
  destruct q as [| | |j]; try by eexists.
  apply lookup_lt_is_Some. cbn in Hrank. lia.
Qed.

(** Elements that are added leave the ancestors of the others alone. *)
Lemma ancestors_sameTree (p q : Page) (n : NodeId) :
  ordered p = true → sameTree p q → is_Some (element n p) →
  ancestors (3 + length (nodes q)) q n = ancestors (3 + length (nodes p)) p n.
Proof.
  intros Hord [Hlen Hparent] Hn.
  assert (Hgen : ∀ f f' m, is_Some (element m p) →
            (rank m <= f)%nat → (rank m <= f')%nat →
            ancestors f q m = ancestors f' p m).
  { induction f as [|f IH]; intros f' m Hm Hf Hf'.
    - assert (m = Html) as -> by (destruct m; cbn in Hf; done || lia).
      by destruct f'.
    - destruct f' as [|f'].
      + assert (m = Html) as -> by (destruct m; cbn in Hf'; done || lia). done.
      + cbn [ancestors]. rewrite (Hparent m Hm).
        destruct (parent_of m p) as [x|] eqn:Hx; [|done].
        pose proof (ordered_parent p m x Hord Hx).
        f_equal. apply IH; [by eapply parent_existing | lia..]. }
  pose proof (rank_existing p n Hn). apply Hgen; [done | lia..].
Qed.




(** ** The listener table *)

Lemma element_set_listeners (n : NodeId) (f : list Listener → list Listener)
    (p : Page) :
  element n (set_listeners f p) = element n p.
Proof. by destruct n. Qed.

Lemma parent_of_set_listeners (n : NodeId) (f : list Listener → list Listener)
    (p : Page) :
  parent_of n (set_listeners f p) = parent_of n p.
Proof. by destruct n. Qed.

Lemma query_in_set_listeners (root : NodeId) (sel : Selector)
    (f : list Listener → list Listener) (p : Page) :
  querySelectorAll_in root sel (set_listeners f p) = querySelectorAll_in root sel p.
Proof.
  assert (Hdesc : ∀ fuel r n,
            descends fuel (set_listeners f p) r n = descends fuel p r n).
  { induction fuel as [|fuel IH]; intros r n; [done|].
    cbn [descends]. rewrite parent_of_set_listeners.
    destruct (parent_of n p); [by rewrite IH | done]. }
  unfold querySelectorAll_in, all_nodes, inside, selects.
  change (nodes (set_listeners f p)) with (nodes p).
  apply List.filter_ext. intros n.
  by rewrite Hdesc, element_set_listeners.
Qed.

Lemma set_listeners_nil (p : Page) : set_listeners (λ ls, ls ++ []) p = p.
Proof. destruct p. unfold set_listeners. cbn. by rewrite app_nil_r. Qed.

Lemma set_listeners_app (l1 l2 : list Listener) (p : Page) :
  set_listeners (λ ls, ls ++ l2) (set_listeners (λ ls, ls ++ l1) p)
  = set_listeners (λ ls, ls ++ l1 ++ l2) p.
Proof. unfold set_listeners. cbn. by rewrite <- app_assoc. Qed.

(** The inner loop of [initTabs]. *)
Lemma register_tabs (tabs l : list NodeId) (index : nat) (p : Page) :
  forEach_indexed index l (λ tab index,
    addEventListener (Some tab) "click" (TabClick tabs tab);;
    addEventListener (Some tab) "keydown" (TabKeydown tabs index)) p
  = (Normal tt, set_listeners (λ ls, ls ++ tabListeners tabs index l) p).
Proof.
  revert index p. induction l as [|tab l IH]; intros index p.
  { cbn. by rewrite set_listeners_nil. }
  cbn [forEach_indexed tabListeners].
  erewrite run_bind; [|unfold addEventListener; js_run; reflexivity].
  rewrite IH. f_equal. unfold set_listeners. cbn.
  by rewrite <- !app_assoc.
Qed.

Lemma register_groups (containers : list NodeId) (p : Page) :
  forEach containers (λ container,
    tabs ← querySelectorAll (Some container) [ByClass "tab"];
    forEach_indexed 0 tabs (λ tab index,
      addEventListener (Some tab) "click" (TabClick tabs tab);;
      addEventListener (Some tab) "keydown" (TabKeydown tabs index))) p
  = (Normal tt,
     set_listeners
       (λ ls, ls ++ groupListeners
                      ((λ c, querySelectorAll_in c [ByClass "tab"] p) <$> containers))
       p).
Proof.
  unfold groupListeners.
  assert (Hgen : ∀ q added, q = set_listeners (λ ls, ls ++ added) p →
    forEach containers (λ container,
      tabs ← querySelectorAll (Some container) [ByClass "tab"];
      forEach_indexed 0 tabs (λ tab index,
        addEventListener (Some tab) "click" (TabClick tabs tab);;
        addEventListener (Some tab) "keydown" (TabKeydown tabs index))) q
    = (Normal tt,
       set_listeners
         (λ ls, ls ++ added ++ concat
            ((λ tabs, tabListeners tabs 0 tabs)
               <$> ((λ c, querySelectorAll_in c [ByClass "tab"] p) <$> containers)))
         p)).
  { induction containers as [|c cs IH]; intros q added ->.
    { cbn. by rewrite app_nil_r. }
    cbn [forEach fmap list_fmap concat].
    erewrite run_bind.
    2: { unfold querySelectorAll. js_run. rewrite query_in_set_listeners.
         apply register_tabs. }
    rewrite set_listeners_app.
    rewrite (IH _ (added ++ tabListeners
                     (querySelectorAll_in c [ByClass "tab"] p) 0
                     (querySelectorAll_in c [ByClass "tab"] p))) by done.
    by rewrite <- !app_assoc. }
  rewrite <- (set_listeners_nil p) at 1.
  by rewrite (Hgen _ [] eq_refl).
Qed.

Lemma initTabs_registers (p : Page) :
  initTabs p
  = (Normal tt, set_listeners (λ ls, ls ++ groupListeners (tabGroups p)) p).
Proof. unfold initTabs. js_run. apply register_groups. Qed.

(** *** The listeners an element has *)

Lemma listenersOn_app (t : EventTarget) (type : string) (l1 l2 : list Listener) :
  List.filter (listensTo t type) (l1 ++ l2)
  = List.filter (listensTo t type) l1 ++ List.filter (listensTo t type) l2.
Proof. apply List.filter_app. Qed.

Lemma listensTo_mk (t t' : EventTarget) (type type' : string) (h : Handler) :
  listensTo t type (mkListener t' type' h)
  = bool_decide (t' = t) && bool_decide (type' = type).
Proof. reflexivity. Qed.

Lemma tabListeners_target (tabs l : list NodeId) (index : nat) (ls : Listener) :
  ls ∈ tabListeners tabs index l →
  ∃ tab, tab ∈ l ∧ listenerTarget ls = OnElement tab.
Proof.
  revert index. induction l as [|tab l IH]; intros index Hin.
  { by apply elem_of_nil in Hin. }
  cbn [tabListeners] in Hin.
  apply elem_of_cons in Hin as [-> | Hin]; [exists tab; split; [by left | done]|].
  apply elem_of_cons in Hin as [-> | Hin]; [exists tab; split; [by left | done]|].
  destruct (IH _ Hin) as (x & Hx & Ht). exists x. split; [by right | done].
Qed.

(** An element that is no tab of the group has none of its listeners. *)
Lemma tabListeners_other (tabs l : list NodeId) (index : nat)
    (t : EventTarget) (type : string) :
  (∀ tab, tab ∈ l → t ≠ OnElement tab) →
  List.filter (listensTo t type) (tabListeners tabs index l) = [].
Proof.
  revert index. induction l as [|tab l IH]; intros index Hout; [done|].
  cbn [tabListeners List.filter]. rewrite !listensTo_mk.
  rewrite !(bool_decide_eq_false_2 (OnElement tab = t))
    by (intros <-; by apply (Hout tab); [left|]).
  cbn. apply IH. intros x Hx. apply Hout. by right.
Qed.

(** A tab of the group has its click listener and its keydown listener. *)
Lemma tabListeners_click (tabs l : list NodeId) (index : nat) (tab : NodeId) :
  NoDup l → tab ∈ l →
  listenerHandler <$> List.filter (listensTo (OnElement tab) "click")
                        (tabListeners tabs index l)
  = [TabClick tabs tab].
Proof.
  intros Hnd. revert index. induction Hnd as [|x l Hx Hnd IH]; intros index Hin.
  { by apply elem_of_nil in Hin. }
  cbn [tabListeners List.filter]. rewrite !listensTo_mk.
  destruct (decide (x = tab)) as [-> | Hne].
  - rewrite !bool_decide_eq_true_2 by done. cbn.
    rewrite tabListeners_other; [done|].
    intros y Hy [= ->]. done.
  - rewrite !(bool_decide_eq_false_2 (OnElement x = OnElement tab)) by congruence.
    cbn. apply IH. apply elem_of_cons in Hin as [-> | Hin]; done.
Qed.

Lemma tabListeners_keydown (tabs l : list NodeId) (index i : nat) (tab : NodeId) :
  NoDup l → l !! i = Some tab →
  listenerHandler <$> List.filter (listensTo (OnElement tab) "keydown")
                        (tabListeners tabs index l)
  = [TabKeydown tabs (index + i)].
Proof.
  intros Hnd. revert index i. induction Hnd as [|x l Hx Hnd IH]; intros index i Hi.
  { by rewrite lookup_nil in Hi. }
  cbn [tabListeners List.filter]. rewrite !listensTo_mk.
  destruct i as [|i]; cbn in Hi.
  - injection Hi as ->. rewrite !bool_decide_eq_true_2 by done. cbn.
    rewrite tabListeners_other, Nat.add_0_r; [done|].
    intros y Hy [= ->]. done.
  - assert (x ≠ tab).
    { intros ->. apply Hx. apply list_elem_of_lookup. eauto. }
    rewrite !(bool_decide_eq_false_2 (OnElement x = OnElement tab)) by congruence.
    cbn. rewrite (IH (S index) i Hi). do 2 f_equal. lia.
Qed.

(** ** Running the listeners of an event *)

Lemma forEach_app {A} (l1 l2 : list A) (f : A → JS unit) (p p1 : Page) :
  forEach l1 f p = (Normal tt, p1) →
  forEach (l1 ++ l2) f p = forEach l2 f p1.
Proof.
  revert p. induction l1 as [|x l1 IH]; intros p Hrun.
  { cbn in Hrun. by injection Hrun as <-. }
  cbn [forEach app] in Hrun |- *. unfold mbind, JS_bind in Hrun |- *.
  destruct (f x p) as [[[]|err] q]; [|done]. by apply IH.
Qed.

Lemma reported_normal (m : JS unit) (p p' : Page) :
  m p = (Normal tt, p') → reported m p = (Normal tt, p').
Proof. intros Hm. unfold reported. by rewrite Hm. Qed.

Lemma dispatchWith_run (c : NodeId → JS unit) (e : Event) (p : Page) :
  dispatchWith c e p
  = forEach (listenersFor e p) (λ h, reported (runHandler c h e)) p.
Proof. reflexivity. Qed.

(** A click event has no key: what [click()] would do inside one of its
    listeners makes no difference. *)
Lemma keyless_never_clicks (c c' : NodeId → JS unit) (h : Handler) (e : Event) :
  eventKey e = None → runHandler c h e = runHandler c' h e.
Proof. intros Hkey. destruct h; try reflexivity. cbn. unfold withKey. by rewrite Hkey. Qed.

Lemma forEach_ext {A} (l : list A) (f g : A → JS unit) (p : Page) :
  (∀ x, f x = g x) → forEach l f p = forEach l g p.
Proof.
  intros Hfg. revert p. induction l as [|x l IH]; intros p; [done|].
  cbn [forEach]. unfold mbind, JS_bind. rewrite Hfg.
  destruct (g x p) as [[[]|err] q]; [apply IH | done].
Qed.

Lemma dispatch_click (n : NodeId) (p : Page) : dispatch (clickOn n) p = click n p.
Proof.
  unfold dispatch, click. rewrite !dispatchWith_run.
  apply forEach_ext. intros h. by rewrite (keyless_never_clicks click (λ _, mret tt)).
Qed.

(** ** Tabs *)

Lemma ariaSelected_element (p q : Page) (n : NodeId) :
  element n q = element n p → ariaSelected q n = ariaSelected p n.
Proof. intros He. unfold ariaSelected, attribute. by rewrite He. Qed.

Lemma markedActive_element (p q : Page) (n : NodeId) :
  element n q = element n p → markedActive q n = markedActive p n.
Proof. intros He. unfold markedActive, has_class, classes. by rewrite He. Qed.

Lemma listeners_update (m : NodeId) (g : Element → Element) (p : Page) :
  listeners (update m g p) = listeners p.
Proof. by destruct m. Qed.

(** A run of [tabClick]: class and attribute updates of tabs, then the
    announcement of the label. *)
Lemma tabClick_run (tabs : list NodeId) (tab : NodeId) (p : Page) :
  ∃ q, tabClick tabs tab p
       = (Normal tt,
          exec (announceToScreenReader (textOf tab p +:+ " tab selected")) q)
    ∧ ∀ X (f : Page → X),
        (∀ n g r, f (update n (with_classList g) r) = f r) →
        (∀ n a v r, f (update n (with_attribute a v) r) = f r) →
        f q = f p.
Proof.
  set (select :=
         forEach tabs (λ t,
           classList_remove (Some t) ["active"];;
           setAttribute (Some t) "aria-selected" "false");;
         classList_add (Some tab) "active";;
         setAttribute (Some tab) "aria-selected" "true").
  assert (Hkeeps : ∀ X (f : Page → X),
            (∀ n g r, f (update n (with_classList g) r) = f r) →
            (∀ n a v r, f (update n (with_attribute a v) r) = f r) →
            keeps f select).
  { intros X f Hc Ha. subst select. apply keeps_bind.
    { by apply deselect_keeps. }
    intros _. unfold classList_add, setAttribute.
    keeps_structure; [apply Hc | apply Ha]. }
  destruct (deselect_all tabs p) as (q0 & Hq0 & _).
  assert (Hselect : ∃ q, select p = (Normal tt, q)).
  { subst select. rewrite (run_bind _ _ _ _ _ Hq0). js_run. by eexists. }
  destruct Hselect as (q & Hselect).
  assert (Htext : textOf tab q = textOf tab p).
  { apply (keeps_returns (textOf tab) select _ _ tt); [|done].
    apply Hkeeps; intros; by apply textOf_update_field. }
  exists q. split.
  - rewrite <- Htext. clear Htext. unfold tabClick. subst select.
    rewrite (run_bind _ _ _ _ _ Hq0) in Hselect.
    rewrite (run_bind _ _ _ _ _ Hq0).
    revert Hselect. js_run. intros [= <-]. apply announce_returns.
  - intros X f Hc Ha.
    apply (keeps_returns f select _ _ tt); [|done]. by apply Hkeeps.
Qed.

Lemma announce_listeners (msg : string) (p : Page) :
  listeners (exec (announceToScreenReader msg) p) = listeners p.
Proof. reflexivity. Qed.

Lemma announce_parent_of (msg : string) (p : Page) (n : NodeId) :
  is_Some (element n p) →
  parent_of n (exec (announceToScreenReader msg) p) = parent_of n p.
Proof.
  intros Hn. destruct n as [| | |i]; try done.
  unfold parent_of. by rewrite announce_element.
Qed.

Lemma sameTree_refl (p : Page) : sameTree p p.
Proof. by split. Qed.

Lemma sameTree_existing (p q : Page) (n : NodeId) :
  sameTree p q → is_Some (element n p) → is_Some (element n q).
Proof.
  intros [Hlen _]. destruct n as [| | |i]; try by eexists.
  cbn [element]. rewrite !lookup_lt_is_Some. lia.
Qed.

Lemma sameTree_step (p q q' : Page) :
  sameTree p q →
  (length (nodes q) <= length (nodes q'))%nat →
  (∀ n, is_Some (element n q) → parent_of n q' = parent_of n q) →
  sameTree p q'.
Proof.
  intros Hpq Hlen Hparent. split; [destruct Hpq; lia|].
  intros n Hn. rewrite Hparent by by eapply sameTree_existing.
  by apply Hpq.
Qed.

Lemma sameTree_set_activeElement (p q : Page) (r : Ref) :
  sameTree p q → sameTree p (set_activeElement r q).
Proof.
  intros Hpq. eapply sameTree_step; [exact Hpq | done |].
  intros n _. by destruct n.
Qed.

Lemma tabClick_sameTree (tabs : list NodeId) (tab : NodeId) (p q q' : Page) :
  sameTree p q → tabClick tabs tab q = (Normal tt, q') → sameTree p q'.
Proof.
  intros Hpq Hrun.
  destruct (tabClick_run tabs tab q) as (q1 & Hrun1 & Hkeep).
  rewrite Hrun1 in Hrun. injection Hrun as <-.
  assert (Hlen : length (nodes q1) = length (nodes q)).
  { apply (Hkeep _ (λ r, length (nodes r))); intros; apply length_nodes_update. }
  eapply sameTree_step; [exact Hpq | rewrite announce_length; lia |].
  intros n Hn.
  assert (Hn1 : is_Some (element n q1)).
  { destruct n as [| | |i]; try by eexists.
    cbn [element] in Hn |- *. rewrite lookup_lt_is_Some in Hn |- *. lia. }
  rewrite announce_parent_of by done.
  apply (Hkeep _ (parent_of n)); intros; apply parent_of_update;
    [apply keepsShape_classList | apply keepsShape_attribute].
Qed.

Lemma tabClick_listeners (tabs : list NodeId) (tab : NodeId) (q q' : Page) :
  tabClick tabs tab q = (Normal tt, q') → listeners q' = listeners q.
Proof.
  intros Hrun.
  destruct (tabClick_run tabs tab q) as (q1 & Hrun1 & Hkeep).
  rewrite Hrun1 in Hrun. injection Hrun as <-.
  rewrite announce_listeners.
  apply (Hkeep _ listeners); intros; apply listeners_update.
Qed.

Lemma tabClick_activeElement (tabs : list NodeId) (tab : NodeId) (q q' : Page) :
  tabClick tabs tab q = (Normal tt, q') → activeElement q' = activeElement q.
Proof.
  intros Hrun.
  by rewrite (keeps_returns activeElement _ _ _ _
                (tabClick_keeps_activeElement tabs tab) Hrun).
Qed.

(** A click listener for [tab] keeps [tab] the selected one of any group. *)
Lemma tabClick_keeps_selected (tabs group : list NodeId) (tab : NodeId) (q q' : Page) :
  (∀ n, n ∈ tabs → is_Some (element n q)) →
  (∀ n, n ∈ group → is_Some (element n q)) →
  tab ∈ tabs →
  tabClick tabs tab q = (Normal tt, q') →
  selectedIs tabs tab q'
  ∧ (selectedIs group tab q → selectedIs group tab q')
  ∧ (∀ n, n ∉ tabs → is_Some (element n q) → element n q' = element n q).
Proof.
  intros Hvalid Hgroup Htab Hrun.
  destruct (tabClick_selects tabs tab q Hvalid Htab) as (q'' & Hrun' & _ & Hout & Hsel).
  rewrite Hrun in Hrun'. injection Hrun' as <-.
  split; [done|]. split; [|done].
  intros Hg n Hn.
  destruct (decide (n ∈ tabs)) as [Hin | Hnin]; [by apply Hsel|].
  rewrite (ariaSelected_element q q' n), (markedActive_element q q' n)
    by (apply Hout; [done | by apply Hgroup]).
  by apply Hg.
Qed.

Lemma concat_fmap_nil {A B} (f : A → list B) (l : list A) :
  (∀ x, x ∈ l → f x = []) → concat (fmap (M := list) f l) = [].
Proof.
  induction l as [|x l IH]; intros Hf; [done|].
  cbn. rewrite (Hf x) by by left. cbn. apply IH. intros y Hy. apply Hf. by right.
Qed.

Lemma elem_of_concat {A} (x : A) (ls : list (list A)) :
  x ∈ concat ls ↔ ∃ l, l ∈ ls ∧ x ∈ l.
Proof.
  rewrite list_elem_of_In, in_concat. split; intros (l & H1 & H2); exists l;
    by rewrite ?list_elem_of_In in *.
Qed.

Lemma fmap_concat {A B} (f : A → B) (ls : list (list A)) :
  fmap (M := list) f (concat ls)
  = concat (fmap (M := list) (fmap (M := list) f) ls).
Proof. induction ls as [|l ls IH]; [done|]. cbn. by rewrite fmap_app, IH. Qed.

Lemma flat_spec (l : list NodeId) (p : Page) (n a : NodeId) :
  flat l p = true → n ∈ l → a ∈ ancestors (3 + length (nodes p)) p n → a ∉ l.
Proof.
  unfold flat. rewrite forallb_forall. intros Hflat Hn Ha.
  apply list_elem_of_In in Hn. specialize (Hflat n Hn).
  rewrite forallb_forall in Hflat. apply list_elem_of_In in Ha.
  specialize (Hflat a Ha). by apply negb_true_iff, bool_decide_eq_false in Hflat.
Qed.

Lemma groupListeners_filter (t : EventTarget) (type : string)
    (groups : list (list NodeId)) :
  List.filter (listensTo t type) (groupListeners groups)
  = concat ((λ tabs, List.filter (listensTo t type) (tabListeners tabs 0 tabs))
              <$> groups).
Proof.
  unfold groupListeners. induction groups as [|g groups IH]; [done|].
  cbn. by rewrite List.filter_app, IH.
Qed.

Lemma groupHandlers_here (t : NodeId) (tabs : list NodeId) :
  NoDup tabs → t ∈ tabs → groupHandlers t "click" tabs = [TabClick tabs t].
Proof. intros. by apply tabListeners_click. Qed.

Lemma groupHandlers_key (t : NodeId) (tabs : list NodeId) (i : nat) :
  NoDup tabs → tabs !! i = Some t →
  groupHandlers t "keydown" tabs = [TabKeydown tabs i].
Proof. intros. unfold groupHandlers. by rewrite (tabListeners_keydown _ _ 0 i). Qed.

Lemma groupHandlers_apart (t : NodeId) (type : string) (tabs : list NodeId) :
  t ∉ tabs → groupHandlers t type tabs = [].
Proof.
  intros Ht. unfold groupHandlers. rewrite tabListeners_other; [done|].
  intros tab Htab [= ->]. done.
Qed.

Section TabRun.

Variable p0 : Page.
Hypothesis p0_ordered : ordered p0 = true.
Hypothesis p0_flat : flat (concat (tabGroups p0)) p0 = true.

Local Abbreviation groups := (tabGroups p0).
Local Abbreviation listening := (listening p0).

Lemma group_NoDup (tabs : list NodeId) : tabs ∈ groups → NoDup tabs.
Proof.
  unfold tabGroups. intros (c & -> & _)%list_elem_of_fmap. apply query_in_NoDup.
Qed.

Lemma group_valid (tabs : list NodeId) (n : NodeId) :
  tabs ∈ groups → n ∈ tabs → is_Some (element n p0).
Proof.
  unfold tabGroups. intros (c & -> & _)%list_elem_of_fmap. apply query_in_valid.
Qed.

Lemma listening_valid (tabs : list NodeId) (n : NodeId) (q : Page) :
  listening q → tabs ∈ groups → n ∈ tabs → is_Some (element n q).
Proof.
  intros [_ Htree] Htabs Hn. eapply sameTree_existing; [done|].
  by eapply group_valid.
Qed.

Lemma listening_set_activeElement (r : Ref) (q : Page) :
  listening q → listening (set_activeElement r q).
Proof. intros [Hl Htree]. split; [done | by apply sameTree_set_activeElement]. Qed.

(** On its way up from a tab the event meets no listener but the tab's. *)
Lemma listenersFor_tab (t : NodeId) (type : string) (key : option string) (q : Page) :
  listening q → t ∈ concat groups →
  listenersFor (mkEvent type (OnElement t) key 0) q
  = concat (groupHandlers t type <$> groups).
Proof.
  intros [Hl Htree] Ht.
  assert (Hex : is_Some (element t p0)).
  { apply elem_of_concat in Ht as (tabs & Htabs & Hin). by eapply group_valid. }
  assert (Hon : ∀ x, listenersOn x type q
                     = concat ((λ tabs, listenerHandler
                                  <$> List.filter (listensTo x type)
                                        (tabListeners tabs 0 tabs)) <$> groups)).
  { intros x. unfold listenersOn.
    rewrite Hl, groupListeners_filter, fmap_concat, <- list_fmap_compose.
    done. }
  assert (Hnone : ∀ x, (∀ tab, tab ∈ concat groups → x ≠ OnElement tab) →
                       listenersOn x type q = []).
  { intros x Hx. rewrite Hon. apply concat_fmap_nil. intros tabs Htabs.
    rewrite tabListeners_other; [done|].
    intros tab Htab. apply Hx. apply elem_of_concat. eauto. }
  unfold listenersFor. cbn [eventTarget eventType eventPath].
  rewrite (ancestors_sameTree p0 q t) by done.
  cbn [fmap list_fmap app concat].
  rewrite concat_fmap_nil.
  { rewrite app_nil_r. apply Hon. }
  intros x Hx. apply Hnone. intros tab Htab ->.
  apply elem_of_app in Hx as [Hx | Hx].
  - apply list_elem_of_fmap in Hx as (a & [= <-] & Ha).
    by apply (flat_spec _ _ _ _ p0_flat Ht Ha).
  - destruct (bool_decide _); [|by apply elem_of_nil in Hx].
    apply elem_of_cons in Hx as [? | Hx]; [done|].
    apply elem_of_cons in Hx as [? | Hx]; [done|]. by apply elem_of_nil in Hx.
Qed.

(** The click listeners of a tab, one for each group that has the tab:
    afterwards the tab is the selected one of each of them. *)
Lemma run_click_handlers (c : NodeId → JS unit) (e : Event) (t : NodeId)
    (gs : list (list NodeId)) (q : Page) :
  (∀ tabs, tabs ∈ gs → tabs ∈ groups) →
  listening q →
  ∃ q',
    forEach (concat (groupHandlers t "click" <$> gs))
      (λ h, reported (runHandler c h e)) q = (Normal tt, q')
    ∧ listening q'
    ∧ keepsElements q q'
    ∧ activeElement q' = activeElement q
    ∧ (∀ tabs, tabs ∈ gs → t ∈ tabs → selectedIs tabs t q')
    ∧ (∀ tabs, tabs ∈ groups → selectedIs tabs t q → selectedIs tabs t q')
    ∧ (∀ n, (∀ tabs, tabs ∈ gs → t ∈ tabs → n ∉ tabs) →
            is_Some (element n q) → element n q' = element n q).
Proof.
  revert q. induction gs as [|g gs IH]; intros q Hgs Hq.
  { exists q. split; [done|]. split; [done|]. split; [apply keepsElements_refl|].
    split; [done|].
    split; [|done]. intros tabs Htabs. by apply elem_of_nil in Htabs. }
  assert (Hg : g ∈ groups) by (apply Hgs; by left).
  assert (Hgs' : ∀ tabs, tabs ∈ gs → tabs ∈ groups)
    by (intros tabs Htabs; apply Hgs; by right).
  cbn [fmap list_fmap concat].
  destruct (decide (t ∈ g)) as [Ht | Ht].
  - rewrite groupHandlers_here by (done || by apply group_NoDup).
    destruct (tabClick_selects g t q) as (q1 & Hrun1 & Hk1 & _);
      [intros n Hn; by eapply listening_valid | done |].
    destruct (tabClick_keeps_selected g g t q q1) as (Hsel1 & _ & Hout1);
      [intros n Hn; by eapply listening_valid.. | done | done |].
    assert (Hq1 : listening q1).
    { destruct Hq as [Hl Htree]. split.
      - by rewrite (tabClick_listeners _ _ _ _ Hrun1).
      - by eapply tabClick_sameTree. }
    destruct (IH q1 Hgs' Hq1) as (q' & Hrun & Hq' & Hk & Hact & Hsel & Hpres & Hout).
    exists q'. split; [|split; [done|split; [|split; [|split; [|split]]]]].
    + cbn [app forEach]. erewrite run_bind; [exact Hrun|].
      apply reported_normal. exact Hrun1.
    + by eapply keepsElements_trans.
    + by rewrite Hact, (tabClick_activeElement _ _ _ _ Hrun1).
    + intros tabs Htabs Hin. apply elem_of_cons in Htabs as [-> | Htabs].
      * by apply Hpres.
      * by apply Hsel.
    + intros tabs Htabs Hs. apply Hpres; [done|].
      destruct (tabClick_keeps_selected g tabs t q q1) as (_ & Hkeep & _);
        [intros n Hn; by apply (listening_valid g)
        |intros n Hn; by apply (listening_valid tabs) | done | done |].
      by apply Hkeep.
    + intros n Hn Hex. rewrite Hout.
      * apply Hout1; [|done]. apply Hn; [by left | done].
      * intros tabs Htabs. apply Hn. by right.
      * by apply Hk1.
  - rewrite groupHandlers_apart by done. cbn [app].
    destruct (IH q Hgs' Hq) as (q' & Hrun & Hq' & Hk & Hact & Hsel & Hpres & Hout).
    exists q'. split; [done|]. split; [done|]. split; [done|]. split; [done|].
    split; [|split; [done|]].
    + intros tabs Htabs Hin. apply elem_of_cons in Htabs as [-> | Htabs]; [done|].
      by apply Hsel.
    + intros n Hn. apply Hout. intros tabs Htabs. apply Hn. by right.
Qed.

(** [tab.click()] on a tab, and a click event on it. *)
Lemma click_selects (t : NodeId) (q : Page) :
  listening q → t ∈ concat groups →
  ∃ q',
    click t q = (Normal tt, q')
    ∧ listening q'
    ∧ keepsElements q q'
    ∧ activeElement q' = activeElement q
    ∧ (∀ tabs, tabs ∈ groups → t ∈ tabs → selectedIs tabs t q')
    ∧ (∀ n, (∀ tabs, tabs ∈ groups → t ∈ tabs → n ∉ tabs) →
            is_Some (element n q) → element n q' = element n q).
Proof.
  intros Hq Ht.
  destruct (run_click_handlers (λ _, mret tt) (clickOn t) t groups q)
    as (q' & Hrun & Hq' & Hk & Hact & Hsel & _ & Hout); [done..|].
  exists q'. split; [|done].
  unfold click. rewrite dispatchWith_run.
  unfold clickOn. by rewrite (listenersFor_tab t "click" None q).
Qed.

Lemma keepsElements_set_activeElement (r : Ref) (q : Page) :
  keepsElements q (set_activeElement r q).
Proof. intros n. by rewrite element_set_activeElement. Qed.

(** An arrow key on the tab at [i] of a group: the neighbour gets the focus
    and is clicked. *)
Lemma key_handler (tabs : list NodeId) (i : nat) (e : Event) (key : string) (q : Page) :
  tabs ∈ groups → (i < length tabs)%nat →
  eventKey e = Some key →
  bool_decide (key = "ArrowLeft") || bool_decide (key = "ArrowRight") = true →
  listening q →
  ∃ q' j t',
    targetIndex tabs i key = Some j ∧ tabs !! j = Some t'
    ∧ reported (runHandler click (TabKeydown tabs i) e) q = (Normal tt, q')
    ∧ listening q'
    ∧ keepsElements q q'
    ∧ activeElement q' = Some t'
    ∧ (∀ g, g ∈ groups → t' ∈ g → selectedIs g t' q')
    ∧ (∀ n, (∀ g, g ∈ groups → t' ∈ g → n ∉ g) →
            is_Some (element n q) → element n q' = element n q).
Proof.
  intros Htabs Hi Hkey Harrow Hq.
  destruct (targetIndex_in_range tabs i key Hi Harrow) as (j & t' & Hj & Ht').
  assert (Hin : t' ∈ concat groups).
  { apply elem_of_concat. exists tabs. split; [done|].
    apply list_elem_of_lookup. eauto. }
  destruct (click_selects t' (set_activeElement (Some t') q))
    as (q' & Hrun & Hq' & Hk & Hact & Hsel & Hout);
    [by apply listening_set_activeElement | done |].
  exists q', j, t'. split; [done|]. split; [done|].
  split; [|split; [done|split; [|split; [done|split; [done|]]]]].
  - apply reported_normal. cbn [runHandler]. unfold withKey. rewrite Hkey.
    unfold tabKeydown. rewrite Hj, Ht'. js_run. exact Hrun.
  - eapply keepsElements_trans; [apply keepsElements_set_activeElement | done].
  - intros n Hn Hex. rewrite Hout; [|done|by rewrite element_set_activeElement].
    apply element_set_activeElement.
Qed.

(** The keydown listeners of a tab, one for each group that has the tab. *)
Lemma run_key_handlers (t : NodeId) (e : Event) (key : string)
    (gs : list (list NodeId)) (q : Page) :
  eventKey e = Some key →
  bool_decide (key = "ArrowLeft") || bool_decide (key = "ArrowRight") = true →
  (∀ g, g ∈ gs → g ∈ groups) →
  listening q →
  ∃ q',
    forEach (concat (groupHandlers t "keydown" <$> gs))
      (λ h, reported (runHandler click h e)) q = (Normal tt, q')
    ∧ listening q'
    ∧ keepsElements q q'
    ∧ (∀ n, (∀ g, g ∈ gs → t ∈ g →
               ∀ t' g', t' ∈ g → g' ∈ groups → t' ∈ g' → n ∉ g') →
            is_Some (element n q) → element n q' = element n q)
    ∧ ∀ tabs, tabs ∈ groups →
        (∀ g, g ∈ gs → t ∈ g → ∀ x, x ∈ g → x ∈ tabs) →
        exactlyOneOf tabs q ∨ (tabs ∈ gs ∧ t ∈ tabs) →
        exactlyOneOf tabs q'.
Proof.
  intros Hkey Harrow. revert q. induction gs as [|g gs IH]; intros q Hgs Hq.
  { exists q. split; [done|]. split; [done|]. split; [apply keepsElements_refl|].
    split; [done|].
    intros tabs _ _ [Hone | [Hin _]]; [done | by apply elem_of_nil in Hin]. }
  assert (Hg : g ∈ groups) by (apply Hgs; by left).
  assert (Hgs' : ∀ g', g' ∈ gs → g' ∈ groups)
    by (intros g' Hg'; apply Hgs; by right).
  cbn [fmap list_fmap concat].
  destruct (decide (t ∈ g)) as [Ht | Ht].
  - destruct (proj1 (list_elem_of_lookup g t) Ht) as [i Hi].
    rewrite (groupHandlers_key t g i) by (done || by apply group_NoDup).
    destruct (key_handler g i e key q)
      as (q1 & j & t' & _ & Ht' & Hrun1 & Hq1 & Hk1 & _ & Hsel1 & Hout1);
      [done | by eapply lookup_lt_Some | done..|].
    assert (Hin' : t' ∈ g) by (apply list_elem_of_lookup; eauto).
    destruct (IH q1 Hgs' Hq1) as (q' & Hrun & Hq' & Hk & Hout & Hone).
    exists q'. split; [|split; [done|split; [|split]]].
    + cbn [app forEach]. by erewrite run_bind.
    + by eapply keepsElements_trans.
    + intros n Hn Hex. rewrite Hout.
      * apply Hout1; [|done]. intros g' Hg' Hin. eapply (Hn g); [by left | done..].
      * intros g' Hg'. apply Hn. by right.
      * by apply Hk1.
    + intros tabs Htabs Hsub Hcase. apply Hone; [done | |].
      * intros g' Hg'. apply Hsub. by right.
      * left. exists t'. split; [apply (Hsub g); [by left | done..]|].
        apply Hsel1; [done|]. apply (Hsub g); [by left | done..].
  - rewrite groupHandlers_apart by done. cbn [app].
    destruct (IH q Hgs' Hq) as (q' & Hrun & Hq' & Hk & Hout & Hone).
    exists q'. split; [done|]. split; [done|]. split; [done|]. split.
    + intros n Hn. apply Hout. intros g' Hg'. apply Hn. by right.
    + intros tabs Htabs Hsub Hcase. apply Hone; [done | |].
      * intros g' Hg'. apply Hsub. by right.
      * destruct Hcase as [Hone' | [Hin Htin]]; [by left|].
        apply elem_of_cons in Hin as [-> | Hin]; [done|]. by right.
Qed.

(** *** Nested groups *)




(** *** One event *)

Lemma targetIndex_idle (tabs : list NodeId) (i : nat) (key : string) :
  bool_decide (key = "ArrowLeft") || bool_decide (key = "ArrowRight") = false →
  targetIndex tabs i key = None.
Proof.
  intros [Hl Hr]%orb_false_iff. unfold targetIndex.
  apply bool_decide_eq_false in Hl, Hr.
  by rewrite !bool_decide_eq_false_2 by done.
Qed.



(** *** A sequence of events *)


(** *** The last group of a tab *)

Lemma groupHandlers_none (t : NodeId) (type : string) (gs : list (list NodeId)) :
  (∀ g, g ∈ gs → t ∉ g) → concat (groupHandlers t type <$> gs) = [].
Proof.
  intros Hgs. apply concat_fmap_nil. intros g Hg.
  apply groupHandlers_apart. by apply Hgs.
Qed.

(** An arrow key on a tab, seen from the last group that has the tab: its
    listener runs last, so its neighbour is the one that stays focused and
    selected. *)
Lemma key_last (tabs : list NodeId) (pre post : list (list NodeId))
    (i : nat) (t : NodeId) (key : string) (q : Page) :
  groups = pre ++ tabs :: post → (∀ g, g ∈ post → t ∉ g) →
  tabs !! i = Some t →
  bool_decide (key = "ArrowLeft") || bool_decide (key = "ArrowRight") = true →
  listening q →
  ∃ q' j t',
    targetIndex tabs i key = Some j ∧ tabs !! j = Some t'
    ∧ dispatch (keydownOn t key) q = (Normal tt, q')
    ∧ selectedIs tabs t' q'
    ∧ activeElement q' = Some t'.
Proof.
  intros Hsplit Hpost Hi Harrow Hq.
  assert (Htabs : tabs ∈ groups).
  { rewrite Hsplit. apply elem_of_app. right. by left. }
  assert (Ht : t ∈ tabs) by (apply list_elem_of_lookup; eauto).
  assert (Hin : t ∈ concat groups) by (apply elem_of_concat; eauto).
  assert (Hpre : ∀ g, g ∈ pre → g ∈ groups).
  { intros g Hg. rewrite Hsplit. apply elem_of_app. by left. }
  destruct (run_key_handlers t (keydownOn t key) key pre q)
    as (q1 & Hrun1 & Hq1 & _); [done..|].
  destruct (key_handler tabs i (keydownOn t key) key q1)
    as (q' & j & t' & Hj & Ht' & Hrun & _ & _ & Hact & Hsel & _);
    [done | by eapply lookup_lt_Some | done..|].
  exists q', j, t'. split; [done|]. split; [done|].
  split; [|split; [|done]].
  - unfold dispatch. rewrite dispatchWith_run. unfold keydownOn.
    rewrite (listenersFor_tab t "keydown" (Some key) q) by done.
    replace (concat (groupHandlers t "keydown" <$> groups))
      with (concat (groupHandlers t "keydown" <$> pre)
              ++ [TabKeydown tabs i]).
    { rewrite (forEach_app _ _ _ _ _ Hrun1). cbn [forEach].
      by erewrite run_bind. }
    rewrite Hsplit, fmap_app, concat_app. f_equal.
    cbn [fmap list_fmap concat].
    rewrite (groupHandlers_key t tabs i) by (done || by apply group_NoDup).
    by rewrite groupHandlers_none.
  - apply Hsel; [done|]. apply list_elem_of_lookup. eauto.
Qed.

(** *** Announcements *)

Lemma tabClick_announces (tabs : list NodeId) (tab : NodeId) (q q' : Page) :
  tabClick tabs tab q = (Normal tt, q') →
  length (nodes q') = S (length (nodes q))
  ∧ element (Node (length (nodes q))) q'
    = Some (announcement (textOf tab q +:+ " tab selected"))
  ∧ timers q'
    = timers q ++ [mkTimer (nextTimer q) 1000 false
                     (RemoveAnnouncement (Node (length (nodes q))))]
  ∧ nextTimer q' = S (nextTimer q)
  ∧ (is_Some (element tab q) → textOf tab q' = textOf tab q).
Proof.
  intros Hrun.
  destruct (tabClick_run tabs tab q) as (q1 & Hrun1 & Hkeep).
  rewrite Hrun1 in Hrun. injection Hrun as <-.
  assert (Hlen : length (nodes q1) = length (nodes q)).
  { apply (Hkeep _ (λ r, length (nodes r))); intros; apply length_nodes_update. }
  assert (Htimers : timers q1 = timers q).
  { apply (Hkeep _ timers); intros; apply update_timers. }
  assert (Hnext : nextTimer q1 = nextTimer q).
  { apply (Hkeep _ nextTimer); intros; apply nextTimer_update. }
  assert (Htext : textOf tab q1 = textOf tab q).
  { apply (Hkeep _ (textOf tab)); intros; by apply textOf_update_field. }
  split; [by rewrite announce_length, Hlen|]. split; [|split; [|split]].
  - cbn [element]. rewrite announce_nodes, <- Hlen.
    by rewrite lookup_app_r, Nat.sub_diag by lia.
  - by rewrite announce_timers, Htimers, Hnext, Hlen.
  - by rewrite <- Hnext.
  - intros Hex. rewrite <- Htext. unfold textOf. rewrite announce_element; [done|].
    destruct tab as [| | |i]; try by eexists.
    cbn [element] in Hex |- *. rewrite lookup_lt_is_Some in Hex |- *. lia.
Qed.

Lemma announcementTimers_cons (id node k : nat) :
  announcementTimers id node (S k)
  = mkTimer id 1000 false (RemoveAnnouncement (Node node))
    :: announcementTimers (S id) (S node) k.
Proof.
  unfold announcementTimers. cbn [seq fmap list_fmap].
  rewrite !Nat.add_0_r. f_equal.
  rewrite <- seq_shift, <- list_fmap_compose.
  apply list_fmap_ext. intros _ i _. cbn. by rewrite !Nat.add_succ_r.
Qed.

(** The click listeners of a tab each make one announcement of its label. *)
Lemma run_click_announces (c : NodeId → JS unit) (e : Event) (t : NodeId)
    (gs : list (list NodeId)) (q : Page) :
  (∀ tabs, tabs ∈ gs → tabs ∈ groups) →
  listening q → is_Some (element t p0) →
  let k := length (List.filter (λ g, bool_decide (t ∈ g)) gs) in
  ∃ q',
    forEach (concat (groupHandlers t "click" <$> gs))
      (λ h, reported (runHandler c h e)) q = (Normal tt, q')
    ∧ length (nodes q') = (length (nodes q) + k)%nat
    ∧ (∀ i, (i < k)%nat →
            element (Node (length (nodes q) + i)) q'
            = Some (announcement (textOf t q +:+ " tab selected")))
    ∧ timers q' = timers q ++ announcementTimers (nextTimer q) (length (nodes q)) k
    ∧ nextTimer q' = (nextTimer q + k)%nat.
Proof.
  intros Hgs Hq Ht. revert q Hgs Hq. induction gs as [|g gs IH]; intros q Hgs Hq.
  { exists q. cbn. rewrite !Nat.add_0_r, app_nil_r.
    split; [done|]. split; [done|]. split; [intros; lia | done]. }
  assert (Hg : g ∈ groups) by (apply Hgs; by left).
  assert (Hgs' : ∀ tabs, tabs ∈ gs → tabs ∈ groups)
    by (intros tabs Htabs; apply Hgs; by right).
  cbn [fmap list_fmap concat List.filter].
  destruct (decide (t ∈ g)) as [Hin | Hin].
  - rewrite bool_decide_eq_true_2 by done.
    rewrite groupHandlers_here by (done || by apply group_NoDup).
    destruct (tabClick_selects g t q) as (q1 & Hrun1 & Hk1 & _);
      [intros n Hn; by eapply listening_valid | done |].
    assert (Hq1 : listening q1).
    { destruct Hq as [Hl Htree]. split.
      - by rewrite (tabClick_listeners _ _ _ _ Hrun1).
      - by eapply tabClick_sameTree. }
    destruct (tabClick_announces g t q q1 Hrun1)
      as (Hlen1 & Hnew1 & Htimers1 & Hnext1 & Htext1).
    destruct (IH q1 Hgs' Hq1) as (q' & Hrun & Hlen & Hnew & Htimers & Hnext).
    destruct (run_click_handlers c e t gs q1 Hgs' Hq1)
      as (q'' & Hrun' & _ & _ & _ & _ & _ & Hout).
    rewrite Hrun in Hrun'. injection Hrun' as <-.
    exists q'. split; [|split; [|split; [|split]]].
    + cbn [app forEach]. erewrite run_bind; [exact Hrun|].
      apply reported_normal. exact Hrun1.
    + cbn [length]. lia.
    + intros i Hi. cbn [length] in Hi.
      destruct i as [|i];
        [|rewrite <- Htext1
            by (destruct Hq as [_ Htree]; by eapply sameTree_existing)].
      * rewrite Nat.add_0_r, Hout; [by rewrite Hnew1 | | by rewrite Hnew1].
        intros tabs Htabs _ Hn.
        apply (group_valid tabs) in Hn; [|by apply Hgs'].
        destruct Hq as [_ [Hle _]].
        cbn [element] in Hn. apply lookup_lt_is_Some in Hn. lia.
      * replace (length (nodes q) + S i)%nat with (length (nodes q1) + i)%nat by lia.
        apply Hnew. lia.
    + cbn [length]. rewrite announcementTimers_cons, Htimers, Htimers1, Hnext1, Hlen1.
      by rewrite <- app_assoc.
    + cbn [length]. lia.
  - rewrite bool_decide_eq_false_2 by done.
    rewrite groupHandlers_apart by done. cbn [app].
    by apply IH.
Qed.

(** A click on a tab: one announcement for each group that has the tab. *)
Lemma click_announces (t : NodeId) (q : Page) :
  listening q → t ∈ concat groups →
  let k := length (List.filter (λ g, bool_decide (t ∈ g)) groups) in
  ∃ q',
    dispatch (clickOn t) q = (Normal tt, q')
    ∧ length (nodes q') = (length (nodes q) + k)%nat
    ∧ (∀ i, (i < k)%nat →
            element (Node (length (nodes q) + i)) q'
            = Some (announcement (textOf t q +:+ " tab selected")))
    ∧ timers q' = timers q ++ announcementTimers (nextTimer q) (length (nodes q)) k.
Proof.
  intros Hq Ht k.
  assert (Hex : is_Some (element t p0)).
  { apply elem_of_concat in Ht as (tabs & Htabs & Hin). by eapply group_valid. }
  destruct (run_click_announces (λ _, mret tt) (clickOn t) t groups q)
    as (q' & Hrun & Hlen & Hnew & Htimers & _); [done..|].
  exists q'. split; [|done].
  rewrite dispatch_click. unfold click. rewrite dispatchWith_run.
  unfold clickOn. by rewrite (listenersFor_tab t "click" None q).
Qed.

End TabRun.

Lemma initTabs_listening (p : Page) :
  listeners p = [] →
  ∃ p1, initTabs p = (Normal tt, p1)
    ∧ listening p p1
    ∧ (∀ n, element n p1 = element n p)
    ∧ nodes p1 = nodes p ∧ timers p1 = timers p ∧ nextTimer p1 = nextTimer p
    ∧ activeElement p1 = activeElement p.
Proof.
  intros Hnone. eexists. split; [apply initTabs_registers|].
  split; [split|].
  - destruct p. cbn in Hnone |- *. by rewrite Hnone.
  - split; [by destruct p|]. intros n _. apply parent_of_set_listeners.
  - split; [intros n; apply element_set_listeners|]. by destruct p.
Qed.




(** X7. After [initTabs], a keydown event with ArrowRight on the tab at
    [index] of a group targets the tab at [(index + 1) mod n], and one with
    ArrowLeft the tab at [(index + n - 1) mod n], wrapping around at both
    ends.  Seen from the last group of the page that has the tab (on a page
    without nested groups, its one group) the targeted tab ends focused, and
    as the one selected and the one active tab of the group. *)
Theorem arrow_keys_wrap_around
    (p : Page) (pre post : list (list NodeId)) (tabs : list NodeId)
    (index : nat) (on : NodeId) (key : string) :
  let target := if bool_decide (key = "ArrowRight")
                then ((index + 1) `mod` length tabs)%nat
                else ((index + length tabs - 1) `mod` length tabs)%nat in
  listeners p = [] →
  ordered p = true →
  flat (concat (tabGroups p)) p = true →
  tabGroups p = pre ++ tabs :: post →
  (∀ g, g ∈ post → on ∉ g) →
  tabs !! index = Some on →
  key = "ArrowRight" ∨ key = "ArrowLeft" →
  ∃ p' tab,
    tabs !! target = Some tab
    ∧ (initTabs;; tabEvent (TabKeyPressed on key)) p = (Normal tt, p')
    ∧ selectedTabs tabs p' = [tab]
    ∧ activeTabs tabs p' = [tab]
    ∧ activeElement p' = Some tab.
Proof.
  intros target Hnone Hord Hflat Hsplit Hpost Hon Hkey.
  assert (Hindex : (index < length tabs)%nat) by by eapply lookup_lt_Some.
  pose proof (targetIndex_wraps tabs index key Hindex Hkey) as Htarget.
  fold target in Htarget.
  assert (Harrow : bool_decide (key = "ArrowLeft") || bool_decide (key = "ArrowRight")
                   = true).
  { destruct Hkey as [-> | ->]; reflexivity. }
  destruct (initTabs_listening p Hnone) as (p1 & Hinit & Hp1 & _).
  destruct (key_last p Hord Hflat tabs pre post index on key p1)
    as (p' & j & tab & Hj & Htab & Hrun & Hsel & Hact); [done..|].
  rewrite Htarget in Hj. injection Hj as <-.
  assert (Htabs : tabs ∈ tabGroups p).
  { rewrite Hsplit. apply elem_of_app. right. by left. }
  destruct (selectedIs_exactly_one tabs tab p') as [Hselected Hactive];
    [by eapply group_NoDup | apply list_elem_of_lookup; eauto | done |].
  exists p', tab. split; [done|].
  split; [by rewrite (run_bind _ _ _ _ _ Hinit)|]. done.
Qed.

Lemma arrow_keys_wrap_around_witness :
  ∃ p' tab,
    [Node 3; Node 4] !! ((1 + 1) `mod` 2)%nat = Some tab
    ∧ (initTabs;; tabEvent (TabKeyPressed (Node 4) "ArrowRight")) nestedTabsPage
      = (Normal tt, p')
    ∧ selectedTabs [Node 3; Node 4] p' = [tab]
    ∧ activeTabs [Node 3; Node 4] p' = [tab]
    ∧ activeElement p' = Some tab.
Proof.
  apply (arrow_keys_wrap_around nestedTabsPage [[Node 1; Node 3; Node 4]] []
           [Node 3; Node 4] 1 (Node 4) "ArrowRight").
  - reflexivity.
  - vm_compute. reflexivity.
  - vm_compute. reflexivity.
  - vm_compute. reflexivity.
  - intros g Hg. by apply elem_of_nil in Hg.
  - reflexivity.
  - left. reflexivity.
Defined.

(** X8. After [initTabs], a click on a tab completes and announces the
    tab's text (as it was before the click) followed by [" tab selected"],
    once for each group that has the tab: on a page where the tab is in [k]
    groups ([k] is 1 unless groups are nested), the page gets [k] more
    elements, each a status node with that text, and [k] more timeouts of
    1000 ms, one to remove each of them. *)
Theorem tab_click_announces_label (p : Page) (tab : NodeId) :
  let k := length (List.filter (λ g, bool_decide (tab ∈ g)) (tabGroups p)) in
  listeners p = [] →
  ordered p = true →
  flat (concat (tabGroups p)) p = true →
  tab ∈ concat (tabGroups p) →
  ∃ p',
    (initTabs;; tabEvent (TabClicked tab)) p = (Normal tt, p')
    ∧ length (nodes p') = (length (nodes p) + k)%nat
    ∧ (∀ i, (i < k)%nat →
            element (Node (length (nodes p) + i)) p'
            = Some (announcement (textOf tab p +:+ " tab selected")))
    ∧ timers p' = timers p ++ announcementTimers (nextTimer p) (length (nodes p)) k.
Proof.
  intros k Hnone Hord Hflat Htab.
  destruct (initTabs_listening p Hnone)
    as (p1 & Hinit & Hp1 & Hsame & Hnodes & Htimers & Hnext & _).
  destruct (click_announces p Hord Hflat tab p1 Hp1 Htab)
    as (p' & Hrun & Hlen & Hnew & Hadded).
  exists p'. split; [by rewrite (run_bind _ _ _ _ _ Hinit)|].
  unfold textOf in Hnew. rewrite Hsame, Hnodes in Hnew.
  rewrite Hnodes in Hlen. rewrite Htimers, Hnext, Hnodes in Hadded. done.
Qed.

Lemma tab_click_announces_label_witness :
  ∃ p',
    (initTabs;; tabEvent (TabClicked (Node 3))) nestedTabsPage = (Normal tt, p')
    ∧ length (nodes p') = (5 + 2)%nat
    ∧ (∀ i, (i < 2)%nat →
            element (Node (5 + i)) p' = Some (announcement " tab selected"))
    ∧ timers p' = [] ++ announcementTimers 0 5 2.
Proof.
  apply (tab_click_announces_label nestedTabsPage (Node 3)).
  - reflexivity.
  - vm_compute. reflexivity.
  - vm_compute. reflexivity.
  - apply (bool_decide_unpack _). vm_compute. exact I.
Defined.

(** ** Clicks on the slider's dots *)

Lemma register_dot_listeners (l : list NodeId) (start : nat) (q : Page) :
  forEach_indexed start l (λ dot index,
    addEventListener (Some dot) "click" (DotClick index)) q
  = (Normal tt, set_listeners (λ ls, ls ++ dotListeners start l) q).
Proof.
  revert start q. induction l as [|d l IH]; intros start q.
  { cbn. by rewrite set_listeners_nil. }
  cbn [forEach_indexed dotListeners].
  erewrite run_bind; [|unfold addEventListener; js_run; reflexivity].
  rewrite IH. f_equal. unfold set_listeners. cbn.
  by rewrite <- !app_assoc.
Qed.

Lemma initSlider_registers (p : Page) :
  let slides := document_querySelectorAll [ByClass "slide"] p in
  let dots := document_querySelectorAll [ByClass "dot"] p in
  listeners p = [] →
  (1 < length slides)%nat →
  ∃ q, initSlider p = (Normal tt, q)
    ∧ sliding slides dots (timers p ++ [sliderTimer (nextTimer p)]) 0 q
    ∧ sliderListening dots p q.
Proof.
  intros slides dots Hnone Hlen.
  destruct (initSlider_starts p Hlen) as (q & Hinit & Hq).
  exists q. split; [done|]. split; [done|].
  revert Hinit. unfold initSlider. js_run. fold slides. fold dots.
  rewrite (proj2 (Nat.leb_gt _ _)) by done.
  rewrite register_dot_listeners. intros [= <-].
  split; [|split].
  - destruct p. cbn in Hnone |- *. by rewrite Hnone.
  - by destruct p.
  - intros n. by destruct n.
Qed.

Lemma ancestors_ext (fuel : nat) (p q : Page) (n : NodeId) :
  (∀ m, parent_of m q = parent_of m p) →
  ancestors fuel q n = ancestors fuel p n.
Proof.
  intros Hparent. revert n. induction fuel as [|fuel IH]; intros n; [done|].
  cbn [ancestors]. rewrite Hparent. destruct (parent_of n p); [by rewrite IH | done].
Qed.

Lemma dotListeners_handlers (t : EventTarget) (type : string) (start : nat)
    (l : list NodeId) :
  Forall (λ h, ∃ j, h = DotClick j)
    (listenerHandler <$> List.filter (listensTo t type) (dotListeners start l)).
Proof.
  revert start. induction l as [|d l IH]; intros start; [constructor|].
  cbn [dotListeners List.filter]. destruct (listensTo _ _ _); [|apply IH].
  cbn [fmap list_fmap]. constructor; [by eexists | apply IH].
Qed.

Lemma dotListeners_other (t : EventTarget) (type : string) (start : nat)
    (l : list NodeId) :
  (∀ d, d ∈ l → t ≠ OnElement d) →
  List.filter (listensTo t type) (dotListeners start l) = [].
Proof.
  revert start. induction l as [|d l IH]; intros start Ht; [done|].
  cbn [dotListeners List.filter]. rewrite listensTo_mk.
  rewrite (bool_decide_eq_false_2 (OnElement d = t))
    by (intros <-; by apply (Ht d); [left|]).
  cbn. apply IH. intros d' Hd'. apply Ht. by right.
Qed.

Lemma dotListeners_click (d : NodeId) (i start : nat) (l : list NodeId) :
  NoDup l → l !! i = Some d →
  listenerHandler
    <$> List.filter (listensTo (OnElement d) "click") (dotListeners start l)
  = [DotClick (start + i)].
Proof.
  intros Hnd. revert i start. induction Hnd as [|x l Hx Hnd IH]; intros i start Hi.
  { by rewrite lookup_nil in Hi. }
  cbn [dotListeners List.filter]. rewrite listensTo_mk.
  destruct i as [|i]; cbn in Hi.
  - injection Hi as ->.
    rewrite !bool_decide_eq_true_2 by done. cbn [andb fmap list_fmap].
    rewrite dotListeners_other; [by rewrite Nat.add_0_r|].
    intros d' Hd' [= ->]. done.
  - rewrite (bool_decide_eq_false_2 (OnElement x = OnElement d)).
    + cbn [andb]. rewrite (IH i (S start) Hi). f_equal. f_equal. lia.
    + intros [= ->]. apply Hx. apply list_elem_of_lookup. eauto.
Qed.

Lemma showSlide_keeps {X} (f : Page → X) (slides dots : list NodeId) (index : nat) :
  (∀ n g r, f (update n (with_classList g) r) = f r) →
  keeps f (showSlide slides dots index).
Proof.
  intros Hf. unfold showSlide, classList_toggle_force. keeps_structure; apply Hf.
Qed.

Section SliderEvents.

Variable p : Page.
Variable id : nat.

Local Abbreviation slides := (document_querySelectorAll [ByClass "slide"] p).
Local Abbreviation dots := (document_querySelectorAll [ByClass "dot"] p).
Local Abbreviation pending := (timers p ++ [sliderTimer id]).
Local Abbreviation sliding := (sliding slides dots pending).
Local Abbreviation shown := (shown slides dots).
Local Abbreviation listening := (sliderListening dots p).

Hypothesis scheduled :
  List.find (λ t, (timerId t =? id)%nat) pending = Some (sliderTimer id).

(** Whatever is clicked, the listeners the event meets are dot listeners. *)
Lemma listenersFor_dots (e : Event) (q : Page) :
  listening q → Forall (λ h, ∃ j, h = DotClick j) (listenersFor e q).
Proof.
  intros (Hl & _). unfold listenersFor.
  induction (eventPath (eventTarget e) q) as [|t path IH]; [constructor|].
  cbn [fmap list_fmap concat]. apply Forall_app. split; [|done].
  unfold listenersOn. rewrite Hl. apply dotListeners_handlers.
Qed.

(** A click on a dot meets the listener of that dot alone. *)
Lemma listenersFor_dot (d : NodeId) (i : nat) (q : Page) :
  flat dots p = true → dots !! i = Some d → listening q →
  listenersFor (clickOn d) q = [DotClick i].
Proof.
  intros Hflat Hi (Hl & Hlen & Hparent).
  assert (Hd : d ∈ dots) by (apply list_elem_of_lookup; eauto).
  unfold listenersFor, listenersOn. cbn [clickOn eventTarget eventType eventPath].
  rewrite Hl, Hlen, (ancestors_ext _ p q d Hparent).
  cbn [fmap list_fmap app concat].
  rewrite (dotListeners_click d i 0 dots (document_query_NoDup _ p) Hi).
  cbn [Nat.add app]. f_equal.
  apply concat_fmap_nil. intros t Ht.
  rewrite dotListeners_other; [done|].
  intros d' Hd' ->.
  apply elem_of_app in Ht as [Ht | Ht].
  - apply list_elem_of_fmap in Ht as (a & [= <-] & Ha).
    by apply (flat_spec _ _ _ _ Hflat Hd Ha).
  - destruct (bool_decide _); [|by apply elem_of_nil in Ht].
    apply elem_of_cons in Ht as [? | Ht]; [done|].
    apply elem_of_cons in Ht as [? | Ht]; [done|]. by apply elem_of_nil in Ht.
Qed.

Lemma select_index_listening (current index : nat) (q : Page) :
  sliding current q → listening q →
  ∃ q', (set_currentSlide (mkSliderEnv slides dots current) index;;
         showSlide slides dots index) q = (Normal tt, q')
    ∧ sliding index q' ∧ shown index q' ∧ listening q'.
Proof.
  intros Hq (Hl & Hlen & Hparent).
  destruct (select_index slides dots pending
              (document_query_NoDup _ p) (document_query_NoDup _ p)
              current index q Hq) as (q' & Hrun & Hq' & Hshown).
  exists q'. split; [done|]. split; [done|]. split; [done|].
  revert Hrun. unfold set_currentSlide. js_run. intros Hrun.
  split; [|split].
  - rewrite (keeps_returns listeners _ _ _ _
               (showSlide_keeps listeners slides dots index
                  (λ n g r, listeners_update n _ r)) Hrun).
    exact Hl.
  - rewrite (keeps_returns (λ r, length (nodes r)) _ _ _ _
               (showSlide_keeps _ slides dots index
                  (λ n g r, length_nodes_update n _ r)) Hrun).
    exact Hlen.
  - intros n.
    rewrite (keeps_returns (parent_of n) _ _ _ _
               (showSlide_keeps _ slides dots index
                  (λ m g r, parent_of_update n m _ r (keepsShape_classList g))) Hrun).
    rewrite <- Hparent. by destruct n.
Qed.

(** The click listener of the dot at [index]. *)
Lemma dotClick_step (current index : nat) (q : Page) :
  sliding current q → listening q →
  ∃ q', dotClick index q = (Normal tt, q')
    ∧ sliding index q' ∧ shown index q' ∧ listening q'.
Proof.
  intros Hq Hl.
  destruct (select_index_listening current index q Hq Hl) as (q' & Hrun & Hq').
  exists q'. split; [|done].
  destruct Hq as (Hs & _). unfold dotClick. js_run. rewrite Hs. exact Hrun.
Qed.

(** A tick of the interval. *)
Lemma tick_step (current : nat) (q : Page) :
  sliding current q → listening q →
  ∃ q', fireTimer id q = (Normal tt, q')
    ∧ sliding ((current + 1) `mod` length slides)%nat q'
    ∧ shown ((current + 1) `mod` length slides)%nat q'
    ∧ listening q'.
Proof.
  intros Hq Hl.
  destruct (select_index_listening current ((current + 1) `mod` length slides)%nat
              q Hq Hl) as (q' & Hrun & Hq').
  exists q'. split; [|done].
  destruct Hq as (Hs & Ht & _).
  unfold fireTimer. js_run. rewrite Ht, scheduled.
  cbn [sliderTimer timerRepeats timerTask runTask].
  unfold sliderAdvance. js_run. rewrite Hs. exact Hrun.
Qed.

Lemma dot_handlers_keep (hs : list Handler) (e : Event) (current : nat) (q : Page) :
  Forall (λ h, ∃ j, h = DotClick j) hs →
  sliding current q → listening q →
  ∃ q' current',
    forEach hs (λ h, reported (runHandler click h e)) q = (Normal tt, q')
    ∧ sliding current' q' ∧ listening q'.
Proof.
  intros Hhs. revert current q.
  induction Hhs as [|h hs [j ->] Hhs IH]; intros current q Hq Hl.
  { by exists q, current. }
  destruct (dotClick_step current j q Hq Hl) as (q1 & Hrun1 & Hq1 & _ & Hl1).
  destruct (IH j q1 Hq1 Hl1) as (q' & c' & Hrun & Hq').
  exists q', c'. split; [|done].
  cbn [forEach]. erewrite run_bind; [exact Hrun|].
  by apply reported_normal.
Qed.

(** A click on the dot at [index], through the listeners on the page, moves
    to that dot's index; the pending timers are as before. *)
Lemma dot_selects (current index : nat) (d : NodeId) (q : Page) :
  flat dots p = true → dots !! index = Some d →
  sliding current q → listening q →
  ∃ q', sliderEvent id (Clicked d) q = (Normal tt, q')
    ∧ sliding index q' ∧ shown index q' ∧ listening q'.
Proof.
  intros Hflat Hd Hq Hl.
  destruct (dotClick_step current index q Hq Hl) as (q' & Hrun & Hq').
  exists q'. split; [|done].
  cbn [sliderEvent]. unfold dispatch. rewrite dispatchWith_run.
  rewrite (listenersFor_dot d index q Hflat Hd Hl).
  cbn [forEach]. erewrite run_bind; [reflexivity|].
  by apply reported_normal.
Qed.

Lemma sliderEvent_keeps (e : SliderEvent) (current : nat) (q : Page) :
  sliding current q → listening q →
  ∃ q' current', sliderEvent id e q = (Normal tt, q')
    ∧ sliding current' q' ∧ listening q'.
Proof.
  intros Hq Hl. destruct e as [|target].
  - destruct (tick_step current q Hq Hl) as (q' & Hrun & Hq' & _ & Hl'). eauto.
  - cbn [sliderEvent]. unfold dispatch. rewrite dispatchWith_run.
    apply (dot_handlers_keep _ _ current); [by apply listenersFor_dots | done..].
Qed.

Lemma sliderRun_keeps (es : list SliderEvent) (current : nat) (q : Page) :
  sliding current q → listening q →
  ∃ q' current', runAll (map (sliderEvent id) es) q = (Normal tt, q')
                 ∧ sliding current' q' ∧ listening q'.
Proof.
  revert current q. induction es as [|e es IH]; intros current q Hq Hl.
  { by exists q, current. }
  destruct (sliderEvent_keeps e current q Hq Hl) as (q1 & c1 & Hrun & Hq1 & Hl1).
  destruct (IH c1 q1 Hq1 Hl1) as (q' & c' & Hrun' & Hq').
  exists q', c'. split; [|done].
  cbn [map]. by rewrite (runAll_cons _ _ _ _ Hrun).
Qed.

End SliderEvents.

(** C7. On a page with three slides where no dot lies inside another dot
    and the slider's listeners are the only ones, [initSlider] starts at
    index 0; two ticks of its interval leave the index at 2, with the marker
    on slide 2 and dot 2 only.  Whatever ticks and clicks came before, a tick
    moves the index by one modulo three, and a click on the second dot, which
    reaches the listener [initSlider] registered on it, sets the index to 1
    with the marker on slide 1 and dot 1 only, leaves the pending timers as
    they were, and the next tick moves on from 1 to 2.  (The marker
    statements are those of [shown].) *)
Theorem slider_three_slides (p : Page) (dot : NodeId) :
  let slides := document_querySelectorAll [ByClass "slide"] p in
  let dots := document_querySelectorAll [ByClass "dot"] p in
  let timer := nextTimer p in
  listeners p = [] →
  timersFresh p = true →
  flat dots p = true →
  length slides = 3%nat →
  dots !! 1%nat = Some dot →
  ∃ p0, initSlider p = (Normal tt, p0)
    ∧ activeIndex p0 = Some 0%nat
    ∧ (∃ p2, runAll (map (sliderEvent timer) [TimerTick; TimerTick]) p0 = (Normal tt, p2)
          ∧ activeIndex p2 = Some 2%nat
          ∧ shown slides dots 2 p2)
    ∧ ∀ es : list SliderEvent,
        ∃ q c, runAll (map (sliderEvent timer) es) p0 = (Normal tt, q)
          ∧ activeIndex q = Some c
          ∧ (∃ q', sliderEvent timer TimerTick q = (Normal tt, q')
                ∧ activeIndex q' = Some ((c + 1) `mod` 3)%nat
                ∧ shown slides dots ((c + 1) `mod` 3)%nat q')
          ∧ (∃ q1 q2, sliderEvent timer (Clicked dot) q = (Normal tt, q1)
                ∧ activeIndex q1 = Some 1%nat
                ∧ shown slides dots 1 q1
                ∧ timers q1 = timers q
                ∧ timerPending timer q1 = true
                ∧ sliderEvent timer TimerTick q1 = (Normal tt, q2)
                ∧ activeIndex q2 = Some 2%nat
                ∧ shown slides dots 2 q2).
Proof.
  intros slides dots timer Hnone Hfresh Hflat Hthree Hdot.
  pose proof (find_scheduled p Hfresh) as Hfind. fold timer in Hfind.
  set (pending := timers p ++ [sliderTimer timer]) in *.
  destruct (initSlider_registers p Hnone) as (p0 & Hinit & Hp0 & Hl0);
    [fold slides; lia|].
  fold slides dots timer pending in Hp0, Hl0.
  assert (Htick : ∀ c q, sliding slides dots pending c q → sliderListening dots p q →
            ∃ q', sliderEvent timer TimerTick q = (Normal tt, q')
              ∧ sliding slides dots pending ((c + 1) `mod` 3)%nat q'
              ∧ shown slides dots ((c + 1) `mod` 3)%nat q'
              ∧ sliderListening dots p q').
  { intros c q Hq Hl. rewrite <- Hthree. by apply (tick_step p timer Hfind). }
  exists p0. split; [exact Hinit|].
  split; [by eapply sliding_activeIndex|]. split.
  - destruct (Htick 0%nat p0 Hp0 Hl0) as (p1 & Hrun1 & Hp1 & _ & Hl1).
    destruct (Htick _ p1 Hp1 Hl1) as (p2 & Hrun2 & Hp2 & Hshown & _).
    exists p2. split; [|split; [by eapply sliding_activeIndex | done]].
    cbn [map]. rewrite (runAll_cons _ _ _ _ Hrun1), (runAll_cons _ _ _ _ Hrun2).
    done.
  - intros es.
    destruct (sliderRun_keeps p timer Hfind es 0%nat p0 Hp0 Hl0)
      as (q & c & Hrun & Hq & Hl).
    exists q, c. split; [exact Hrun|].
    split; [by eapply sliding_activeIndex|]. split.
    + destruct (Htick c q Hq Hl) as (q' & Hrun' & Hq' & Hshown & _).
      exists q'. split; [done|]. split; [by eapply sliding_activeIndex | done].
    + destruct (dot_selects p timer c 1%nat dot q Hflat Hdot Hq Hl)
        as (q1 & Hrun1 & Hq1 & Hshown1 & Hl1).
      destruct (Htick 1%nat q1 Hq1 Hl1) as (q2 & Hrun2 & Hq2 & Hshown2 & _).
      exists q1, q2. split; [done|].
      split; [by eapply sliding_activeIndex|]. split; [done|].
      split; [destruct Hq as (_ & -> & _), Hq1 as (_ & -> & _); done|].
      split.
      { destruct Hq1 as (_ & Ht1 & _). unfold timerPending. rewrite Ht1.
        subst pending. rewrite existsb_app. cbn. rewrite Nat.eqb_refl.
        by rewrite orb_true_r. }
      split; [done|]. split; [by eapply sliding_activeIndex | done].
Qed.

Lemma slider_three_slides_witness :
  ∃ p0 p2 q1,
    initSlider sliderPage = (Normal tt, p0)
    ∧ activeIndex p0 = Some 0%nat
    ∧ runAll (map (sliderEvent (nextTimer sliderPage)) [TimerTick; TimerTick]) p0
      = (Normal tt, p2)
    ∧ activeIndex p2 = Some 2%nat
    ∧ sliderEvent (nextTimer sliderPage) (Clicked (Node 5)) p2 = (Normal tt, q1)
    ∧ activeIndex q1 = Some 1%nat.
Proof.
  destruct (slider_three_slides sliderPage (Node 5))
    as (p0 & Hinit & Hzero & (p2 & Hrun & Htwo & _) & Hany).
  - reflexivity.
  - reflexivity.
  - vm_compute. reflexivity.
  - vm_compute. reflexivity.
  - vm_compute. reflexivity.
  - destruct (Hany [TimerTick; TimerTick])
      as (q & c & Hrun' & _ & _ & (q1 & q2 & Hclick & Hone & _)).
    rewrite Hrun in Hrun'. injection Hrun' as <-.
    exists p0, p2, q1. do 5 (split; [assumption|]). assumption.
Defined.

(** X16. A dot without a slide.  Where the page has more dots than slides
    (no dot inside another dot, no element slide and dot at once, the
    slider's listeners the only ones), a click on a dot beyond the last slide
    reaches the listener [initSlider] registered on that dot and sets the
    index to the dot's own position: that dot alone is marked and no slide
    is, so nothing is shown until the next tick, which resumes at that
    position plus one modulo the number of slides. *)
Theorem dot_without_slide (p : Page) (index : nat) (dot : NodeId) :
  let slides := document_querySelectorAll [ByClass "slide"] p in
  let dots := document_querySelectorAll [ByClass "dot"] p in
  let timer := nextTimer p in
  listeners p = [] →
  timersFresh p = true →
  flat dots p = true →
  (1 < length slides)%nat →
  (length slides <= index)%nat →
  dots !! index = Some dot →
  apartFrom slides dots = true →
  ∃ p0 q q',
    initSlider p = (Normal tt, p0)
    ∧ sliderEvent timer (Clicked dot) p0 = (Normal tt, q)
    ∧ activeIndex q = Some index
    ∧ (∀ n, n ∈ slides → has_class "active" n q = false)
    ∧ (∀ i n, dots !! i = Some n → has_class "active" n q = bool_decide (i = index))
    ∧ sliderEvent timer TimerTick q = (Normal tt, q')
    ∧ activeIndex q' = Some ((index + 1) `mod` length slides)%nat.
Proof.
  intros slides dots timer Hnone Hfresh Hflat Hlen Hbeyond Hdot Hapart.
  pose proof (find_scheduled p Hfresh) as Hfind.
  destruct (initSlider_registers p Hnone Hlen) as (p0 & Hinit & Hp0 & Hl0).
  destruct (dot_selects p timer 0 index dot p0 Hflat Hdot Hp0 Hl0)
    as (q & Hclick & Hq & [Hdots Hslides] & Hl).
  destruct (tick_step p timer Hfind index q Hq Hl)
    as (q' & Htick & Hq' & _).
  exists p0, q, q'. split; [done|]. split; [done|].
  split; [by eapply sliding_activeIndex|]. split; [|split; [done|split; [done|]]].
  - intros n Hn. apply list_elem_of_lookup in Hn as [i Hi].
    rewrite (Hslides Hapart i n Hi). apply bool_decide_eq_false_2.
    apply lookup_lt_Some in Hi. fold slides in Hi. lia.
  - by eapply sliding_activeIndex.
Qed.

Lemma dot_without_slide_witness :
  let slides := document_querySelectorAll [ByClass "slide"] extraDotPage in
  let dots := document_querySelectorAll [ByClass "dot"] extraDotPage in
  let timer := nextTimer extraDotPage in
  ∃ p0 q q',
    initSlider extraDotPage = (Normal tt, p0)
    ∧ sliderEvent timer (Clicked (Node 5)) p0 = (Normal tt, q)
    ∧ activeIndex q = Some 2%nat
    ∧ (∀ n, n ∈ slides → has_class "active" n q = false)
    ∧ (∀ i n, dots !! i = Some n → has_class "active" n q = bool_decide (i = 2%nat))
    ∧ sliderEvent timer TimerTick q = (Normal tt, q')
    ∧ activeIndex q' = Some ((2 + 1) `mod` length slides)%nat.
Proof.
  apply (dot_without_slide extraDotPage 2 (Node 5)).
  - reflexivity.
  - reflexivity.
  - vm_compute. reflexivity.
  - vm_compute. lia.
  - vm_compute. lia.
  - vm_compute. reflexivity.
  - vm_compute. reflexivity.
Defined.

(** ** The Escape key, through the listeners of the page *)

Lemma document_query_set_listeners (sel : Selector)
    (f : list Listener → list Listener) (p : Page) :
  document_querySelectorAll sel (set_listeners f p) = document_querySelectorAll sel p.
Proof.
  assert (Hdesc : ∀ fuel r n,
            descends fuel (set_listeners f p) r n = descends fuel p r n).
  { induction fuel as [|fuel IH]; intros r n; [done|].
    cbn [descends]. rewrite parent_of_set_listeners.
    destruct (parent_of n p); [by rewrite IH | done]. }
  unfold document_querySelectorAll, all_nodes, inside, selects.
  change (nodes (set_listeners f p)) with (nodes p).
  apply List.filter_ext. intros n.
  by rewrite Hdesc, element_set_listeners.
Qed.

(** A query by class name does not see changes of other class names. *)
Lemma document_query_class_update (c : string) (m : NodeId)
    (g : list string → list string) (p : Page) :
  (∀ l, c ∈ g l ↔ c ∈ l) →
  document_querySelectorAll [ByClass c] (update m (with_classList g) p)
  = document_querySelectorAll [ByClass c] p.
Proof.
  intros Hg. unfold document_querySelectorAll, all_nodes.
  rewrite length_nodes_update. apply List.filter_ext. intros n.
  rewrite inside_update by apply keepsShape_classList. f_equal.
  unfold selects. rewrite element_update. case_decide; [subst|done].
  destruct (element m p) as [e|]; [|done]. cbn.
  f_equal. apply bool_decide_ext, Hg.
Qed.

Lemma has_class_other_update (c : string) (n m : NodeId)
    (g : list string → list string) (p : Page) :
  (∀ l, c ∈ g l ↔ c ∈ l) →
  has_class c n (update m (with_classList g) p) = has_class c n p.
Proof.
  intros Hg. unfold has_class, classes. rewrite element_update.
  case_decide; [subst|done].
  destruct (element m p) as [e|]; cbn; [|done]. apply bool_decide_ext, Hg.
Qed.

Lemma keepsOtherClasses_add (c : string) :
  c ∈ preferenceClasses → keepsOtherClasses (tokens_add c).
Proof.
  intros Hc c' l Hc'. rewrite elem_of_tokens_add.
  split; [intros [-> | ?]; done | by right].
Qed.

Lemma keepsOtherClasses_remove (cs : list string) :
  (∀ c, c ∈ cs → c ∈ preferenceClasses) →
  keepsOtherClasses (λ l, foldl (λ acc c, tokens_remove c acc) l cs).
Proof.
  intros Hcs c' l Hc'. revert l. induction cs as [|c cs IH]; intros l; [done|].
  cbn [foldl]. rewrite IH by (intros; apply Hcs; by right).
  rewrite elem_of_tokens_remove. split; [tauto|].
  intros Hin. split; [|done]. intros ->. apply Hc', Hcs. by left.
Qed.

(** All that loading the page changes: class lists, in the preference
    classes only; inline styles; the listener table, by listeners of the
    script's shapes; the observed elements. *)
Lemma domContentLoaded_keeps_view {X} (f : Page → X) :
  (∀ n g p, keepsOtherClasses g → f (update n (with_classList g) p) = f p) →
  (∀ n k v p, f (update n (with_style k v) p) = f p) →
  (∀ l p, scriptListener l = true → f (set_listeners (λ ls, ls ++ [l]) p) = f p) →
  (∀ g p, f (set_observed g p) = f p) →
  keeps f domContentLoaded.
Proof.
  intros Hclass Hstyle Hlisten Hobserve.
  unfold domContentLoaded, initAccessibility, applyFontSize, initNavigation,
    initSearch, initTabs, initAnimations, initHeaderScroll,
    localStorage_getItem, classList_add, classList_remove, set_style,
    addEventListener, document_addEventListener, window_addEventListener,
    document_querySelector, querySelector, querySelectorAll, observe.
  keeps_structure; intros;
    first [ apply Hstyle | apply Hobserve
          | apply Hlisten; reflexivity
          | apply Hclass;
            first [ apply keepsOtherClasses_add; by apply (bool_decide_unpack _)
                  | apply keepsOtherClasses_remove; intros c Hc;
                    repeat (apply elem_of_cons in Hc as [-> | Hc];
                            [by apply (bool_decide_unpack _)|]);
                    by apply elem_of_nil in Hc ] ].
Qed.

Lemma listenersOn_add (t t' : EventTarget) (type type' : string) (h : Handler)
    (q : Page) :
  listenersOn t type (set_listeners (λ ls, ls ++ [mkListener t' type' h]) q)
  = listenersOn t type q
    ++ (if bool_decide (t' = t) && bool_decide (type' = type) then [h] else []).
Proof.
  unfold listenersOn. destruct q. cbn [listeners set_listeners].
  rewrite List.filter_app, fmap_app. f_equal.
  cbn [List.filter]. rewrite listensTo_mk. by destruct (_ && _).
Qed.

Lemma listenersOn_update (t : EventTarget) (type : string) (n : NodeId)
    (g : Element → Element) (q : Page) :
  listenersOn t type (update n g q) = listenersOn t type q.
Proof. unfold listenersOn. by rewrite listeners_update. Qed.

(** Listeners on elements are no listeners on the document. *)
Lemma keeps_document_listeners (type : string) (r : Ref) (type' : string)
    (h : Handler) :
  keeps (listenersOn OnDocument type) (addEventListener r type' h).
Proof.
  unfold addEventListener. keeps_structure.
  rewrite listenersOn_add. cbn. apply app_nil_r.
Qed.

Lemma initNavigation_escape (p : Page) (b m : NodeId) :
  head (document_querySelectorAll [ByClass "mobile-menu-btn"] p) = Some b →
  head (document_querySelectorAll [ByClass "mobile-menu"] p) = Some m →
  ∃ p', initNavigation p = (Normal tt, p')
    ∧ listenersOn OnDocument "keydown" p'
      = listenersOn OnDocument "keydown" p ++ [EscapeMobileMenu (Some b) (Some m)].
Proof.
  intros Hb Hm. unfold initNavigation.
  set (loop := λ dropdowns : list NodeId,
         forEach dropdowns (λ dropdown,
           trigger ← querySelector (Some dropdown) [ByTag "a"];
           menu ← querySelector (Some dropdown) [ByClass "dropdown"];
           if truthy trigger && truthy menu
           then addEventListener trigger "keydown" (DropdownKeydown trigger)
           else mret tt)).
  assert (Hloop : ∀ ds q, ∃ q', loop ds q = (Normal tt, q')
            ∧ listenersOn OnDocument "keydown" q'
              = listenersOn OnDocument "keydown" q).
  { intros ds q.
    assert (Hnormal : ∃ q', loop ds q = (Normal tt, q')).
    { revert q. apply forEach_normal. intros d q. apply dropdown_normal. }
    destruct Hnormal as (q' & Hrun).
    exists q'. split; [exact Hrun|].
    apply (keeps_returns (listenersOn OnDocument "keydown") (loop ds) _ _ tt);
      [|exact Hrun].
    unfold loop, querySelector. keeps_structure.
    rewrite listenersOn_add. cbn. apply app_nil_r. }
  js_run. rewrite Hb, Hm.
  cbn [truthy andb bool_decide decide_rel is_Some_dec]. cbv iota beta.
  destruct (head (document_querySelectorAll [ByClass "mobile-close"] p)) as [c|];
    cbn [truthy andb bool_decide decide_rel is_Some_dec]; cbv iota beta;
    js_run;
    match goal with
    | |- ∃ p', loop ?ds ?q = _ ∧ _ =>
        destruct (Hloop ds q) as (p' & Hrun & Hview)
    end;
    (exists p'; split; [exact Hrun|]);
    rewrite Hview, !listenersOn_add; cbn; by rewrite ?app_nil_r.
Qed.

Lemma initSearch_escape (p : Page) (t s : NodeId) :
  head (document_querySelectorAll [ByClass "search-toggle"] p) = Some t →
  head (document_querySelectorAll [ByClass "search-overlay"] p) = Some s →
  ∃ p', initSearch p = (Normal tt, p')
    ∧ listenersOn OnDocument "keydown" p'
      = listenersOn OnDocument "keydown" p ++ [EscapeSearch (Some t) (Some s)].
Proof.
  intros Ht Hs. unfold initSearch. js_run. rewrite Ht, Hs.
  cbn [truthy andb bool_decide decide_rel is_Some_dec]. cbv iota beta.
  unfold querySelector. js_run.
  destruct (head (document_querySelectorAll [ByClass "search-close"] p)) as [c|];
    cbn [truthy andb bool_decide decide_rel is_Some_dec]; cbv iota beta;
    js_run; (eexists; split; [reflexivity|]);
    rewrite !listenersOn_add; cbn; by rewrite ?app_nil_r.
Qed.

Lemma rest_keeps_document_listeners :
  keeps (listenersOn OnDocument "keydown")
    (initTabs;; initAnimations;; initHeaderScroll).
Proof.
  unfold initTabs, initAnimations, initHeaderScroll, set_style,
    addEventListener, window_addEventListener,
    document_querySelector, querySelectorAll, observe.
  keeps_structure;
    first [ rewrite listenersOn_add; cbn; apply app_nil_r
          | apply listenersOn_update
          | reflexivity ].
Qed.

Lemma initAccessibility_keeps {X} (f : Page → X) :
  (∀ n g p, keepsOtherClasses g → f (update n (with_classList g) p) = f p) →
  keeps f initAccessibility.
Proof.
  intros Hclass.
  unfold initAccessibility, applyFontSize, localStorage_getItem, classList_add,
    classList_remove.
  keeps_structure; intros; apply Hclass;
    first [ apply keepsOtherClasses_add; by apply (bool_decide_unpack _)
          | apply keepsOtherClasses_remove; intros c Hc;
            repeat (apply elem_of_cons in Hc as [-> | Hc];
                    [by apply (bool_decide_unpack _)|]);
            by apply elem_of_nil in Hc ].
Qed.

(** The keydown listeners of the page after it is loaded: on the document
    the Escape listener of the menu, then that of the search overlay. *)
Lemma domContentLoaded_escape (p : Page) (b m t s : NodeId) :
  listeners p = [] →
  head (document_querySelectorAll [ByClass "mobile-menu-btn"] p) = Some b →
  head (document_querySelectorAll [ByClass "mobile-menu"] p) = Some m →
  head (document_querySelectorAll [ByClass "search-toggle"] p) = Some t →
  head (document_querySelectorAll [ByClass "search-overlay"] p) = Some s →
  ∃ p0, domContentLoaded p = (Normal tt, p0)
    ∧ listenersOn OnDocument "keydown" p0
      = [EscapeMobileMenu (Some b) (Some m); EscapeSearch (Some t) (Some s)].
Proof.
  intros Hnone Hb Hm Ht Hs.
  destruct (initAccessibility_normal p) as (level & p1 & H1 & _).
  assert (Hquery : ∀ c, c ∉ preferenceClasses →
            document_querySelectorAll [ByClass c] p1
            = document_querySelectorAll [ByClass c] p).
  { intros c Hc.
    apply (keeps_returns (document_querySelectorAll [ByClass c])
             initAccessibility _ _ level); [|exact H1].
    apply initAccessibility_keeps. intros n g q Hg.
    apply document_query_class_update. intros l. by apply Hg. }
  assert (Hl1 : listenersOn OnDocument "keydown" p1 = []).
  { transitivity (listenersOn OnDocument "keydown" p).
    - apply (keeps_returns (listenersOn OnDocument "keydown")
               initAccessibility _ _ level); [|exact H1].
      apply initAccessibility_keeps. intros. apply listenersOn_update.
    - unfold listenersOn. by rewrite Hnone. }
  destruct (initNavigation_escape p1 b m) as (p2 & H2 & Hl2).
  { by rewrite Hquery by by apply (bool_decide_unpack _). }
  { by rewrite Hquery by by apply (bool_decide_unpack _). }
  assert (Hquery2 : ∀ sel, document_querySelectorAll sel p2
                           = document_querySelectorAll sel p1).
  { intros sel.
    apply (keeps_returns (document_querySelectorAll sel) initNavigation _ _ tt);
      [|exact H2].
    unfold initNavigation, addEventListener, document_addEventListener,
      document_querySelector, querySelector.
    keeps_structure; apply document_query_set_listeners. }
  destruct (initSearch_escape p2 t s) as (p3 & H3 & Hl3).
  { by rewrite Hquery2, Hquery by by apply (bool_decide_unpack _). }
  { by rewrite Hquery2, Hquery by by apply (bool_decide_unpack _). }
  destruct (initTabs_normal p3) as (p4 & H4).
  destruct (initAnimations_normal p4) as (p5 & H5).
  destruct (initHeaderScroll_normal p5) as (p6 & H6).
  assert (Hrest : (initTabs;; initAnimations;; initHeaderScroll) p3 = (Normal tt, p6)).
  { by rewrite (run_bind _ _ _ _ _ H4), (run_bind _ _ _ _ _ H5). }
  exists p6. split.
  - unfold domContentLoaded.
    by rewrite (run_bind _ _ _ _ _ H1), (run_bind _ _ _ _ _ H2),
      (run_bind _ _ _ _ _ H3).
  - rewrite (keeps_returns (listenersOn OnDocument "keydown") _ _ _ _
               rest_keeps_document_listeners Hrest).
    by rewrite Hl3, Hl2, Hl1.
Qed.

(** Every listener on the page after it is loaded has one of the script's
    shapes. *)
Lemma domContentLoaded_listeners (p p0 : Page) :
  listeners p = [] → domContentLoaded p = (Normal tt, p0) →
  forallb scriptListener (listeners p0) = true.
Proof.
  intros Hnone Hrun.
  transitivity (forallb scriptListener (listeners p)); [|by rewrite Hnone].
  apply (keeps_returns (λ q, forallb scriptListener (listeners q))
           domContentLoaded _ _ tt); [|exact Hrun].
  apply domContentLoaded_keeps_view; intros.
  - by rewrite listeners_update.
  - by rewrite listeners_update.
  - destruct p1. cbn [listeners set_listeners]. rewrite forallb_app. cbn.
    rewrite H. by rewrite !andb_true_r.
  - by destruct p1.
Qed.

(** The Escape key is none of the keys a dropdown trigger or a tab listens
    for. *)
Lemma escape_is_quiet (l : Listener) (e : Event) (q : Page) :
  scriptListener l = true →
  listenerType l = "keydown" → listenerTarget l ≠ OnDocument →
  eventKey e = Some "Escape" →
  reported (runHandler click (listenerHandler l) e) q = (Normal tt, q).
Proof.
  intros Hscript Htype Htarget Hkey. apply reported_normal.
  destruct l as [target type h]. cbn in *. subst type.
  destruct target as [| |n]; [by destruct h | done |].
  destruct h; try done; cbn [runHandler]; unfold withKey; rewrite Hkey.
  - reflexivity.
  - unfold tabKeydown. by rewrite targetIndex_idle.
Qed.

Lemma quiet_listeners_run (ls : list Listener) (e : Event) (q : Page) :
  Forall (λ l, scriptListener l = true ∧ listenerType l = "keydown"
               ∧ listenerTarget l ≠ OnDocument) ls →
  eventKey e = Some "Escape" →
  forEach (listenerHandler <$> ls) (λ h, reported (runHandler click h e)) q
  = (Normal tt, q).
Proof.
  intros Hls Hkey. induction Hls as [|l ls (Hs & Ht & Hd) Hls IH]; [done|].
  cbn [fmap list_fmap forEach].
  by rewrite (run_bind _ _ _ _ _ (escape_is_quiet l e q Hs Ht Hd Hkey)).
Qed.

Lemma listenersOn_quiet (t : EventTarget) (q : Page) :
  forallb scriptListener (listeners q) = true → t ≠ OnDocument →
  Forall (λ l, scriptListener l = true ∧ listenerType l = "keydown"
               ∧ listenerTarget l ≠ OnDocument)
    (List.filter (listensTo t "keydown") (listeners q)).
Proof.
  intros Hall Ht. rewrite forallb_forall in Hall.
  apply List.Forall_forall. intros l [Hin Hl]%filter_In.
  apply andb_true_iff in Hl as [Htarget%bool_decide_eq_true Htype%bool_decide_eq_true].
  split; [by apply Hall|]. split; [done|]. by rewrite Htarget.
Qed.

Lemma window_keydown_none (q : Page) :
  forallb scriptListener (listeners q) = true →
  listenersOn OnWindow "keydown" q = [].
Proof.
  unfold listenersOn. induction (listeners q) as [|l ls IH]; [done|].
  cbn [forallb List.filter]. intros [Hl Hls]%andb_true_iff.
  destruct l as [target type h]. rewrite listensTo_mk.
  destruct target as [| |x].
  - destruct h; try done. cbn in Hl. apply bool_decide_eq_true in Hl as ->.
    cbn. by apply IH.
  - rewrite (bool_decide_eq_false_2 (OnDocument = OnWindow)) by done. by apply IH.
  - rewrite (bool_decide_eq_false_2 (OnElement x = OnWindow)) by done. by apply IH.
Qed.

Lemma forEach_concat_quiet {A} (parts : list (list A)) (rest : list A)
    (f : A → JS unit) (q : Page) :
  Forall (λ part, forEach part f q = (Normal tt, q)) parts →
  forEach (concat parts ++ rest) f q = forEach rest f q.
Proof.
  induction 1 as [|part parts Hpart Hparts IH]; [done|].
  cbn [concat]. rewrite <- app_assoc. by rewrite (forEach_app _ _ _ _ _ Hpart).
Qed.

(** X18. Escape closes whatever is open.  Load a page that has the menu
    button, the menu, the search toggle and the search overlay, with both
    overlays marked open, and let a keydown event with the Escape key start
    at any element of the document.  Of the listeners the page has then, the
    event reaches those on its way up, none of which reacts to Escape, and on
    the document the one [initNavigation] registered and then the one
    [initSearch] registered.  So the menu is closed first, then the search
    overlay: both end hidden and without the marker, the scroll lock is
    released, and the focus ends on the search toggle. *)
Theorem escape_closes_both (p : Page) (b m t s n : NodeId) :
  listeners p = [] →
  head (document_querySelectorAll [ByClass "mobile-menu-btn"] p) = Some b →
  head (document_querySelectorAll [ByClass "mobile-menu"] p) = Some m →
  head (document_querySelectorAll [ByClass "search-toggle"] p) = Some t →
  head (document_querySelectorAll [ByClass "search-overlay"] p) = Some s →
  m ≠ s →
  has_class "active" m p = true →
  has_class "active" s p = true →
  attached n p = true →
  ∃ p0 p',
    domContentLoaded p = (Normal tt, p0)
    ∧ dispatch (keydownOn n "Escape") p0 = (Normal tt, p')
    ∧ has_class "active" m p' = false
    ∧ has_class "active" s p' = false
    ∧ attribute m "aria-hidden" p' = Some "true"
    ∧ attribute s "aria-hidden" p' = Some "true"
    ∧ styleOf Body "overflow" p' = Some ""
    ∧ activeElement p' = Some t.
Proof.
  intros Hnone Hb Hm Ht Hs Hne Hmenu Hsearch Hn.
  destruct (domContentLoaded_escape p b m t s Hnone Hb Hm Ht Hs) as (p0 & Hload & Hdoc).
  pose proof (domContentLoaded_listeners p p0 Hnone Hload) as Hall.
  assert (Hview : ∀ X (f : Page → X),
            (∀ n g q, keepsOtherClasses g → f (update n (with_classList g) q) = f q) →
            (∀ n k v q, f (update n (with_style k v) q) = f q) →
            (∀ g q, f (set_listeners g q) = f q) →
            (∀ g q, f (set_observed g q) = f q) →
            f p0 = f p).
  { intros X f Hclass Hstyle Hlisten Hobserve.
    apply (keeps_returns f domContentLoaded _ _ tt); [|exact Hload].
    apply domContentLoaded_keeps_view; auto. }
  assert (Hactive : ∀ x, has_class "active" x p0 = has_class "active" x p).
  { intros x. apply (Hview _ (has_class "active" x)); intros.
    - apply has_class_other_update. intros l. apply H.
      by apply (bool_decide_unpack _).
    - by apply has_class_update_field.
    - unfold has_class, classes. by rewrite element_set_listeners.
    - unfold has_class, classes. by rewrite element_set_observed. }
  assert (Hpath : eventPath (OnElement n) p0 = eventPath (OnElement n) p).
  { cbn [eventPath].
    assert (Hlen : length (nodes p0) = length (nodes p)).
    { apply (Hview _ (λ q, length (nodes q))); intros;
        by try apply length_nodes_update. }
    assert (Hparent : ∀ x, parent_of x p0 = parent_of x p).
    { intros x. apply (Hview _ (parent_of x)); intros.
      - apply parent_of_update, keepsShape_classList.
      - apply parent_of_update, keepsShape_style.
      - apply parent_of_set_listeners.
      - unfold parent_of. by rewrite element_set_observed. }
    by rewrite Hlen, (ancestors_ext _ p p0 n Hparent). }
  rewrite <- Hactive in Hmenu, Hsearch.
  destruct (closeMobileMenu_run b m p0 (has_class_is_Some _ _ _ Hmenu))
    as (p1 & Hrun1 & Hoff1 & Hhid1 & _ & _ & Hcls1 & _).
  assert (Hs1 : has_class "active" s p1 = true) by (by rewrite Hcls1).
  destruct (closeSearch_run t s p1 (has_class_is_Some _ _ _ Hs1))
    as (p' & Hrun2 & Hoff2 & Hhid2 & Hflow & Hfocus & Hcls2 & Hattr2).
  exists p0, p'. split; [done|]. split; [|split; [|split; [|split; [|split]]]].
  - unfold dispatch. rewrite dispatchWith_run.
    unfold listenersFor, keydownOn. cbn [eventTarget eventType].
    rewrite Hpath. cbn [eventPath]. unfold attached in Hn. rewrite Hn.
    rewrite fmap_app, concat_app.
    replace (concat ((λ x, listenersOn x "keydown" p0) <$> [OnDocument; OnWindow]))
      with (listenersOn OnDocument "keydown" p0 ++ listenersOn OnWindow "keydown" p0)
      by (cbn; by rewrite app_nil_r).
    rewrite Hdoc, (window_keydown_none p0 Hall), app_nil_r.
    rewrite forEach_concat_quiet.
    + cbn [forEach].
      assert (Hfirst : reported (runHandler click (EscapeMobileMenu (Some b) (Some m))
                                   (mkEvent "keydown" (OnElement n) (Some "Escape") 0)) p0
                       = (Normal tt, p1)).
      { apply reported_normal. cbn [runHandler]. unfold withKey. cbn [eventKey].
        unfold escapeMobileMenu, classList_contains. js_run.
        rewrite bool_decide_eq_true_2 by done. by rewrite Hmenu. }
      rewrite (run_bind _ _ _ _ _ Hfirst).
      erewrite run_bind; [reflexivity|].
      apply reported_normal. cbn [runHandler]. unfold withKey. cbn [eventKey].
      unfold escapeSearch, classList_contains. js_run.
      rewrite bool_decide_eq_true_2 by done. by rewrite Hs1.
    + apply List.Forall_forall. intros part Hpart.
      apply in_map_iff in Hpart as (x & <- & Hx).
      apply quiet_listeners_run; [|done].
      apply listenersOn_quiet; [done|].
      apply in_map_iff in Hx as (a & <- & _). done.
  - by rewrite Hcls2.
  - done.
  - by rewrite Hattr2.
  - done.
  - done.
Qed.

Lemma escape_closes_both_witness :
  ∃ p0 p',
    domContentLoaded bothOpenPage = (Normal tt, p0)
    ∧ dispatch (keydownOn (Node 7) "Escape") p0 = (Normal tt, p')
    ∧ has_class "active" (Node 1) p' = false
    ∧ has_class "active" (Node 5) p' = false
    ∧ attribute (Node 1) "aria-hidden" p' = Some "true"
    ∧ attribute (Node 5) "aria-hidden" p' = Some "true"
    ∧ styleOf Body "overflow" p' = Some ""
    ∧ activeElement p' = Some (Node 4).
Proof.
  apply (escape_closes_both bothOpenPage (Node 0) (Node 1) (Node 4) (Node 5) (Node 7)).
  - reflexivity.
  - vm_compute. reflexivity.
  - vm_compute. reflexivity.
  - vm_compute. reflexivity.
  - vm_compute. reflexivity.
  - discriminate.
  - vm_compute. reflexivity.
  - vm_compute. reflexivity.
  - vm_compute. reflexivity.
Defined.
